(** * The hybrid retrieval engine of the advisory-board backend

    A shallow embedding of [backend/hybrid_retrieval.py] (class
    [HybridRetriever]) and [backend/rag.py] (class [CouncilRAG]), and the
    properties of its specification; then of what the backend does around
    the engine: [extract_reasoning] of [backend/openrouter.py],
    [backend/file_processing.py], [backend/analytics.py], the tables of
    [backend/config.py], and [get_turn_index], [calculate_cost],
    [create_conversation] and [upload_file] of [backend/main.py].

    Conventions of the embedding.
    - Python [str] is [string]; the whitespace and case tables are the ASCII
      ones.
    - Python [float] scores are exact rationals [Q]; [int] is [Z] or [nat].
    - A [dict] read by key is a [gmap]; a [dict] whose iteration order is
      observed ([combined_scores]) is an association list in insertion order.
    - An exception is the [Raise] case of [result]; a method that mutates
      [self] returns the new object next to its result.
    - The libraries the code calls (rank_bm25, numpy, the Chroma collection's
      embedding distance, the iteration order of a [set], [json.dumps], the
      printing of a float) are the fields of [Externals]; what the proofs
      use of them is [ExternalsOk].
    - The rounding of doubles is not modelled: what is stated of a float is
      the formula that gives it, its sign, and its comparison with a
      threshold it is not close to; no bound on a rounded sum is stated.
    - The arguments have the types the signatures give them: a record of
      the collection has a text and a metadata dict, as every record
      [index_session] writes, and a stage-1 result has its model and its
      response. What the code does on other values (it raises) is outside
      the embedding, and no statement is about it.
    - A value read from JSON, whose type the code does not fix, is a
      [Dyn.json]; an operation that raises on it returns [None].
    - Inside the [try] of [extract_text_from_file] an exception is the
      [Failed] case of [attempt], with the text of [str(e)]; the PDF, DOCX,
      base64 and vision calls are the fields of [FileProcessing.Libs]. *)

From Stdlib Require Import QArith Qround Lqa.
From stdpp Require Import gmap strings list fin_maps pretty sorting.

(** ** Exceptions *)

Inductive exn : Type :=
| StoreError
| KeyError (key : string)
| IndexError
| AttributeError
| ValueError.

Inductive result (A : Type) : Type :=
| Ok (a : A)
| Raise (e : exn).
Arguments Ok {A} a.
Arguments Raise {A} e.

#[global] Instance result_ret : MRet result := λ A a, Ok a.
#[global] Instance result_bind : MBind result := λ A B f m,
  match m with Ok a => f a | Raise e => Raise e end.

Definition of_option {A} (e : exn) (o : option A) : result A :=
  match o with Some a => Ok a | None => Raise e end.

(** ** Python built-ins *)

Module Py.

(** [str.isspace] on the ASCII range: tab to carriage return, the four
    separators 0x1c-0x1f, and the space. *)
Definition isspace (a : Ascii.ascii) : bool :=
  let n := Ascii.N_of_ascii a in
  ((9 <=? n)%N && (n <=? 13)%N) || ((28 <=? n)%N && (n <=? 32)%N).

Fixpoint split_go (acc : list Ascii.ascii) (l : list Ascii.ascii) : list (list Ascii.ascii) :=
  match l with
  | [] => match acc with [] => [] | _ => [reverse acc] end
  | a :: l' =>
      if isspace a
      then match acc with
           | [] => split_go [] l'
           | _ => reverse acc :: split_go [] l'
           end
      else split_go (a :: acc) l'
  end.

(** [s.split()]: the maximal runs of non-whitespace characters. *)
Definition split (s : string) : list string :=
  String.string_of_list_ascii <$> split_go [] (String.list_ascii_of_string s).

Definition lower_char (a : Ascii.ascii) : Ascii.ascii :=
  let n := Ascii.N_of_ascii a in
  if ((65 <=? n)%N && (n <=? 90)%N) then Ascii.ascii_of_N (n + 32) else a.

(** [s.lower()] *)
Definition lower (s : string) : string :=
  String.string_of_list_ascii (lower_char <$> String.list_ascii_of_string s).

(** [sep.join(parts)] *)
Fixpoint join (sep : string) (parts : list string) : string :=
  match parts with
  | [] => ""
  | [p] => p
  | p :: ps => p +:+ sep +:+ join sep ps
  end.

(** [{k: v for k, v in pairs}]: a later pair overwrites an earlier one. *)
Definition dict {V} (pairs : list (string * V)) : gmap string V :=
  foldl (λ m kv, <[kv.1 := kv.2]> m) ∅ pairs.

(** [list(d.keys())] *)
Definition keys {V} (d : gmap string V) : list string := (map_to_list d).*1.

(** Insertion into a list that is kept ordered by [before]: [x] goes in
    front of the first [y] with [before x y]. *)
Fixpoint insert_by {A} (before : A → A → bool) (x : A) (l : list A) : list A :=
  match l with
  | [] => [x]
  | y :: l' => if before x y then x :: l else y :: insert_by before x l'
  end.

(** A stable sort, as [sorted] is: with [before x y] the test "the key of
    [x] is not after the key of [y]", elements with equal keys keep the
    order they had in [l]. *)
Definition sort_by {A} (before : A → A → bool) (l : list A) : list A :=
  foldr (insert_by before) [] l.

(** [not l] *)
Definition is_empty {A} (l : list A) : bool :=
  match l with [] => true | _ => false end.

(** The line feed of a string literal. *)
Definition nl : string := String (Ascii.ascii_of_N 10) EmptyString.

(** [a < b] on scores *)
Definition Qltb (a b : Q) : bool := negb (Qle_bool b a).

(** [enumerate(l)], counting from [start] *)
Fixpoint enumerate_from {A} (start : nat) (l : list A) : list (nat * A) :=
  match l with
  | [] => []
  | x :: l' => (start, x) :: enumerate_from (S start) l'
  end.

End Py.

(** ** Stored values *)

(** The values the engine stores in a metadata mapping. *)
Inductive value : Type :=
| VStr (s : string)
| VInt (z : Z)
| VFloat (q : Q).

Abbreviation metadata := (gmap string value).

(** The libraries behind the engine. *)
Record Externals : Type := {
  (** [BM25Okapi(tokenized).get_scores(query_tokens)] *)
  bm25_get_scores : list (list string) → list string → list Q;
  (** [np.argsort(scores)] *)
  np_argsort : list Q → list nat;
  (** the cosine distance the collection computes between the embeddings
      of a query text and of a document *)
  cosine_distance : string → string → Q;
  (** the order in which a [set] built from the given elements is iterated *)
  set_iter : list string → list string;
  (** [json.dumps] of a list of strings *)
  json_dumps : list string → string;
  (** [str] of a float *)
  float_str : Q → string;
}.

(** What the proofs rely on: [argsort] lists indices by ascending score,
    and a set is iterated without repetition and holds the elements put
    into it. *)
Record ExternalsOk (X : Externals) : Prop := {
  argsort_sorted : ∀ l i j a b x y,
    (i ≤ j)%nat → np_argsort X l !! i = Some a → np_argsort X l !! j = Some b →
    l !! a = Some x → l !! b = Some y → (x <= y)%Q;
  set_iter_NoDup : ∀ l, NoDup (set_iter X l);
  set_iter_elem : ∀ l x, x ∈ set_iter X l ↔ x ∈ l;
}.

(** [str(v)], as an f-string prints a value *)
Definition py_str (X : Externals) (v : value) : string :=
  match v with
  | VStr s => s
  | VInt z => pretty z
  | VFloat q => float_str X q
  end.

(** [meta.get("conversation_id") != conversation_id] is false exactly when
    the field is present and is that string. *)
Definition in_conversation (meta : metadata) (conversation_id : string) : bool :=
  match meta !! "conversation_id" with
  | Some (VStr s) => bool_decide (s = conversation_id)
  | _ => false
  end.

(** ** The Chroma collection *)

Module Chroma.

Record entry : Type := {
  e_doc : string;
  e_meta : metadata;
}.

Inductive op : Type := OpScan | OpFetch | OpQuery | OpUpsert.

(** A collection: the records by identifier, and which calls fail. *)
Record collection : Type := {
  docs : gmap string entry;
  fails : op → bool;
}.

(** [collection.get(include=["documents", "metadatas"])] *)
Definition get_all (c : collection) : result (list (string * entry)) :=
  if fails c OpScan then Raise StoreError else Ok (map_to_list (docs c)).

(** [collection.get(ids=ids, include=[...])]: the records that exist. *)
Definition get (c : collection) (ids : list string) : result (list (string * entry)) :=
  if fails c OpFetch then Raise StoreError
  else Ok (omap (λ i, (λ e, (i, e)) <$> docs c !! i) ids).

(** [collection.query(query_texts=[query], n_results=n,
    where={"conversation_id": conversation_id})]: the [n] records of that
    conversation nearest to the query, nearest first, with their distances.
    A non-positive [n_results] is rejected. The proofs use of a result that
    its records are of the conversation, distinct, at most [n], and in
    order of distance. *)
Definition query (X : Externals) (c : collection) (query : string) (n : nat)
    (conversation_id : string) : result (list (string * Q)) :=
  if fails c OpQuery then Raise StoreError
  else if bool_decide (n = 0) then Raise ValueError
  else
    let matching :=
      filter (λ kv : string * entry, in_conversation (e_meta kv.2) conversation_id = true)
             (map_to_list (docs c)) in
    let scored := (λ kv : string * entry, (kv.1, cosine_distance X query (e_doc kv.2))) <$> matching in
    Ok (take n (Py.sort_by (λ a b : string * Q, Qle_bool a.2 b.2) scored)).

(** [collection.upsert(ids=..., documents=..., metadatas=...)] *)
Definition upsert (c : collection) (batch : list (string * entry)) : result collection :=
  if fails c OpUpsert then Raise StoreError
  else Ok {| docs := foldl (λ m kv, <[kv.1 := kv.2]> m) (docs c) batch; fails := fails c |}.

End Chroma.

(** ** [HybridRetriever] *)

Module HybridRetriever.

(** The object: the BM25 index (here the tokenized corpus [BM25Okapi] was
    built from) and the snapshot of the collection taken with it. *)
Record t : Type := {
  bm25_index : option (list (list string));
  doc_ids : list string;
  id_to_doc : gmap string string;
  id_to_metadata : gmap string metadata;
}.

(** [__init__] *)
Definition init : t :=
  {| bm25_index := None; doc_ids := []; id_to_doc := ∅; id_to_metadata := ∅ |}.

(** [_rebuild_bm25_index]: every field of the object is replaced. *)
Definition _rebuild_bm25_index (c : Chroma.collection) : result t :=
  all_docs ← Chroma.get_all c;
  let ids := all_docs.*1 in
  let documents := Chroma.e_doc <$> all_docs.*2 in
  let metadatas := Chroma.e_meta <$> all_docs.*2 in
  if Py.is_empty ids || Py.is_empty documents then
    mret {| bm25_index := None; doc_ids := []; id_to_doc := ∅; id_to_metadata := ∅ |}
  else
    mret {| bm25_index := Some ((λ doc, Py.split (Py.lower doc)) <$> documents);
            doc_ids := ids;
            id_to_doc := Py.dict (zip ids documents);
            id_to_metadata := Py.dict (zip ids metadatas) |}.

Definition refresh_index (c : Chroma.collection) (self : t) : result t :=
  _rebuild_bm25_index c.

Definition _ensure_index (c : Chroma.collection) (self : t) : result t :=
  match bm25_index self with
  | None => _rebuild_bm25_index c
  | Some _ => mret self
  end.

(** One returned candidate: the dict with keys id, score, metadata, text. *)
Record hit : Type := {
  h_id : string;
  h_score : Q;
  h_metadata : metadata;
  h_text : string;
}.

(** [bm25_results] and [dense_result_dict]: identifier to (rank, score). *)
Abbreviation ranked := (gmap string (nat * Q)).

Definition k_const : Q := 60.

(** [np.argsort(bm25_scores)[::-1][: top_k * 2]] *)
Definition bm25_top_indices (X : Externals) (bm25_scores : list Q) (top_k : nat) : list nat :=
  take (top_k * 2) (reverse (np_argsort X bm25_scores)).

(** The loop over [enumerate(bm25_top_indices)]. *)
Fixpoint bm25_loop (self : t) (bm25_scores : list Q) (conversation_id : string)
    (todo : list (nat * nat)) (bm25_results : ranked) : result ranked :=
  match todo with
  | [] => Ok bm25_results
  | (rank, idx) :: todo' =>
      match doc_ids self !! idx, bm25_scores !! idx with
      | Some doc_id, Some score =>
          if Qle_bool score 0 then
            bm25_loop self bm25_scores conversation_id todo' bm25_results
          else
            let meta := default ∅ (id_to_metadata self !! doc_id) in
            if negb (in_conversation meta conversation_id) then
              bm25_loop self bm25_scores conversation_id todo' bm25_results
            else
              bm25_loop self bm25_scores conversation_id todo'
                (<[doc_id := (rank + 1, score)]> bm25_results)
      | _, _ => Raise IndexError
      end
  end.

(** Step 1: BM25 over the whole index, then the filter by conversation. *)
Definition lexical (X : Externals) (self : t) (corpus : list (list string))
    (query conversation_id : string) (top_k : nat) : result ranked :=
  let query_tokens := Py.split (Py.lower query) in
  let bm25_scores := bm25_get_scores X corpus query_tokens in
  bm25_loop self bm25_scores conversation_id
    (Py.enumerate_from 0 (bm25_top_indices X bm25_scores top_k)) ∅.

(** The loop over [enumerate(zip(ids_list[0], distances_list[0]))]. *)
Definition dense_loop (found : list (string * Q)) : ranked :=
  foldl (λ (d : ranked) (e : nat * (string * Q)),
           <[e.2.1 := (e.1 + 1, (1 - e.2.2)%Q)]> d)
        ∅ (Py.enumerate_from 0 found).

(** Step 2: the dense retrieval, filtered by the collection. *)
Definition dense (X : Externals) (c : Chroma.collection)
    (query conversation_id : string) (top_k : nat) : result ranked :=
  found ← Chroma.query X c query (top_k * 2) conversation_id;
  mret (dense_loop found).

(** The body of the loop of step 3: the fused score of one identifier. *)
Definition rrf (bm25_weight dense_weight : Q) (bm25_results dense_result_dict : ranked)
    (doc_id : string) : Q :=
  let score := 0%Q in
  let score :=
    match bm25_results !! doc_id with
    | Some (rank, _) => (score + bm25_weight / (k_const + inject_Z (Z.of_nat rank)))%Q
    | None => score
    end in
  let score :=
    match dense_result_dict !! doc_id with
    | Some (rank, _) => (score + dense_weight / (k_const + inject_Z (Z.of_nat rank)))%Q
    | None => score
    end in
  score.

(** [combined_scores], in the order its keys were inserted: the iteration
    order of [all_ids]. *)
Definition combined_scores (X : Externals) (bm25_weight dense_weight : Q)
    (bm25_results dense_result_dict : ranked) : list (string * Q) :=
  let all_ids := set_iter X (Py.keys bm25_results ++ Py.keys dense_result_dict) in
  (λ doc_id, (doc_id, rrf bm25_weight dense_weight bm25_results dense_result_dict doc_id))
    <$> all_ids.

(** [sorted(combined_scores.keys(), key=..., reverse=True)], each key with
    its score. *)
Definition sorted_all (combined : list (string * Q)) : list (string * Q) :=
  Py.sort_by (λ a b : string * Q, Qle_bool b.2 a.2) combined.

(** [sorted_ids], each with [combined_scores[doc_id]]. *)
Definition sorted_ids (top_k : nat) (combined : list (string * Q)) : list (string * Q) :=
  take top_k (sorted_all combined).

(** Step 4: the documents and metadata of the selected identifiers. *)
Definition build_results (full : list (string * Chroma.entry))
    (sorted : list (string * Q)) : list hit :=
  let doc_map : gmap string (metadata * string) :=
    Py.dict ((λ kv : string * Chroma.entry,
                (kv.1, (Chroma.e_meta kv.2, Chroma.e_doc kv.2))) <$> full) in
  (λ ds : string * Q,
     let md := default (∅, "") (doc_map !! ds.1) in
     {| h_id := ds.1; h_score := ds.2; h_metadata := md.1; h_text := md.2 |})
    <$> sorted.

(** [retrieve], after [_ensure_index]. *)
Definition retrieve_indexed (X : Externals) (c : Chroma.collection) (self : t)
    (query conversation_id : string) (top_k : nat) (bm25_weight dense_weight : Q)
    : result (list hit) :=
  match bm25_index self with
  | None => mret []
  | Some corpus =>
      if Py.is_empty (doc_ids self) then mret []
      else
        bm25_results ← lexical X self corpus query conversation_id top_k;
        dense_result_dict ← dense X c query conversation_id top_k;
        let combined :=
          combined_scores X bm25_weight dense_weight bm25_results dense_result_dict in
        if Py.is_empty combined then mret []
        else
          let sorted := sorted_ids top_k combined in
          full ← Chroma.get c sorted.*1;
          mret (build_results full sorted)
  end.

(** [retrieve]: the result or the exception, and the object afterwards. *)
Definition retrieve (X : Externals) (c : Chroma.collection) (self : t)
    (query conversation_id : string) (top_k : nat) (bm25_weight dense_weight : Q)
    : result (list hit) * t :=
  match _ensure_index c self with
  | Raise e => (Raise e, self)
  | Ok self' =>
      (retrieve_indexed X c self' query conversation_id top_k bm25_weight dense_weight,
       self')
  end.

End HybridRetriever.

(** ** [CouncilRAG] *)

Module CouncilRAG.

Definition RAG_MAX_TOKENS : Z := 3000.

(** The object. [enabled] is false when the Chroma client could not be
    created; the retriever is then [None]. The collection itself is the
    shared [Chroma.collection] passed to each method. *)
Record t : Type := {
  enabled : bool;
  hybrid_retriever : option HybridRetriever.t;
}.

(** [__init__] when the collection could be opened, and when it could not. *)
Definition init : t :=
  {| enabled := true; hybrid_retriever := Some HybridRetriever.init |}.
Definition init_failed : t :=
  {| enabled := false; hybrid_retriever := None |}.

(** [refresh_hybrid_index] *)
Definition refresh_hybrid_index (c : Chroma.collection) (self : t) : result t :=
  match hybrid_retriever self with
  | Some hr =>
      if enabled self then
        hr' ← HybridRetriever.refresh_index c hr;
        mret {| enabled := enabled self; hybrid_retriever := Some hr' |}
      else mret self
  | None => mret self
  end.

(** *** The write path *)

(** One entry of [stage1_results], read with ['model'] and ['response']. *)
Record opinion : Type := {
  o_model : string;
  o_response : string;
}.

(** [stage3_result], read with [.get('model', 'unknown')] and
    [.get('response', '')]. *)
Record synthesis : Type := {
  s_model : option string;
  s_response : option string;
}.

(** [format_text] of [index_session] *)
Definition format_text (user_question text : string) : string :=
  "Q: " +:+ user_question +:+ Py.nl +:+ Py.nl +:+ "A: " +:+ text.

(** The metadata mapping of one document. *)
Definition make_metadata (conversation_id : string) (turn_index : Z)
    (stage model topics_str : string) (quality : gmap string Q)
    (timestamp : string) : metadata :=
  Py.dict [
    ("conversation_id", VStr conversation_id);
    ("turn_index", VInt turn_index);
    ("stage", VStr stage);
    ("model", VStr model);
    ("topics", VStr topics_str);
    ("avg_rank", VFloat (default 999%Q (quality !! "avg_rank")));
    ("consensus_score", VFloat (default 0%Q (quality !! "consensus_score")));
    ("timestamp", VStr timestamp)
  ].

(** Stage 1: one document per opinion. *)
Definition opinion_docs (conversation_id : string) (turn_index : Z)
    (user_question : string) (stage1_results : list opinion) (topics_str : string)
    (quality_metrics : gmap string (gmap string Q)) (timestamp : string)
    : list (string * Chroma.entry) :=
  (λ ir : nat * opinion,
     let idx := ir.1 in
     let model := o_model ir.2 in
     let text := o_response ir.2 in
     let quality := default ∅ (quality_metrics !! model) in
     let doc_id :=
       conversation_id +:+ ":turn:" +:+ pretty turn_index +:+ ":opinion:"
         +:+ pretty idx +:+ ":" +:+ model in
     (doc_id,
      {| Chroma.e_doc := format_text user_question text;
         Chroma.e_meta :=
           make_metadata conversation_id turn_index "opinion" model topics_str
             quality timestamp |}))
    <$> Py.enumerate_from 0 stage1_results.

(** Stage 3: the document of the synthesis, when its text is not empty. *)
Definition synthesis_docs (conversation_id : string) (turn_index : Z)
    (user_question : string) (stage3_result : synthesis) (topics_str : string)
    (quality_metrics : gmap string (gmap string Q)) (timestamp : string)
    : list (string * Chroma.entry) :=
  let stage3_model := default "unknown" (s_model stage3_result) in
  let final_text := default "" (s_response stage3_result) in
  let stage3_quality := default ∅ (quality_metrics !! stage3_model) in
  match final_text with
  | "" => []
  | _ =>
      let doc_id :=
        conversation_id +:+ ":turn:" +:+ pretty turn_index +:+ ":synthesis:"
          +:+ stage3_model in
      [(doc_id,
        {| Chroma.e_doc := format_text user_question final_text;
           Chroma.e_meta :=
             make_metadata conversation_id turn_index "synthesis" stage3_model
               topics_str stage3_quality timestamp |})]
  end.

(** The batch [index_session] builds: [ids], [documents] and [metadatas]
    zipped. [timestamp] is [datetime.utcnow().isoformat()] at the call. *)
Definition session_docs (X : Externals) (timestamp : string)
    (conversation_id : string) (turn_index : Z) (user_question : string)
    (stage1_results : list opinion) (stage3_result : synthesis)
    (topics : list string) (quality_metrics : gmap string (gmap string Q))
    : list (string * Chroma.entry) :=
  let topics_str := json_dumps X topics in
  opinion_docs conversation_id turn_index user_question stage1_results topics_str
    quality_metrics timestamp
  ++ synthesis_docs conversation_id turn_index user_question stage3_result topics_str
       quality_metrics timestamp.

(** [index_session]: the collection afterwards. [stage2_results] is not
    read by the method and is left out. *)
Definition index_session (X : Externals) (timestamp : string)
    (c : Chroma.collection) (self : t)
    (conversation_id : string) (turn_index : Z) (user_question : string)
    (stage1_results : list opinion) (stage3_result : synthesis)
    (topics : list string) (quality_metrics : gmap string (gmap string Q))
    : result Chroma.collection :=
  if negb (enabled self) then mret c
  else
    let batch :=
      session_docs X timestamp conversation_id turn_index user_question
        stage1_results stage3_result topics quality_metrics in
    if Py.is_empty batch then mret c
    else Chroma.upsert c batch.

(** *** The read path *)

(** One entry of [filtered_chunks]. *)
Record chunk : Type := {
  c_id : string;
  c_similarity : Q;
  c_metadata : metadata;
  c_text : string;
}.

Definition threshold : Q := 1 # 100.

(** The dict appended to [filtered_chunks] for a result. *)
Definition to_chunk (res : HybridRetriever.hit) : chunk :=
  {| c_id := HybridRetriever.h_id res;
     c_similarity := HybridRetriever.h_score res;
     c_metadata := HybridRetriever.h_metadata res;
     c_text := HybridRetriever.h_text res |}.

(** The first loop of [retrieve]: a result whose score is below the
    threshold is skipped. *)
Definition filtered_chunks (results : list HybridRetriever.hit) : list chunk :=
  to_chunk
    <$> filter (λ res, Py.Qltb (HybridRetriever.h_score res) threshold = false) results.

(** [int(len(text.split()) * 1.3)]: thirteen tenths of the word count,
    rounded down. *)
Definition est_tokens (text : string) : Z :=
  (Z.of_nat (length (Py.split text)) * 13) `div` 10.

(** [_format_chunk]: the three fields are read with [meta[...]]. *)
Definition _format_chunk (X : Externals) (ch : chunk) : result string :=
  let meta := c_metadata ch in
  turn_index ← of_option (KeyError "turn_index") (meta !! "turn_index");
  stage ← of_option (KeyError "stage") (meta !! "stage");
  model ← of_option (KeyError "model") (meta !! "model");
  mret ("[Turn " +:+ py_str X turn_index +:+ " | Stage " +:+ py_str X stage
          +:+ " | Model: " +:+ py_str X model +:+ "]" +:+ Py.nl +:+ c_text ch).

(** The second loop of [retrieve]: [formatted_parts], starting from
    [used_tokens]. *)
Fixpoint pack (X : Externals) (used_tokens : Z) (chunks : list chunk)
    : result (list string) :=
  match chunks with
  | [] => Ok []
  | ch :: chunks' =>
      let est := est_tokens (c_text ch) in
      if (RAG_MAX_TOKENS <? used_tokens + est)%Z then Ok []
      else
        match _format_chunk X ch with
        | Raise e => Raise e
        | Ok part =>
            match pack X (used_tokens + est)%Z chunks' with
            | Raise e => Raise e
            | Ok parts => Ok (part :: parts)
            end
        end
  end.

(** The [try] block of [retrieve], from the results of the hybrid
    retriever on. *)
Definition build_context (X : Externals) (results : list HybridRetriever.hit)
    : result string :=
  formatted_parts ← pack X 0 (filtered_chunks results);
  mret (Py.join (Py.nl +:+ Py.nl) formatted_parts).

(** The [try] block of [retrieve]: the context or the exception, and the
    retriever afterwards. *)
Definition retrieve_try (X : Externals) (c : Chroma.collection)
    (hybrid : option HybridRetriever.t) (query conversation_id : string)
    : result string * option HybridRetriever.t :=
  match hybrid with
  | None => (Raise AttributeError, None)
  | Some hr =>
      let rs :=
        HybridRetriever.retrieve X c hr query conversation_id 10 (1 # 2) (1 # 2) in
      (rs.1 ≫= build_context X, Some rs.2)
  end.

(** [retrieve]: the context string, and the object afterwards. *)
Definition retrieve (X : Externals) (c : Chroma.collection) (self : t)
    (query conversation_id : string) : string * t :=
  if negb (enabled self) then ("", self)
  else
    let tr := retrieve_try X c (hybrid_retriever self) query conversation_id in
    let self' := {| enabled := enabled self; hybrid_retriever := tr.2 |} in
    match tr.1 with
    | Ok context => (context, self')
    | Raise _ => ("", self')
    end.

End CouncilRAG.

(** ** Notions used in the statements *)

#[global] Instance Qeq_decision (x y : Q) : Decision (x == y)%Q := Qeq_dec x y.

(** The same libraries with sets that iterate as [iter] says. *)
Definition with_set_iter (X : Externals) (iter : list string → list string) : Externals :=
  {| bm25_get_scores := bm25_get_scores X;
     np_argsort := np_argsort X;
     cosine_distance := cosine_distance X;
     set_iter := iter;
     json_dumps := json_dumps X;
     float_str := float_str X |}.

(** What an entry [(r, s)] of [bm25_results] for [doc_id] records: the
    position, index and score it was written from. *)
Definition lexical_entry (self : HybridRetriever.t) (scores : list Q)
    (conversation_id : string) (todo : list (nat * nat))
    (doc_id : string) (r : nat) (s : Q) : Prop :=
  ∃ rank idx,
    (rank, idx) ∈ todo ∧ r = rank + 1 ∧
    HybridRetriever.doc_ids self !! idx = Some doc_id ∧
    scores !! idx = Some s ∧
    (0 < s)%Q ∧
    in_conversation (default ∅ (HybridRetriever.id_to_metadata self !! doc_id))
      conversation_id = true.

(** The snapshot records, for every identifier the collection holds, the
    conversation the collection records for it. *)
Definition snapshot_agrees (self : HybridRetriever.t) (c : Chroma.collection) : Prop :=
  ∀ doc_id m e,
    HybridRetriever.id_to_metadata self !! doc_id = Some m →
    Chroma.docs c !! doc_id = Some e →
    m !! "conversation_id" = Chroma.e_meta e !! "conversation_id".

(** The index is still to be built from the collection, or its snapshot
    agrees with the collection. *)
Definition snapshot_current (self : HybridRetriever.t) (c : Chroma.collection) : Prop :=
  HybridRetriever.bm25_index self = None ∨ snapshot_agrees self c.

(** The rank a source gives an identifier, if it lists it. *)
Definition rank_in (d : gmap string (nat * Q)) (doc_id : string) : option nat :=
  fst <$> d !! doc_id.

(** The formula of the specification: [w / (K + rank)], or 0 for an
    identifier the source does not list, with [K = 60]. *)
Definition rrf_term (weight : Q) (rank : option nat) : Q :=
  match rank with
  | Some r => weight / (60 + inject_Z (Z.of_nat r))
  | None => 0
  end.

Definition fused (wLex wDense : Q) (rankLex rankDense : option nat) : Q :=
  rrf_term wLex rankLex + rrf_term wDense rankDense.

(** The sum of the estimated tokens of some chunks. *)
Definition tokens_of (chunks : list CouncilRAG.chunk) : Z :=
  foldr (λ ch n, CouncilRAG.est_tokens (CouncilRAG.c_text ch) + n)%Z 0%Z chunks.

(** [parts] are the blocks [_format_chunk] makes of [chunks], in order. *)
Definition formats (X : Externals) (chunks : list CouncilRAG.chunk)
    (parts : list string) : Prop :=
  Forall2 (λ ch part, CouncilRAG._format_chunk X ch = Ok part) chunks parts.

(** The blank line between two blocks. *)
Definition separator : string := Py.nl +:+ Py.nl.

(** A chunk lacks one of the fields [_format_chunk] reads. *)
Definition lacks_field (ch : CouncilRAG.chunk) : Prop :=
  CouncilRAG.c_metadata ch !! "turn_index" = None ∨
  CouncilRAG.c_metadata ch !! "stage" = None ∨
  CouncilRAG.c_metadata ch !! "model" = None.

(** The same record with another timestamp. *)
Definition retime (timestamp : string) (e : Chroma.entry) : Chroma.entry :=
  {| Chroma.e_doc := Chroma.e_doc e;
     Chroma.e_meta := <["timestamp" := VStr timestamp]> (Chroma.e_meta e) |}.

(** The string has no colon. *)
Fixpoint colon_free (s : string) : Prop :=
  match s with
  | EmptyString => True
  | String a s' => a ≠ Ascii.ascii_of_N 58 ∧ colon_free s'
  end.

(** ** Concrete collaborators and data, for the examples *)

Module Demo.

(** A term-frequency score standing in for BM25: the number of tokens of
    the document that are query tokens. *)
Definition term_frequency (doc query_tokens : list string) : nat :=
  length (filter (λ w, w ∈ query_tokens) doc).

Definition get_scores (corpus : list (list string)) (query_tokens : list string) : list Q :=
  (λ doc, inject_Z (Z.of_nat (term_frequency doc query_tokens))) <$> corpus.

(** Indices by ascending score, equal scores in index order. *)
Definition argsort (scores : list Q) : list nat :=
  (Py.sort_by (λ a b : nat * Q, Qle_bool a.2 b.2) (Py.enumerate_from 0 scores)).*1.

(** A distance standing in for the embedding: how far the word count of
    the document is from that of the query. *)
Definition distance (query doc : string) : Q :=
  Z.abs (Z.of_nat (length (Py.split doc)) - Z.of_nat (length (Py.split query))) # 100.

Definition quote : string := String (Ascii.ascii_of_N 34) EmptyString.

Definition dumps (l : list string) : string :=
  "[" +:+ Py.join ", " ((λ s, quote +:+ s +:+ quote) <$> l) +:+ "]".

Definition float_repr (q : Q) : string :=
  pretty (Qnum q) +:+ "/" +:+ pretty (Zpos (Qden q)).

(** A process whose sets iterate in the order of first insertion. *)
Definition X : Externals :=
  {| bm25_get_scores := get_scores;
     np_argsort := argsort;
     cosine_distance := distance;
     set_iter := remove_dups;
     json_dumps := dumps;
     float_str := float_repr |}.

(** A process whose sets iterate the other way round. *)
Definition X' : Externals := with_set_iter X (λ l, reverse (remove_dups l)).

Definition up (m : gmap string Chroma.entry) : Chroma.collection :=
  {| Chroma.docs := m; Chroma.fails := λ _, false |}.

Definition down (m : gmap string Chroma.entry) : Chroma.collection :=
  {| Chroma.docs := m; Chroma.fails := λ _, true |}.

Definition empty : Chroma.collection := up ∅.

Definition opinion (model response : string) : CouncilRAG.opinion :=
  {| CouncilRAG.o_model := model; CouncilRAG.o_response := response |}.

Definition synthesis (model response : string) : CouncilRAG.synthesis :=
  {| CouncilRAG.s_model := Some model; CouncilRAG.s_response := Some response |}.

Definition no_synthesis : CouncilRAG.synthesis :=
  {| CouncilRAG.s_model := None; CouncilRAG.s_response := None |}.

(** [index_session] on an enabled engine, without topics or metrics. *)
Definition index (c : Chroma.collection) (timestamp conversation_id : string)
    (turn_index : Z) (question : string) (stage1 : list CouncilRAG.opinion)
    (stage3 : CouncilRAG.synthesis) : Chroma.collection :=
  match CouncilRAG.index_session X timestamp c CouncilRAG.init conversation_id
          turn_index question stage1 stage3 [] ∅ with
  | Ok c' => c'
  | Raise _ => c
  end.

(** Two turns of other conversations. *)
Definition others : Chroma.collection :=
  let c := index empty "t1" "c2" 0 "harbour"
             [opinion "m1" "Lisbon Portugal"] (synthesis "chair" "Lisbon") in
  index c "t2" "c3" 0 "tea" [opinion "m1" "green leaves"] no_synthesis.

(** A turn of conversation c1 on top: for the query "Paris" BM25 prefers
    the first opinion to the synthesis and has no score for the second
    opinion; the synthesis is the nearest, the second opinion the farthest. *)
Definition index_cities (c : Chroma.collection) (timestamp : string) : Chroma.collection :=
  index c timestamp "c1" 0 "capital"
    [opinion "m1" "Paris Paris France"; opinion "m2" "Lyon is large too"]
    (synthesis "chair" "Paris").

Definition cities : Chroma.collection := index_cities others "t0".

(** The same turn indexed a second time, later. *)
Definition cities_again : Chroma.collection := index_cities cities "t9".

Definition op1 : string := "c1:turn:0:opinion:0:m1".
Definition op2 : string := "c1:turn:0:opinion:1:m2".
Definition syn : string := "c1:turn:0:synthesis:chair".

(** The index built from [cities], and the two source lists for "Paris". *)
Definition hr_cities : HybridRetriever.t :=
  (HybridRetriever.retrieve X cities HybridRetriever.init "Paris" "c1" 10 (1 # 2) (1 # 2)).2.

Definition rag_cities : CouncilRAG.t :=
  {| CouncilRAG.enabled := true; CouncilRAG.hybrid_retriever := Some hr_cities |}.

Definition corpus_cities : list (list string) :=
  default [] (HybridRetriever.bm25_index hr_cities).

Definition from_ok {A} (d : A) (r : result A) : A :=
  match r with Ok a => a | Raise _ => d end.

Definition bm_cities : gmap string (nat * Q) :=
  from_ok ∅ (HybridRetriever.lexical X hr_cities corpus_cities "Paris" "c1" 10).

Definition dn_cities : gmap string (nat * Q) :=
  from_ok ∅ (HybridRetriever.dense X cities "Paris" "c1" 10).

Definition results_cities : list HybridRetriever.hit :=
  from_ok [] (HybridRetriever.retrieve X cities hr_cities "Paris" "c1" 10 (1 # 2) (1 # 2)).1.

Definition parts_cities : list string :=
  from_ok [] (CouncilRAG.pack X 0 (CouncilRAG.filtered_chunks results_cities)).

(** What a result shows of a record. *)
Definition view (h : HybridRetriever.hit) : string * option value * string :=
  (HybridRetriever.h_id h,
   HybridRetriever.h_metadata h !! "conversation_id",
   HybridRetriever.h_text h).

(** A stale index. A synthesis is indexed for conversation b, whose model
    name contains the separator of the identifiers, and the index is built.
    Then a synthesis of another conversation is indexed under what is the
    same identifier, and the index is not refreshed. *)
Definition shared_id : string := "b:turn:1:synthesis:x:turn:2:synthesis:m".

Definition before_reuse : Chroma.collection :=
  index others "t3" "b" 1 "plan" [] (synthesis "x:turn:2:synthesis:m" "alpha").

Definition hr_stale : HybridRetriever.t :=
  (HybridRetriever.retrieve X before_reuse HybridRetriever.init "alpha" "b" 10
     (1 # 2) (1 # 2)).2.

Definition after_reuse : Chroma.collection :=
  index before_reuse "t4" "b:turn:1:synthesis:x" 2 "plan" []
    (synthesis "m" "alpha secret").

(** A record of conversation c1 without the field [model], next to the
    records of [cities]. *)
Definition broken_id : string := "c1:turn:1:opinion:0:m3".

Definition broken : Chroma.entry :=
  {| Chroma.e_doc := CouncilRAG.format_text "capital" "Paris Paris Paris is the capital";
     Chroma.e_meta :=
       Py.dict [("conversation_id", VStr "c1"); ("turn_index", VInt 1);
                ("stage", VStr "opinion")] |}.

Definition with_broken : Chroma.collection :=
  up (<[broken_id := broken]> (Chroma.docs cities)).

Definition results_broken : list HybridRetriever.hit :=
  from_ok []
    (HybridRetriever.retrieve X with_broken HybridRetriever.init "Paris" "c1" 10
       (1 # 2) (1 # 2)).1.

Definition no_chunk : CouncilRAG.chunk :=
  {| CouncilRAG.c_id := ""; CouncilRAG.c_similarity := 0;
     CouncilRAG.c_metadata := ∅; CouncilRAG.c_text := "" |}.

(** The third chunk that passes the threshold: the broken record. *)
Definition chunk_broken : CouncilRAG.chunk :=
  default no_chunk (CouncilRAG.filtered_chunks results_broken !! 2%nat).

(** Two long answers: either fits the budget, both do not. *)
Fixpoint words (n : nat) : string :=
  match n with
  | O => ""
  | S n' => "w " +:+ words n'
  end.

Definition long : Chroma.collection :=
  index others "t5" "c1" 0 "w" [opinion "m1" (words 1600)] (synthesis "chair" (words 800)).

Definition hr_long : HybridRetriever.t :=
  (HybridRetriever.retrieve X long HybridRetriever.init "w" "c1" 10 (1 # 2) (1 # 2)).2.

Definition rag_long : CouncilRAG.t :=
  {| CouncilRAG.enabled := true; CouncilRAG.hybrid_retriever := Some hr_long |}.

Definition results_long : list HybridRetriever.hit :=
  from_ok [] (HybridRetriever.retrieve X long hr_long "w" "c1" 10 (1 # 2) (1 # 2)).1.

Definition parts_long : list string :=
  from_ok [] (CouncilRAG.pack X 0 (CouncilRAG.filtered_chunks results_long)).

End Demo.

(** * The backend around the engine *)

(** ** More Python built-ins: strings *)

Module Str.

(** What is left of [s] after the prefix [p], when [s.startswith(p)]. *)
Fixpoint strip_prefix (p s : string) : option string :=
  match p with
  | EmptyString => Some s
  | String a p' =>
      match s with
      | EmptyString => None
      | String b s' => if Ascii.eqb a b then strip_prefix p' s' else None
      end
  end.

(** [s.startswith(p)] *)
Definition startswith (s p : string) : bool :=
  match strip_prefix p s with Some _ => true | None => false end.

(** [s.endswith(suffix)] *)
Definition endswith (s suffix : string) : bool :=
  startswith (String.rev s) (String.rev suffix).

(** [s[:n]] *)
Fixpoint take (n : nat) (s : string) : string :=
  match n, s with
  | S n', String a s' => String a (take n' s')
  | _, _ => EmptyString
  end.

(** [s.find(needle)]: the position of the first occurrence, [None] for -1. *)
Fixpoint find (needle s : string) : option nat :=
  if startswith s needle then Some 0%nat
  else match s with
       | EmptyString => None
       | String _ s' => S <$> find needle s'
       end.

(** [needle in s] *)
Definition contains (needle s : string) : bool :=
  match find needle s with Some _ => true | None => false end.

Fixpoint lstrip (s : string) : string :=
  match s with
  | EmptyString => EmptyString
  | String a s' => if Py.isspace a then lstrip s' else s
  end.

Definition rstrip (s : string) : string := String.rev (lstrip (String.rev s)).

(** [s.strip()] *)
Definition strip (s : string) : string := rstrip (lstrip s).

End Str.

(** ** Parsed JSON and the operations Python has on it *)

Module Dyn.

(** A value [json.load] returns. Numbers are exact; a dict is the list of
    its items in order, with distinct keys. *)
#[warnings="-register-all"]
Inductive json : Type :=
| JNull
| JBool (b : bool)
| JNum (q : Q)
| JStr (s : string)
| JList (l : list json)
| JDict (d : list (string * json)).

(** [bool(v)] *)
Definition truthy (v : json) : bool :=
  match v with
  | JNull => false
  | JBool b => b
  | JNum q => negb (Qeq_bool q 0)
  | JStr s => negb (bool_decide (s = ""))
  | JList l => negb (Py.is_empty l)
  | JDict d => negb (Py.is_empty d)
  end.

(** [d[key]] on the items of a dict *)
Fixpoint item (d : list (string * json)) (key : string) : option json :=
  match d with
  | [] => None
  | (k, v) :: d' => if bool_decide (k = key) then Some v else item d' key
  end.

(** [v.get(key, dflt)]: only a dict has the method ([None]: AttributeError). *)
Definition get (v : json) (key : string) (dflt : json) : option json :=
  match v with
  | JDict d => Some (default dflt (item d key))
  | _ => None
  end.

(** The values [for x in v] goes through: the elements of a list, the keys
    of a dict, the characters of a string ([None]: TypeError). *)
Definition iter (v : json) : option (list json) :=
  match v with
  | JList l => Some l
  | JDict d => Some (JStr <$> d.*1)
  | JStr s => Some ((λ a, JStr (String a EmptyString)) <$> String.list_ascii_of_string s)
  | _ => None
  end.

Definition is_str (v : json) (s : string) : bool :=
  match v with
  | JStr t => bool_decide (t = s)
  | _ => false
  end.

(** [key in v] for a string [key]: a key of a dict, an element of a list, a
    substring of a string ([None]: TypeError). *)
Definition contains (key : string) (v : json) : option bool :=
  match v with
  | JDict d => Some (bool_decide (key ∈ d.*1))
  | JList l => Some (existsb (λ x, is_str x key) l)
  | JStr s => Some (Str.contains key s)
  | _ => None
  end.

(** [v[key]] for a string [key] ([None]: KeyError on a dict, TypeError on
    anything else). *)
Definition getitem (v : json) (key : string) : option json :=
  match v with
  | JDict d => item d key
  | _ => None
  end.

(** [hash(v)] is defined: a list or a dict is not a dict key. *)
Definition hashable (v : json) : bool :=
  match v with
  | JList _ | JDict _ => false
  | _ => true
  end.

(** Equality of dict keys: strings by content, numbers and booleans by
    value ([True == 1]). *)
Definition number (v : json) : option Q :=
  match v with
  | JNum q => Some q
  | JBool b => Some (if b then 1 else 0)%Q
  | _ => None
  end.

Definition same_key (a b : json) : bool :=
  match a, b with
  | JStr s, JStr t => bool_decide (s = t)
  | JNull, JNull => true
  | _, _ =>
      match number a, number b with
      | Some p, Some q => Qeq_bool p q
      | _, _ => false
      end
  end.

End Dyn.

(** ** [backend/config.py] *)

Module Config.

Definition COUNCIL_MODELS : list string := [
  "openai/gpt-5.1";
  "google/gemini-3-pro-preview";
  "anthropic/claude-sonnet-4.5";
  "x-ai/grok-4-fast";
  "moonshotai/kimi-k2-thinking";
  "deepseek/deepseek-v3.2-exp"
].

(** [REASONING_MODELS]: for each model the capabilities it is given. *)
Definition REASONING_MODELS : gmap string (gmap string bool) :=
  Py.dict [
    ("moonshotai/kimi-k2-thinking", Py.dict [("parse_tags", true)]);
    ("deepseek/deepseek-v3.2-exp", Py.dict [("parse_tags", true)]);
    ("deepseek/deepseek-chat-v3.1", Py.dict [("parse_tags", true)]);
    ("deepseek/deepseek-chat-v3-0324:free", Py.dict [("parse_tags", true)]);
    ("anthropic/claude-sonnet-4.5", Py.dict [("parse_tags", true)]);
    ("anthropic/claude-sonnet-4.0", Py.dict [("parse_tags", true)]);
    ("google/gemini-3-pro-preview", Py.dict [("use_field", true)]);
    ("google/gemini-2.5-pro", Py.dict [("use_field", true)])
  ].

Record pricing : Type := {
  p_input : Q;
  p_output : Q;
}.

(** One entry of [AVAILABLE_MODELS]. *)
Record model : Type := {
  m_id : string;
  m_name : string;
  m_pricing : pricing;
  m_capabilities : list string;
  m_type : string;
}.

Definition entry (id name : string) (input output : Q) (capabilities : list string)
    (type : string) : model :=
  {| m_id := id; m_name := name;
     m_pricing := {| p_input := input; p_output := output |};
     m_capabilities := capabilities; m_type := type |}.

Definition AVAILABLE_MODELS : list model := [
  entry "openai/gpt-5.1" "GPT-5.1" 3 15 ["reasoning"; "generalist"] "both";
  entry "openai/gpt-5-mini" "GPT-5 Mini" (4 # 10) (16 # 10) ["generalist"] "both";
  entry "openai/gpt-4.1-mini" "GPT-4.1 Mini" (2 # 10) (8 # 10) ["generalist"] "council";
  entry "openai/gpt-4o-mini" "GPT-4o Mini" (15 # 100) (6 # 10) ["vision"; "fast"] "council";
  entry "google/gemini-3-pro-preview" "Gemini 3 Pro Preview" 2 12
    ["thinking"; "vision"; "reasoning"] "both";
  entry "google/gemini-2.5-pro" "Gemini 2.5 Pro" (125 # 100) 5 ["reasoning"; "vision"] "both";
  entry "google/gemini-2.5-flash" "Gemini 2.5 Flash" (3 # 10) (25 # 10) ["vision"; "fast"] "both";
  entry "google/gemini-2.5-flash-lite" "Gemini 2.5 Flash Lite" (1 # 10) (4 # 10) ["fast"]
    "council";
  entry "google/gemini-2.0-flash-001" "Gemini 2.0 Flash" (1 # 10) (4 # 10) ["fast"; "vision"]
    "council";
  entry "google/gemini-2.0-flash-lite" "Gemini 2.0 Flash Lite" (75 # 1000) (3 # 10) ["fast"]
    "council";
  entry "x-ai/grok-code-fast-1" "Grok Code Fast 1" (2 # 10) (15 # 10) ["coding"; "fast"]
    "council";
  entry "x-ai/grok-4.1-fast:free" "Grok 4.1 Fast (Free)" 0 0 ["research"] "council";
  entry "x-ai/grok-4-fast" "Grok 4 Fast" (2 # 10) (5 # 10) ["reasoning"; "fast"] "both";
  entry "x-ai/grok-4" "Grok 4" 3 15 ["reasoning"] "both";
  entry "anthropic/claude-sonnet-4.5" "Claude Sonnet 4.5" 3 15
    ["vision"; "reasoning"; "thinking"] "both";
  entry "anthropic/claude-sonnet-4.0" "Claude Sonnet 4" 3 15 ["reasoning"; "vision"] "both";
  entry "deepseek/deepseek-chat-v3.1" "DeepSeek V3.1" (2 # 10) (8 # 10)
    ["reasoning"; "coding"] "both";
  entry "deepseek/deepseek-v3.2-exp" "DeepSeek V3.2 Exp" (216 # 1000) (328 # 1000)
    ["reasoning"; "coding"; "thinking"] "both";
  entry "moonshotai/kimi-k2" "Kimi K2 (Instruct)" (456 # 1000) (184 # 100) ["long-context"]
    "council";
  entry "moonshotai/kimi-k2-thinking" "Kimi K2 Thinking" (45 # 100) (235 # 100)
    ["thinking"; "long-context"] "chairman";
  entry "minimax/minimax-m2" "MiniMax M2" (8 # 100) (6 # 10) ["roleplay"] "council";
  entry "zhipu/glm-4.6" "GLM 4.6" (2 # 10) (8 # 10) ["generalist"] "council";
  entry "qwen/qwen3-coder-30b-a3b-instruct" "Qwen3 Coder 30B" (24 # 100) (72 # 100) ["coding"]
    "council"
].

Definition CHAIRMAN_MODEL : string := "google/gemini-2.5-flash".

Definition DATA_DIR : string := "data/conversations".

End Config.

(** ** [backend/openrouter.py]: [extract_reasoning] *)

Module OpenRouter.

(** *** The pattern [<(think|thinking)>([\s\S]*?)</\1>] *)

Definition open_tag (tag : string) : string := "<" +:+ tag +:+ ">".
Definition close_tag (tag : string) : string := "</" +:+ tag +:+ ">".

(** A match at the start of [s] with group 1 being [tag]: the body is what
    precedes the first closing tag. Returns group 2 and the length of the
    match. *)
Definition match_tag (tag s : string) : option (string * nat) :=
  body_on ← Str.strip_prefix (open_tag tag) s;
  n ← Str.find (close_tag tag) body_on;
  Some (Str.take n body_on,
        (String.length (open_tag tag) + n + String.length (close_tag tag))%nat).

(** A match at the start of [s]: the alternatives of group 1 in order.
    Returns the two groups and the length of the match. *)
Definition match_here (s : string) : option (string * string * nat) :=
  match match_tag "think" s with
  | Some (body, n) => Some ("think", body, n)
  | None =>
      match match_tag "thinking" s with
      | Some (body, n) => Some ("thinking", body, n)
      | None => None
      end
  end.

(** [re.findall(pattern, s)]: the groups of the matches found from left to
    right, a search resuming where the last match ended. [skip] counts the
    characters of the current match still to pass. *)
Fixpoint findall_go (skip : nat) (s : string) : list (string * string) :=
  match s with
  | EmptyString => []
  | String a s' =>
      match skip with
      | S k => findall_go k s'
      | O =>
          match match_here s with
          | Some (tag, body, n) => (tag, body) :: findall_go (n - 1) s'
          | None => findall_go 0 s'
          end
      end
  end.

Definition findall (s : string) : list (string * string) := findall_go 0 s.

(** [re.sub(pattern, "", s)] *)
Fixpoint sub_go (skip : nat) (s : string) : string :=
  match s with
  | EmptyString => EmptyString
  | String a s' =>
      match skip with
      | S k => sub_go k s'
      | O =>
          match match_here s with
          | Some (_, _, n) => sub_go (n - 1) s'
          | None => String a (sub_go 0 s')
          end
      end
  end.

Definition sub (s : string) : string := sub_go 0 s.

(** *** [extract_reasoning] *)

(** The fields of the API message the function reads. [reasoning] is text
    when present. *)
Record message : Type := {
  reasoning : option string;
  reasoning_details : option Dyn.json;
}.

(** [capabilities.get(name)] as a condition *)
Definition capability (capabilities : gmap string bool) (name : string) : bool :=
  default false (capabilities !! name).

(** Step 2. [dict_str] is [str] of a dict. *)
Definition field_reasoning (dict_str : list (string * Dyn.json) → string)
    (msg : message) : string :=
  match reasoning msg with
  | Some (String a r) => String a r
  | _ =>
      match reasoning_details msg with
      | Some rd =>
          if Dyn.truthy rd then
            match rd with
            | Dyn.JStr s => s
            | Dyn.JDict d => dict_str d
            | _ => ""
            end
          else ""
      | None => ""
      end
  end.

(** Step 4 *)
Definition truncate (reasoning : string) : string :=
  if (2000 <? String.length reasoning)%nat
  then Str.take 2000 reasoning +:+ Py.nl +:+ "...(reasoning truncated)"
  else reasoning.

Definition extract_reasoning (dict_str : list (string * Dyn.json) → string)
    (content : string) (msg : message) (model : string) : string * string :=
  match Config.REASONING_MODELS !! model with
  | None => (content, "")
  | Some capabilities =>
      let reasoning :=
        if capability capabilities "use_field" then field_reasoning dict_str msg else "" in
      let cr :=
        if bool_decide (reasoning = "") && capability capabilities "parse_tags" then
          let matches := findall content in
          if Py.is_empty matches then (content, reasoning)
          else
            let reasoning_blocks := (λ m : string * string, Str.strip m.2) <$> matches in
            (Str.strip (sub content), Py.join (Py.nl +:+ Py.nl) reasoning_blocks)
        else (content, reasoning) in
      (cr.1, truncate cr.2)
  end.

End OpenRouter.

(** ** [backend/file_processing.py] *)

Module FileProcessing.

Definition MAX_FILE_SIZE : Z := 25 * 1024 * 1024.
Definition MAX_TEXT_LENGTH : Z := 50000.

(** A step inside the [try] block: its value, or the text [str(e)] of the
    exception it raised. *)
Inductive attempt (A : Type) : Type :=
| Done (a : A)
| Failed (message : string).
Arguments Done {A} a.
Arguments Failed {A} message.

#[global] Instance attempt_ret : MRet attempt := λ A a, Done a.
#[global] Instance attempt_bind : MBind attempt := λ A B f m,
  match m with Done a => f a | Failed e => Failed e end.

(** The libraries and services behind the module. *)
Record Libs : Type := {
  (** [[page.extract_text() for page in pypdf.PdfReader(io.BytesIO(content)).pages]] *)
  pdf_pages : list Byte.byte → attempt (list string);
  (** [[para.text for para in docx.Document(io.BytesIO(content)).paragraphs]] *)
  docx_paragraphs : list Byte.byte → attempt (list string);
  (** [content.decode("utf-8", errors="replace")] *)
  decode_utf8 : list Byte.byte → string;
  (** [base64.b64encode(content).decode("utf-8")] *)
  b64encode : list Byte.byte → string;
  (** [query_model("google/gemini-2.5-flash", messages, timeout=30.0)] for
      the message that carries the given data URL: no response, or the
      ["content"] of the response if it has one *)
  query_vision : string → option (option string);
  (** [f"{file_size / 1024 / 1024:.1f}"] *)
  format_megabytes : Z → string;
}.

(** [UploadFile]: the name and type the client sent, and what [read()]
    returns. *)
Record UploadFile : Type := {
  filename : option string;
  content_type : option string;
  content : list Byte.byte;
}.

(** The dict [extract_text_from_file] returns. *)
Record extraction : Type := {
  text : string;
  truncated : bool;
  error : option string;
}.

Definition failure (message : string) : extraction :=
  {| text := ""; truncated := false; error := Some message |}.

(** [str(e)] of the AttributeError of a method called on [None]. *)
Definition none_has_no (attr : string) : string :=
  "'NoneType' object has no attribute '" +:+ attr +:+ "'".

Definition _extract_from_pdf (L : Libs) (content : list Byte.byte) : attempt string :=
  text ← pdf_pages L content;
  mret (Py.join Py.nl text).

Definition _extract_from_docx (L : Libs) (content : list Byte.byte) : attempt string :=
  text ← docx_paragraphs L content;
  mret (Py.join Py.nl text).

Definition _describe_image (L : Libs) (content : list Byte.byte) (content_type : string)
    : option string :=
  let base64_image := b64encode L content in
  let data_url := "data:" +:+ content_type +:+ ";base64," +:+ base64_image in
  match query_vision L data_url with
  | Some (Some (String a description)) => Some (String a description)
  | _ => None
  end.

(** [content_type == "application/octet-stream" or not content_type] *)
Definition is_generic (content_type : option string) : bool :=
  match content_type with
  | None => true
  | Some ct => bool_decide (ct = "application/octet-stream") || bool_decide (ct = "")
  end.

Definition PDF : string := "application/pdf".
Definition DOCX : string :=
  "application/vnd.openxmlformats-officedocument.wordprocessingml.document".

(** Step 2, first part: the content type after the look at the extension. *)
Definition normalise (filename content_type : option string) : attempt (option string) :=
  if is_generic content_type then
    match filename with
    | None => Failed (none_has_no "lower")
    | Some name =>
        let lowered := Py.lower name in
        if Str.endswith lowered ".pdf" then Done (Some PDF)
        else if Str.endswith lowered ".docx" then Done (Some DOCX)
        else if Str.endswith lowered ".txt" || Str.endswith lowered ".md"
        then Done (Some "text/plain")
        else if Str.endswith lowered ".jpg" || Str.endswith lowered ".jpeg"
        then Done (Some "image/jpeg")
        else if Str.endswith lowered ".png" then Done (Some "image/png")
        else Done content_type
    end
  else Done content_type.

(** [content_type.startswith("text/") or filename.endswith(".md") or
    filename.endswith(".txt")] *)
Definition is_text (filename : option string) (content_type : string) : attempt bool :=
  if Str.startswith content_type "text/" then Done true
  else
    match filename with
    | None => Failed (none_has_no "endswith")
    | Some name => Done (Str.endswith name ".md" || Str.endswith name ".txt")
    end.

(** Step 3 *)
Definition finish (text : string) : extraction :=
  if (MAX_TEXT_LENGTH <? Z.of_nat (String.length text))%Z
  then {| text := Str.take (Z.to_nat MAX_TEXT_LENGTH) text; truncated := true; error := None |}
  else {| text := text; truncated := false; error := None |}.

(** The [try] block. *)
Definition process (L : Libs) (file : UploadFile) : attempt extraction :=
  content_type ← normalise (filename file) (content_type file);
  match content_type with
  | None => Failed (none_has_no "startswith")
  | Some ct =>
      if bool_decide (ct = PDF) then
        text ← _extract_from_pdf L (content file); mret (finish text)
      else if bool_decide (ct = DOCX) then
        text ← _extract_from_docx L (content file); mret (finish text)
      else
        textual ← is_text (filename file) ct;
        if textual : bool then mret (finish (decode_utf8 L (content file)))
        else if Str.startswith ct "image/" then
          match _describe_image L (content file) ct with
          | Some description => mret (finish ("[Image Description: " +:+ description +:+ "]"))
          | None => mret (failure "Failed to generate image description.")
          end
        else
          mret (failure ("Unsupported file type: " +:+ ct
                           +:+ ". Supported: PDF, DOCX, TXT, MD, Images."))
  end.

Definition extract_text_from_file (L : Libs) (file : UploadFile) : extraction :=
  let file_size := Z.of_nat (length (content file)) in
  if (MAX_FILE_SIZE <? file_size)%Z then
    failure ("File too large (" +:+ format_megabytes L file_size
               +:+ "MB). Max size is 25MB.")
  else
    match process L file with
    | Done result => result
    | Failed message => failure ("Failed to process file: " +:+ message)
    end.

End FileProcessing.

(** ** [backend/main.py] *)

Module Main.

(** [msg.get("role") == "assistant" and "stage3" in msg] ([None]: the
    message is not a dict). *)
Definition is_council_turn (msg : Dyn.json) : option bool :=
  role ← Dyn.get msg "role" Dyn.JNull;
  if Dyn.is_str role "assistant" then Dyn.contains "stage3" msg else Some false.

(** The loop of [get_turn_index]. *)
Fixpoint count_turns (messages : list Dyn.json) (count : Z) : option Z :=
  match messages with
  | [] => Some count
  | msg :: messages' =>
      completed ← is_council_turn msg;
      count_turns messages' (if completed : bool then count + 1 else count)%Z
  end.

(** [get_turn_index] ([None]: an exception). *)
Definition get_turn_index (conversation : Dyn.json) : option Z :=
  messages ← Dyn.get conversation "messages" (Dyn.JList []);
  messages ← Dyn.iter messages;
  count_turns messages 0.

(** [calculate_cost]: [usage] maps the names of the counters to integers.
    The code divides and multiplies in doubles, rounding each step, and
    the division of a counter beyond the range of a float raises
    OverflowError; here the arithmetic is exact. *)
Definition calculate_cost (usage : gmap string Z) (model_id : string) : Q :=
  if bool_decide (usage = ∅) then 0
  else
    match List.find (λ m, bool_decide (Config.m_id m = model_id)) Config.AVAILABLE_MODELS with
    | None => 0
    | Some model_config =>
        let pricing := Config.m_pricing model_config in
        let input_price := Config.p_input pricing in
        let output_price := Config.p_output pricing in
        let prompt_tokens := default 0%Z (usage !! "prompt_tokens") in
        let completion_tokens := default 0%Z (usage !! "completion_tokens") in
        (inject_Z prompt_tokens / 1000000) * input_price
        + (inject_Z completion_tokens / 1000000) * output_price
    end.

(** What an endpoint does: it returns a value or raises [HTTPException]. *)
Inductive response (A : Type) : Type :=
| Return (a : A)
| HTTPException (status_code : Z) (detail : string).
Arguments Return {A} a.
Arguments HTTPException {A} status_code detail.

Record CreateConversationRequest : Type := {
  topic : string;
  council_members : option (list string);
  chairman_model : option string;
}.

(** The [metadata] dict of [create_conversation]. *)
Record conversation_metadata : Type := {
  council_models : option (list string);
  chairman : option string;
}.

(** [{m['id'] for m in AVAILABLE_MODELS}] *)
Definition valid_models : list string := Config.m_id <$> Config.AVAILABLE_MODELS.

(** [create_conversation]. [conversation_id] is [str(uuid.uuid4())],
    [list_str] is [str] of a list of strings, [storage_create] is
    [storage.create_conversation]. *)
Definition create_conversation {C : Type}
    (storage_create : string → conversation_metadata → C)
    (list_str : list string → string) (conversation_id : string)
    (request : CreateConversationRequest) : response C :=
  let members := default [] (council_members request) in
  let invalid := filter (λ m, m ∉ valid_models) members in
  if negb (Py.is_empty members) && negb (Py.is_empty invalid) then
    HTTPException 400 ("Invalid council models: " +:+ list_str invalid)
  else
    let chair := default "" (chairman_model request) in
    if negb (bool_decide (chair = "")) && negb (bool_decide (chair ∈ valid_models)) then
      HTTPException 400 ("Invalid chairman model: " +:+ chair)
    else
      Return (storage_create conversation_id
                {| council_models :=
                     if Py.is_empty members then None else Some members;
                   chairman := if bool_decide (chair = "") then None else Some chair |}).

(** The dict [upload_file] returns. *)
Record uploaded : Type := {
  u_text : string;
  u_filename : option string;
  u_truncated : bool;
}.

(** [upload_file] *)
Definition upload_file (L : FileProcessing.Libs) (file : FileProcessing.UploadFile)
    : response uploaded :=
  let result := FileProcessing.extract_text_from_file L file in
  match FileProcessing.error result with
  | Some (String a message) => HTTPException 400 (String a message)
  | _ =>
      Return {| u_text := FileProcessing.text result;
                u_filename := FileProcessing.filename file;
                u_truncated := FileProcessing.truncated result |}
  end.

End Main.

(** ** [backend/analytics.py] *)

Module Analytics.

(** [round(x, ndigits)]: the nearest multiple of [10 ** -ndigits], a tie
    going to the even one. *)
Definition round_half_even (q : Q) : Z :=
  let f := Qfloor q in
  let r := (q - inject_Z f)%Q in
  if Py.Qltb r (1 # 2) then f
  else if Py.Qltb (1 # 2) r then (f + 1)%Z
  else if Z.even f then f else (f + 1)%Z.

Definition round (q : Q) (ndigits : nat) : Q :=
  (inject_Z (round_half_even (q * inject_Z (10 ^ Z.of_nat ndigits)))
   / inject_Z (10 ^ Z.of_nat ndigits))%Q.

(** One value of [stats]. *)
Record tally : Type := {
  total_rank : Z;
  count : Z;
  wins : Z;
}.

(** [stats]: the [defaultdict], its items in the order the keys were
    first used. *)
Abbreviation statistics := (list (Dyn.json * tally)).

(** The three updates of [stats[model_id]] for one label. *)
Fixpoint record_rank (model_id : Dyn.json) (rank : Z) (stats : statistics) : statistics :=
  match stats with
  | [] =>
      [(model_id,
        {| total_rank := rank; count := 1; wins := if (rank =? 1)%Z then 1 else 0 |})]
  | (key, data) :: stats' =>
      if Dyn.same_key key model_id then
        (key,
         {| total_rank := total_rank data + rank;
            count := count data + 1;
            wins := if (rank =? 1)%Z then wins data + 1 else wins data |}) :: stats'
      else (key, data) :: record_rank model_id rank stats'
  end.

(** [label_to_model.get(label)] ([None]: [label_to_model] is not a dict, or
    [label] is not hashable). *)
Definition model_of (label_to_model label : Dyn.json) : option Dyn.json :=
  match label_to_model with
  | Dyn.JDict d =>
      match label with
      | Dyn.JStr s => Some (default Dyn.JNull (Dyn.item d s))
      | _ => if Dyn.hashable label then Some Dyn.JNull else None
      end
  | _ => None
  end.

(** The loops below return whether they ran to their end ([false]: an
    exception left them) and [stats] as it is then. *)

(** [for rank, label in enumerate(parsed, start=1)] *)
Fixpoint rank_labels (label_to_model : Dyn.json) (todo : list (nat * Dyn.json))
    (stats : statistics) : bool * statistics :=
  match todo with
  | [] => (true, stats)
  | (rank, label) :: todo' =>
      match model_of label_to_model label with
      | None => (false, stats)
      | Some model_id =>
          if Dyn.truthy model_id then
            if Dyn.hashable model_id then
              rank_labels label_to_model todo' (record_rank model_id (Z.of_nat rank) stats)
            else (false, stats)
          else rank_labels label_to_model todo' stats
      end
  end.

(** [for ranking_entry in msg['stage2']] *)
Fixpoint rank_entries (label_to_model : Dyn.json) (entries : list Dyn.json)
    (stats : statistics) : bool * statistics :=
  match entries with
  | [] => (true, stats)
  | ranking_entry :: entries' =>
      match Dyn.get ranking_entry "parsed_ranking" (Dyn.JList []) with
      | None => (false, stats)
      | Some parsed =>
          if negb (Dyn.truthy parsed) then rank_entries label_to_model entries' stats
          else
            match Dyn.iter parsed with
            | None => (false, stats)
            | Some labels =>
                let done := rank_labels label_to_model (Py.enumerate_from 1 labels) stats in
                if done.1 then rank_entries label_to_model entries' done.2
                else (false, done.2)
            end
      end
  end.

(** [for msg in data.get('messages', [])] *)
Fixpoint rank_messages (messages : list Dyn.json) (stats : statistics)
    : bool * statistics :=
  match messages with
  | [] => (true, stats)
  | msg :: messages' =>
      match Dyn.contains "stage2" msg with
      | None => (false, stats)
      | Some false => rank_messages messages' stats
      | Some true =>
          match Dyn.getitem msg "stage2" with
          | None => (false, stats)
          | Some stage2 =>
              if negb (Dyn.truthy stage2) then rank_messages messages' stats
              else
                match Dyn.get msg "metadata" (Dyn.JDict []) with
                | None => (false, stats)
                | Some metadata =>
                    match Dyn.get metadata "label_to_model" (Dyn.JDict []) with
                    | None => (false, stats)
                    | Some label_to_model =>
                        if negb (Dyn.truthy label_to_model)
                        then rank_messages messages' stats
                        else
                          match Dyn.iter stage2 with
                          | None => (false, stats)
                          | Some entries =>
                              let done := rank_entries label_to_model entries stats in
                              if done.1 then rank_messages messages' done.2
                              else (false, done.2)
                          end
                    end
                end
          end
      end
  end.

(** The body of the [try] for one file; [data] is [None] when the file
    cannot be opened or is not JSON. *)
Definition rank_file (data : option Dyn.json) (stats : statistics) : bool * statistics :=
  match data with
  | None => (false, stats)
  | Some data =>
      match Dyn.get data "messages" (Dyn.JList []) with
      | None => (false, stats)
      | Some messages =>
          match Dyn.iter messages with
          | None => (false, stats)
          | Some messages => rank_messages messages stats
          end
      end
  end.

(** [for filename in os.listdir(DATA_DIR)]: [stats] and [processed_files]
    afterwards. *)
Fixpoint rank_files (files : list (string * option Dyn.json)) (stats : statistics)
    (processed_files : Z) : statistics * Z :=
  match files with
  | [] => (stats, processed_files)
  | (filename, data) :: files' =>
      if negb (Str.endswith filename ".json") then rank_files files' stats processed_files
      else
        let done := rank_file data stats in
        rank_files files' done.2 (if done.1 then processed_files + 1 else processed_files)%Z
  end.

(** One entry of the list [get_analytics] returns. *)
Record row : Type := {
  r_model : Dyn.json;
  average_rank : Q;
  win_rate : Q;
  evaluations : Z;
}.

Definition to_row (item : Dyn.json * tally) : row :=
  let data := item.2 in
  let avg_rank :=
    if (0 <? count data)%Z then (inject_Z (total_rank data) / inject_Z (count data))%Q
    else 0%Q in
  let rate :=
    if (0 <? count data)%Z then ((inject_Z (wins data) / inject_Z (count data)) * 100)%Q
    else 0%Q in
  {| r_model := item.1;
     average_rank := round avg_rank 2;
     win_rate := round rate 1;
     evaluations := count data |}.

(** [DATA_DIR]: missing, or the files [os.listdir] names with what
    [json.load] reads from each. *)
Inductive directory : Type :=
| Missing
| Listing (files : list (string * option Dyn.json)).

(** [get_analytics]: the list under ["models"]. *)
Definition get_analytics (data_dir : directory) : list row :=
  match data_dir with
  | Missing => []
  | Listing files =>
      let stats := (rank_files files [] 0).1 in
      Py.sort_by (λ a b, Qle_bool (average_rank a) (average_rank b)) (to_row <$> stats)
  end.

End Analytics.

(** ** Notions used in the statements about them *)

(** The tokenized corpus of the index has one entry per identifier of the
    snapshot: position [i] of the BM25 scores is the document [doc_ids[i]]. *)
Definition index_aligned (self : HybridRetriever.t) : Prop :=
  ∀ corpus, HybridRetriever.bm25_index self = Some corpus →
    length corpus = length (HybridRetriever.doc_ids self).

(** What the lexical step relies on of the two libraries: BM25 scores one
    number per document of the corpus, and [argsort] returns positions of
    its argument. *)
Record ScoresInRange (X : Externals) : Prop := {
  get_scores_length : ∀ corpus query_tokens,
    length (bm25_get_scores X corpus query_tokens) = length corpus;
  argsort_in_range : ∀ l i, i ∈ np_argsort X l → (i < length l)%nat;
}.

(** The counters of a model that was ranked at least once: every rank is
    at least 1, and a win is a rank of 1. *)
Definition tally_ok (t : Analytics.tally) : Prop :=
  (1 ≤ Analytics.count t)%Z ∧
  (0 ≤ Analytics.wins t ≤ Analytics.count t)%Z ∧
  (Analytics.count t ≤ Analytics.total_rank t)%Z.

(** The dict key a hashable value is: a string, or the value of a number
    or a boolean in lowest terms. *)
Definition key_of (v : Dyn.json) : string + option Q :=
  match v with
  | Dyn.JStr s => inl s
  | Dyn.JNum q => inr (Some (Qred q))
  | Dyn.JBool b => inr (Some (if b then 1 else 0)%Q)
  | _ => inr None
  end.

(** What [stats] is at every point of [get_analytics]: each key is a
    value that is true and hashable, with the counters of at least one
    evaluation, and no two keys are the same dict key. *)
Definition stats_ok (stats : list (Dyn.json * Analytics.tally)) : Prop :=
  Forall (λ item, tally_ok item.2 ∧ Dyn.truthy item.1 = true ∧ Dyn.hashable item.1 = true)
    stats ∧
  NoDup (key_of <$> stats.*1).

(** A file [get_analytics] reads: its name ends in .json and it parses. *)
Definition is_readable (file : string * option Dyn.json) : bool :=
  Str.endswith file.1 ".json" && bool_decide (is_Some file.2).

(** ** More concrete data, for the examples *)

Module Sample.

(** One answer of 2400 words in conversation c1. *)
Definition wordy : Chroma.collection :=
  Demo.index Demo.others "t6" "c1" 0 "w" [Demo.opinion "m1" (Demo.words 2400)]
    Demo.no_synthesis.

Definition hr_wordy : HybridRetriever.t :=
  (HybridRetriever.retrieve Demo.X wordy HybridRetriever.init "w" "c1" 10 (1 # 2) (1 # 2)).2.

Definition rag_wordy : CouncilRAG.t :=
  {| CouncilRAG.enabled := true; CouncilRAG.hybrid_retriever := Some hr_wordy |}.

Definition results_wordy : list HybridRetriever.hit :=
  Demo.from_ok []
    (HybridRetriever.retrieve Demo.X wordy hr_wordy "w" "c1" 10 (1 # 2) (1 # 2)).1.

(** What the stale index of [Demo.hr_stale] returns for conversation b. *)
Definition results_stale : list HybridRetriever.hit :=
  Demo.from_ok []
    (HybridRetriever.retrieve Demo.X Demo.after_reuse Demo.hr_stale "alpha" "b" 10
       (1 # 2) (1 # 2)).1.

(** The turn of [Demo.cities], as [index_session] is called for it. *)
Definition stage1_cities : list CouncilRAG.opinion :=
  [Demo.opinion "m1" "Paris Paris France"; Demo.opinion "m2" "Lyon is large too"].

Definition stage3_cities : CouncilRAG.synthesis := Demo.synthesis "chair" "Paris".

Definition batch_cities : list (string * Chroma.entry) :=
  CouncilRAG.session_docs Demo.X "t0" "c1" 0 "capital" stage1_cities stage3_cities [] ∅.

(** The engine after [refresh_hybrid_index] on [Demo.cities]. *)
Definition rag_refreshed : CouncilRAG.t :=
  Demo.from_ok CouncilRAG.init (CouncilRAG.refresh_hybrid_index Demo.cities CouncilRAG.init).

Definition hr_refreshed : HybridRetriever.t :=
  default HybridRetriever.init (CouncilRAG.hybrid_retriever rag_refreshed).

(** The stale engine of [Demo.after_reuse], and the same after
    [refresh_hybrid_index]. *)
Definition rag_stale : CouncilRAG.t :=
  {| CouncilRAG.enabled := true; CouncilRAG.hybrid_retriever := Some Demo.hr_stale |}.

Definition rag_restored : CouncilRAG.t :=
  Demo.from_ok rag_stale (CouncilRAG.refresh_hybrid_index Demo.after_reuse rag_stale).

Definition hr_restored : HybridRetriever.t :=
  default HybridRetriever.init (CouncilRAG.hybrid_retriever rag_restored).

Definition results_restored : list HybridRetriever.hit :=
  Demo.from_ok []
    (HybridRetriever.retrieve Demo.X Demo.after_reuse hr_restored "alpha"
       "b:turn:1:synthesis:x" 10 (1 # 2) (1 # 2)).1.

(** The only chunk of [results_wordy]. *)
Definition chunk_wordy : CouncilRAG.chunk :=
  default Demo.no_chunk (CouncilRAG.filtered_chunks results_wordy !! 0%nat).

(** Libraries for [extract_text_from_file]: a PDF of two pages, a DOCX that
    cannot be opened, bytes read as characters, and a vision model that
    answers. *)
Definition libs : FileProcessing.Libs :=
  {| FileProcessing.pdf_pages := λ _, FileProcessing.Done ["page one"; "page two"];
     FileProcessing.docx_paragraphs := λ _, FileProcessing.Failed "File is not a zip file";
     FileProcessing.decode_utf8 := String.string_of_list_byte;
     FileProcessing.b64encode := λ _, "AAAA";
     FileProcessing.query_vision := λ _, Some (Some "a bar chart");
     FileProcessing.format_megabytes := λ size, pretty (size `div` 1048576)%Z +:+ ".0" |}.

Definition report : FileProcessing.UploadFile :=
  {| FileProcessing.filename := Some "Report.PDF";
     FileProcessing.content_type := Some "application/octet-stream";
     FileProcessing.content := [] |}.

(** An upload of 25 MB and one byte. *)
Definition huge : FileProcessing.UploadFile :=
  {| FileProcessing.filename := Some "huge.txt";
     FileProcessing.content_type := Some "text/plain";
     FileProcessing.content := replicate (Z.to_nat 26214401) Byte.x00 |}.

(** A stored conversation: a question, a council turn, a chat exchange. *)
Definition user (content : string) : Dyn.json :=
  Dyn.JDict [("role", Dyn.JStr "user"); ("content", Dyn.JStr content)].

Definition ranking (model : string) (labels : list string) : Dyn.json :=
  Dyn.JDict [("model", Dyn.JStr model); ("parsed_ranking", Dyn.JList (Dyn.JStr <$> labels))].

Definition labels : Dyn.json :=
  Dyn.JDict [("Response A", Dyn.JStr "model_a"); ("Response B", Dyn.JStr "model_b")].

Definition council (stage2 : list Dyn.json) : Dyn.json :=
  Dyn.JDict [("role", Dyn.JStr "assistant");
             ("stage1", Dyn.JList []);
             ("stage2", Dyn.JList stage2);
             ("stage3", Dyn.JDict [("model", Dyn.JStr "chair"); ("response", Dyn.JStr "Paris")]);
             ("metadata", Dyn.JDict [("label_to_model", labels)])].

Definition chat (content : string) : Dyn.json :=
  Dyn.JDict [("role", Dyn.JStr "assistant"); ("content", Dyn.JStr content)].

Definition first_turn : Dyn.json :=
  council [ranking "model_a" ["Response B"; "Response A"];
           ranking "model_b" ["Response B"; "Response A"]].

Definition second_turn : Dyn.json :=
  council [ranking "model_a" ["Response A"; "Response B"]].

Definition history : list Dyn.json := [user "capital?"; first_turn; user "why?"; chat "because"].

Definition conversation (messages : list Dyn.json) : Dyn.json :=
  Dyn.JDict [("id", Dyn.JStr "c1"); ("messages", Dyn.JList messages)].

Definition data_dir : Analytics.directory :=
  Analytics.Listing
    [("c1.json", Some (conversation (history ++ [user "again?"; second_turn])));
     ("notes.txt", None);
     ("broken.json", None)].

(** What [rank_messages] has counted at the end of [history]. *)
Definition stats_history : list (Dyn.json * Analytics.tally) :=
  (Analytics.rank_messages history []).2.

(** An API message with a reasoning field, and [str] of a dict. *)
Definition thought : OpenRouter.message :=
  {| OpenRouter.reasoning := Some "step by step"; OpenRouter.reasoning_details := None |}.

Definition no_thought : OpenRouter.message :=
  {| OpenRouter.reasoning := None; OpenRouter.reasoning_details := None |}.

Definition dict_str (d : list (string * Dyn.json)) : string := "{...}".

End Sample.

(** * Properties *)

(** ** Sorting *)

Section sorting.
Context {A : Type} (before : A → A → bool).

Lemma insert_by_Permutation x l : Py.insert_by before x l ≡ₚ x :: l.
Proof.
  induction l as [|y l IH]; simpl; [done|].
  destruct (before x y); [done|].
  rewrite IH. apply Permutation_swap.
Qed.

Lemma sort_by_Permutation l : Py.sort_by before l ≡ₚ l.
Proof.
  induction l as [|x l IH]; simpl; [done|].
  unfold Py.sort_by in *. simpl. rewrite insert_by_Permutation. by f_equiv.
Qed.

Lemma elem_of_sort_by x l : x ∈ Py.sort_by before l ↔ x ∈ l.
Proof. by rewrite sort_by_Permutation. Qed.

Section stable.
Context (P : A → Prop) `{!∀ x, Decision (P x)}.
Hypothesis same_key : ∀ x y, P x → P y → before x y = true.

Lemma insert_by_filter_in x l :
  P x → filter P (Py.insert_by before x l) = x :: filter P l.
Proof.
  intros Hx. induction l as [|y l IH]; simpl.
  - by rewrite filter_cons_True.
  - destruct (before x y) eqn:Hxy.
    + by rewrite filter_cons_True.
    + assert (¬ P y) as Hy by (intros Hy; rewrite same_key in Hxy; done).
      rewrite !(filter_cons_False _ y) by done. done.
Qed.

Lemma insert_by_filter_out x l :
  ¬ P x → filter P (Py.insert_by before x l) = filter P l.
Proof.
  intros Hx. induction l as [|y l IH]; simpl.
  - by rewrite filter_cons_False.
  - destruct (before x y).
    + by rewrite filter_cons_False.
    + rewrite !(filter_cons _ y). by rewrite IH.
Qed.

Lemma sort_by_stable l : filter P (Py.sort_by before l) = filter P l.
Proof.
  induction l as [|x l IH]; [done|].
  change (Py.sort_by before (x :: l)) with (Py.insert_by before x (Py.sort_by before l)).
  destruct (decide (P x)).
  - rewrite insert_by_filter_in, filter_cons_True by done. by rewrite IH.
  - rewrite insert_by_filter_out, filter_cons_False by done. done.
Qed.
End stable.

Section sorted.
Hypothesis total : ∀ x y, before x y = false → before y x = true.
Hypothesis trans : ∀ x y z, before x y = true → before y z = true → before x z = true.

Lemma insert_by_sorted x l :
  StronglySorted (λ a b, before a b = true) l →
  StronglySorted (λ a b, before a b = true) (Py.insert_by before x l).
Proof.
  induction 1 as [|y l Hl IH Hy]; simpl.
  - repeat constructor.
  - destruct (before x y) eqn:Hxy.
    + constructor; [by constructor|].
      constructor; [done|]. eapply Forall_impl; [exact Hy|]. eauto.
    + constructor; [done|].
      rewrite insert_by_Permutation. constructor; [|done]. by apply total.
Qed.

Lemma sort_by_sorted l : StronglySorted (λ a b, before a b = true) (Py.sort_by before l).
Proof.
  induction l as [|x l IH]; [constructor|]. by apply insert_by_sorted.
Qed.
End sorted.
End sorting.

Section dicts.
Context {V : Type}.
Implicit Types (m : gmap string V) (l : list (string * V)).

Lemma foldl_insert_lookup_Some m l k v :
  foldl (λ m kv, <[kv.1 := kv.2]> m) m l !! k = Some v →
  (k, v) ∈ l ∨ m !! k = Some v.
Proof.
  revert m. induction l as [|[k' v'] l IH]; intros m; simpl; [by right|].
  intros [Hin|Hm]%IH.
  - left. by right.
  - destruct (decide (k' = k)) as [->|Hne].
    + rewrite lookup_insert_eq in Hm. simplify_eq. left. by left.
    + rewrite lookup_insert_ne in Hm by done. by right.
Qed.

Lemma dict_lookup_Some l k v : Py.dict l !! k = Some v → (k, v) ∈ l.
Proof.
  intros [?|H]%foldl_insert_lookup_Some; [done|]. by rewrite lookup_empty in H.
Qed.

Lemma elem_of_keys m k : k ∈ Py.keys m ↔ is_Some (m !! k).
Proof.
  unfold Py.keys. rewrite list_elem_of_fmap. split.
  - intros ([k' v] & -> & Hin). apply elem_of_map_to_list in Hin. eauto.
  - intros [v Hv]. exists (k, v). split; [done|]. by apply elem_of_map_to_list.
Qed.
End dicts.

Lemma enumerate_from_lookup {A} (l : list A) start i :
  Py.enumerate_from start l !! i = (λ x, (start + i, x)) <$> l !! i.
Proof.
  revert start i. induction l as [|x l IH]; intros start [|i]; simpl; try done.
  - by rewrite Nat.add_0_r.
  - rewrite IH. by replace (S start + i) with (start + S i) by lia.
Qed.

Lemma elem_of_enumerate_from {A} (l : list A) start r x :
  (r, x) ∈ Py.enumerate_from start l ↔ (start ≤ r)%nat ∧ l !! (r - start) = Some x.
Proof.
  rewrite list_elem_of_lookup. split.
  - intros [i Hi]. rewrite enumerate_from_lookup in Hi.
    destruct (l !! i) eqn:Hl; simplify_eq/=. split; [lia|].
    by replace (start + i - start) with i by lia.
  - intros [Hle Hl]. exists (r - start). rewrite enumerate_from_lookup, Hl. simpl.
    do 2 f_equal. lia.
Qed.

(** ** The lexical path *)

Section lexical.
Context (X : Externals) (self : HybridRetriever.t).
Implicit Types (bm acc : gmap string (nat * Q)).

Lemma bm25_loop_inv scores conv todo acc bm :
  HybridRetriever.bm25_loop self scores conv todo acc = Ok bm →
  ∀ doc_id r s, bm !! doc_id = Some (r, s) →
    acc !! doc_id = Some (r, s) ∨ lexical_entry self scores conv todo doc_id r s.
Proof.
  revert acc. induction todo as [|[rank idx] todo IH]; intros acc; simpl.
  - intros [= ->] ???. by left.
  - destruct (HybridRetriever.doc_ids self !! idx) as [d|] eqn:Hd; [|done].
    destruct (scores !! idx) as [sc|] eqn:Hs; [|done].
    assert (∀ doc_id r s, lexical_entry self scores conv todo doc_id r s →
              lexical_entry self scores conv ((rank, idx) :: todo) doc_id r s) as Hmono.
    { intros ??? (rk & i & ? & ?). exists rk, i. split; [by right|done]. }
    destruct (Qle_bool sc 0) eqn:Hpos.
    { intros H ??? Hl. destruct (IH _ H _ _ _ Hl); eauto. }
    destruct (in_conversation _ conv) eqn:Hc; simpl.
    + intros H doc_id r s Hl. destruct (IH _ H _ _ _ Hl) as [Hi|?]; [|eauto].
      destruct (decide (d = doc_id)) as [->|Hne].
      * rewrite lookup_insert_eq in Hi. simplify_eq. right.
        exists rank, idx. split_and!; try done; [by left|].
        apply Qnot_le_lt. intros Hle%Qle_bool_iff. congruence.
      * rewrite lookup_insert_ne in Hi by done. by left.
    + intros H ??? Hl. destruct (IH _ H _ _ _ Hl); eauto.
Qed.

Lemma lexical_inv corpus query conv top_k bm doc_id r s :
  HybridRetriever.lexical X self corpus query conv top_k = Ok bm →
  bm !! doc_id = Some (r, s) →
  let scores := bm25_get_scores X corpus (Py.split (Py.lower query)) in
  (1 ≤ r ≤ top_k * 2)%nat ∧
  ∃ idx,
    HybridRetriever.bm25_top_indices X scores top_k !! (r - 1)%nat = Some idx ∧
    HybridRetriever.doc_ids self !! idx = Some doc_id ∧
    scores !! idx = Some s ∧ (0 < s)%Q ∧
    in_conversation (default ∅ (HybridRetriever.id_to_metadata self !! doc_id)) conv = true.
Proof.
  intros Hlex Hbm scores. unfold HybridRetriever.lexical in Hlex.
  destruct (bm25_loop_inv _ _ _ _ _ Hlex _ _ _ Hbm) as [Hemp|(rank & idx & Hin & -> & ?)].
  { by rewrite lookup_empty in Hemp. }
  apply elem_of_enumerate_from in Hin as [_ Hin]. rewrite Nat.sub_0_r in Hin.
  replace (rank + 1 - 1)%nat with rank by lia.
  split; [|by exists idx].
  apply lookup_lt_Some in Hin. unfold HybridRetriever.bm25_top_indices in Hin.
  rewrite length_take in Hin. lia.
Qed.
End lexical.

Lemma StronglySorted_lookup {A} (R : relation A) (l : list A) i j a b :
  StronglySorted R l → (i < j)%nat → l !! i = Some a → l !! j = Some b → R a b.
Proof.
  intros Hl. revert i j. induction Hl as [|x l Hl IH Hx]; intros i j Hij Ha Hb; [done|].
  destruct j as [|j]; [lia|]. destruct i as [|i]; simplify_eq/=.
  - eapply Forall_forall in Hx; [done|]. by eapply list_elem_of_lookup_2.
  - eapply (IH i j); [lia|done..].
Qed.

Lemma StronglySorted_take {A} (R : relation A) (l : list A) n :
  StronglySorted R l → StronglySorted R (take n l).
Proof.
  intros Hl. revert n. induction Hl as [|x l Hl IH Hx]; intros [|n]; simpl; try constructor.
  - apply IH.
  - eapply Forall_forall. intros y Hy.
    eapply Forall_forall in Hx; [done|]. eapply elem_of_sublist, sublist_take. done.
Qed.

Lemma StronglySorted_impl {A} (R1 R2 : relation A) (l : list A) :
  (∀ x y, R1 x y → R2 x y) → StronglySorted R1 l → StronglySorted R2 l.
Proof.
  intros HR. induction 1 as [|x l Hl IH Hx]; constructor; [done|].
  eapply Forall_impl; [exact Hx|]. eauto.
Qed.

Lemma StronglySorted_sublist {A} (R : relation A) (k l : list A) :
  k `sublist_of` l → StronglySorted R l → StronglySorted R k.
Proof.
  induction 1 as [|x k l Hsub IH|x k l Hsub IH]; intros Hl; [done|..].
  - apply StronglySorted_inv in Hl as [Hl Hx]. constructor; [by apply IH|].
    eapply Forall_forall. intros y Hy. eapply Forall_forall in Hx; [done|].
    by eapply elem_of_sublist.
  - apply StronglySorted_inv in Hl as [Hl _]. by apply IH.
Qed.

(** ** The collection *)

Section chroma.
Context (X : Externals) (c : Chroma.collection).

Lemma query_inv query n conv found :
  Chroma.query X c query n conv = Ok found →
  (length found ≤ n)%nat ∧ NoDup found.*1 ∧
  ∀ doc_id d, (doc_id, d) ∈ found →
    ∃ e, Chroma.docs c !! doc_id = Some e ∧
         in_conversation (Chroma.e_meta e) conv = true ∧
         d = cosine_distance X query (Chroma.e_doc e).
Proof.
  unfold Chroma.query. destruct (Chroma.fails c Chroma.OpQuery); [done|].
  case_bool_decide; [done|]. intros [= <-]. split_and!.
  - rewrite length_take. lia.
  - eapply sublist_NoDup; [|apply fmap_sublist, sublist_take].
    rewrite sort_by_Permutation, <-list_fmap_compose.
    eapply sublist_NoDup; [|apply fmap_sublist, sublist_filter].
    apply NoDup_fst_map_to_list.
  - intros doc_id d Hin. apply elem_of_take in Hin as (i & Hin%list_elem_of_lookup_2 & _).
    apply elem_of_sort_by, list_elem_of_fmap in Hin as ([k e] & [= -> ->] & Hin).
    apply list_elem_of_filter in Hin as [Hc Hin]. apply elem_of_map_to_list in Hin.
    by exists e.
Qed.


Lemma get_inv ids full doc_id e :
  Chroma.get c ids = Ok full → (doc_id, e) ∈ full →
  doc_id ∈ ids ∧ Chroma.docs c !! doc_id = Some e.
Proof.
  unfold Chroma.get. destruct (Chroma.fails c Chroma.OpFetch); [done|].
  intros [= <-] (i & Hi & Hl)%list_elem_of_omap.
  destruct (Chroma.docs c !! i) eqn:He; simplify_eq/=. done.
Qed.
End chroma.

(** ** The dense path *)

Lemma dense_loop_inv found doc_id r s :
  HybridRetriever.dense_loop found !! doc_id = Some (r, s) →
  (1 ≤ r)%nat ∧ ∃ d, found !! (r - 1)%nat = Some (doc_id, d) ∧ s = (1 - d)%Q.
Proof.
  unfold HybridRetriever.dense_loop.
  assert (∀ start (acc : gmap string (nat * Q)),
    foldl (λ (d : gmap string (nat * Q)) (e : nat * (string * Q)),
             <[e.2.1 := (e.1 + 1, (1 - e.2.2)%Q)]> d) acc
          (Py.enumerate_from start found) !! doc_id = Some (r, s) →
    acc !! doc_id = Some (r, s) ∨
    ((start + 1 ≤ r)%nat ∧ ∃ d, found !! (r - 1 - start)%nat = Some (doc_id, d) ∧ s = (1 - d)%Q))
    as Hgen.
  { induction found as [|[k d] found IH]; intros start acc; simpl; [by left|].
    intros [Hacc|(Hle & d' & Hl & ->)]%IH.
    - destruct (decide (k = doc_id)) as [->|Hne].
      + rewrite lookup_insert_eq in Hacc. simplify_eq. right. split; [lia|].
        exists d. by replace (start + 1 - 1 - start)%nat with 0%nat by lia.
      + rewrite lookup_insert_ne in Hacc by done. by left.
    - right. split; [lia|]. exists d'. split; [|done].
      replace (r - 1 - start)%nat with (S (r - 1 - S start)) by lia. done. }
  intros [Hemp|(Hle & d & Hl & ->)]%Hgen.
  - by rewrite lookup_empty in Hemp.
  - rewrite Nat.sub_0_r in Hl. split; [lia|]. by exists d.
Qed.

Lemma dense_inv X c query conv top_k dn doc_id r s :
  HybridRetriever.dense X c query conv top_k = Ok dn →
  dn !! doc_id = Some (r, s) →
  (1 ≤ r ≤ top_k * 2)%nat ∧
  ∃ found d e,
    Chroma.query X c query (top_k * 2) conv = Ok found ∧
    found !! (r - 1)%nat = Some (doc_id, d) ∧
    Chroma.docs c !! doc_id = Some e ∧
    in_conversation (Chroma.e_meta e) conv = true.
Proof.
  unfold HybridRetriever.dense.
  destruct (Chroma.query X c query (top_k * 2) conv) as [found|] eqn:Hq; [|done].
  intros [= <-] (Hr & d & Hl & _)%dense_loop_inv.
  destruct (query_inv _ _ _ _ _ _ Hq) as (Hlen & _ & Hall).
  destruct (Hall doc_id d) as (e & ? & ? & _); [by eapply list_elem_of_lookup_2|].
  pose proof (lookup_lt_Some _ _ _ Hl). split; [lia|]. by exists found, d, e.
Qed.

(** ** Fusion and the result list *)

Lemma elem_of_combined_scores X wl wd bm dn doc_id s :
  (doc_id, s) ∈ HybridRetriever.combined_scores X wl wd bm dn ↔
  doc_id ∈ set_iter X (Py.keys bm ++ Py.keys dn) ∧
  s = HybridRetriever.rrf wl wd bm dn doc_id.
Proof.
  unfold HybridRetriever.combined_scores. rewrite list_elem_of_fmap. split.
  - by intros (d & [= -> ->] & ?).
  - intros [? ->]. by exists doc_id.
Qed.

Lemma elem_of_sorted_ids top_k combined x :
  x ∈ HybridRetriever.sorted_ids top_k combined → x ∈ combined.
Proof.
  unfold HybridRetriever.sorted_ids, HybridRetriever.sorted_all.
  intros Hx. eapply elem_of_sublist in Hx; [|apply sublist_take].
  by apply elem_of_sort_by in Hx.
Qed.

Lemma build_results_inv c ids full sorted h :
  Chroma.get c ids = Ok full →
  h ∈ HybridRetriever.build_results full sorted →
  (HybridRetriever.h_id h, HybridRetriever.h_score h) ∈ sorted ∧
  ((HybridRetriever.h_metadata h = ∅ ∧ HybridRetriever.h_text h = "") ∨
   ∃ e, Chroma.docs c !! HybridRetriever.h_id h = Some e ∧
        HybridRetriever.h_metadata h = Chroma.e_meta e ∧
        HybridRetriever.h_text h = Chroma.e_doc e).
Proof.
  intros Hget. unfold HybridRetriever.build_results.
  intros ([k s] & -> & Hin)%list_elem_of_fmap. simpl. split; [done|].
  match goal with |- context [Py.dict ?l !! k] => destruct (Py.dict l !! k) as [[m d]|] eqn:Hd end;
    simpl; [|by left].
  right. apply dict_lookup_Some, list_elem_of_fmap in Hd as ([k' e] & [= -> -> ->] & Hin').
  destruct (get_inv _ _ _ _ _ Hget Hin') as [_ ?]. by exists e.
Qed.

(** The stages of a call that returned a list. *)
Lemma retrieve_indexed_inv X c self query conv top_k wl wd results :
  HybridRetriever.retrieve_indexed X c self query conv top_k wl wd = Ok results →
  results = [] ∨
  ∃ corpus bm dn full,
    HybridRetriever.bm25_index self = Some corpus ∧
    HybridRetriever.lexical X self corpus query conv top_k = Ok bm ∧
    HybridRetriever.dense X c query conv top_k = Ok dn ∧
    let sorted :=
      HybridRetriever.sorted_ids top_k (HybridRetriever.combined_scores X wl wd bm dn) in
    Chroma.get c sorted.*1 = Ok full ∧
    results = HybridRetriever.build_results full sorted.
Proof.
  unfold HybridRetriever.retrieve_indexed.
  destruct (HybridRetriever.bm25_index self) as [corpus|]; [|intros [= <-]; by left].
  destruct (Py.is_empty _); [intros [= <-]; by left|].
  destruct (HybridRetriever.lexical _ _ _ _ _ _) as [bm|] eqn:Hbm; [|done]. simpl.
  destruct (HybridRetriever.dense _ _ _ _ _) as [dn|] eqn:Hdn; [|done]. simpl.
  destruct (Py.is_empty _); [intros [= <-]; by left|].
  destruct (Chroma.get _ _) as [full|] eqn:Hfull; [|done]. simpl.
  intros [= <-]. right. by exists corpus, bm, dn, full.
Qed.


(** ** The snapshot of the index *)

Lemma zip_fst_fmap_snd {A B C} (f : B → C) (l : list (A * B)) :
  zip l.*1 (f <$> l.*2) = (λ kv, (kv.1, f kv.2)) <$> l.
Proof. induction l as [|[a b] l IH]; simpl; by f_equal. Qed.

Lemma rebuild_agrees c self :
  HybridRetriever._rebuild_bm25_index c = Ok self → snapshot_agrees self c.
Proof.
  unfold HybridRetriever._rebuild_bm25_index, Chroma.get_all.
  destruct (Chroma.fails c Chroma.OpScan); [done|]. simpl.
  destruct (_ || _).
  - intros [= <-] doc_id m e Hm. simpl in Hm. by rewrite lookup_empty in Hm.
  - intros [= <-] doc_id m e Hm He. simpl in Hm.
    apply dict_lookup_Some in Hm. rewrite zip_fst_fmap_snd in Hm.
    apply list_elem_of_fmap in Hm as ([k e'] & [= -> ->] & Hin).
    apply elem_of_map_to_list in Hin. simpl in *. congruence.
Qed.

Lemma refresh_index_current c self self' :
  HybridRetriever.refresh_index c self = Ok self' → snapshot_current self' c.
Proof. intros H. right. by apply rebuild_agrees. Qed.

Lemma ensure_index_agrees c self self' :
  snapshot_current self c →
  HybridRetriever._ensure_index c self = Ok self' →
  snapshot_agrees self' c.
Proof.
  unfold HybridRetriever._ensure_index. intros [Hnone|Hag].
  - rewrite Hnone. apply rebuild_agrees.
  - destruct (HybridRetriever.bm25_index self); [by intros [= <-]|apply rebuild_agrees].
Qed.

Lemma in_conversation_spec meta conv :
  in_conversation meta conv = true ↔ meta !! "conversation_id" = Some (VStr conv).
Proof.
  unfold in_conversation. destruct (meta !! "conversation_id") as [[s| |]|]; try done.
  rewrite bool_decide_eq_true. naive_solver.
Qed.

(** Every returned candidate carries no metadata at all or the metadata of
    a record of the requested conversation. *)
Lemma retrieve_indexed_scoped X c self query conv top_k wl wd results h :
  ExternalsOk X →
  snapshot_agrees self c →
  HybridRetriever.retrieve_indexed X c self query conv top_k wl wd = Ok results →
  h ∈ results →
  HybridRetriever.h_metadata h = ∅ ∨
  HybridRetriever.h_metadata h !! "conversation_id" = Some (VStr conv).
Proof.
  intros HX Hag Hres Hh.
  apply retrieve_indexed_inv in Hres as [->|(corpus & bm & dn & full & _ & Hbm & Hdn & Hfull & ->)].
  { by apply elem_of_nil in Hh. }
  destruct (build_results_inv _ _ _ _ _ Hfull Hh) as [Hin [[? _]|(e & He & Hm & _)]]; [by left|].
  right. rewrite Hm.
  apply elem_of_sorted_ids, elem_of_combined_scores in Hin as [Hin _].
  apply (set_iter_elem X HX), elem_of_app in Hin as [Hk|Hk].
  - apply elem_of_keys in Hk as [[r s] Hk].
    destruct (lexical_inv _ _ _ _ _ _ _ _ _ _ Hbm Hk) as (_ & idx & _ & _ & _ & _ & Hc).
    apply in_conversation_spec in Hc.
    destruct (HybridRetriever.id_to_metadata self !! HybridRetriever.h_id h) as [m|] eqn:Hsnap;
      simpl in Hc; [|by rewrite lookup_empty in Hc].
    by rewrite <-(Hag _ _ _ Hsnap He).
  - apply elem_of_keys in Hk as [[r s] Hk].
    destruct (dense_inv _ _ _ _ _ _ _ _ _ Hdn Hk) as (_ & found & d & e' & _ & _ & He' & Hc).
    apply in_conversation_spec in Hc. congruence.
Qed.

Lemma retrieve_scoped X c self query conv top_k wl wd results h :
  ExternalsOk X →
  snapshot_current self c →
  (HybridRetriever.retrieve X c self query conv top_k wl wd).1 = Ok results →
  h ∈ results →
  HybridRetriever.h_metadata h = ∅ ∨
  HybridRetriever.h_metadata h !! "conversation_id" = Some (VStr conv).
Proof.
  intros HX Hcur. unfold HybridRetriever.retrieve.
  destruct (HybridRetriever._ensure_index c self) as [self'|] eqn:Hens; [|done]. simpl.
  intros. eapply retrieve_indexed_scoped; eauto using ensure_index_agrees.
Qed.

(** ** Context assembly *)

Lemma est_tokens_nonneg text : (0 ≤ CouncilRAG.est_tokens text)%Z.
Proof. unfold CouncilRAG.est_tokens. apply Z.div_pos; lia. Qed.

Lemma tokens_of_nonneg chunks : (0 ≤ tokens_of chunks)%Z.
Proof.
  induction chunks as [|ch chunks IH]; simpl; [done|].
  pose proof (est_tokens_nonneg (CouncilRAG.c_text ch)). lia.
Qed.

(** What the packing loop returns: the formatted blocks of the longest
    prefix of the chunks that fits the budget. *)
Lemma pack_inv X used chunks parts :
  CouncilRAG.pack X used chunks = Ok parts →
  ∃ included rest,
    chunks = included ++ rest ∧
    formats X included parts ∧
    ((used ≤ CouncilRAG.RAG_MAX_TOKENS)%Z →
     (used + tokens_of included ≤ CouncilRAG.RAG_MAX_TOKENS)%Z) ∧
    match rest with
    | [] => True
    | ch :: _ =>
        (CouncilRAG.RAG_MAX_TOKENS
         < used + tokens_of included + CouncilRAG.est_tokens (CouncilRAG.c_text ch))%Z
    end.
Proof.
  revert used parts. induction chunks as [|ch chunks IH]; intros used parts; simpl.
  - intros [= <-]. exists [], []. split_and!; try done; [constructor|simpl; lia].
  - destruct (_ <? _)%Z eqn:Hover.
    + intros [= <-]. exists [], (ch :: chunks). split_and!; try done; [constructor|simpl; lia|].
      simpl. apply Z.ltb_lt in Hover. lia.
    + destruct (CouncilRAG._format_chunk X ch) as [part|] eqn:Hfmt; [|done].
      destruct (CouncilRAG.pack X _ chunks) as [parts'|] eqn:Hpack; [|done].
      intros [= <-]. apply Z.ltb_ge in Hover.
      destruct (IH _ _ Hpack) as (included & rest & -> & Hf & Hsum & Hrest).
      exists (ch :: included), rest. split_and!; [done|by constructor|simpl; lia|].
      destruct rest; [done|]. simpl. lia.
Qed.

(** The stages of a call of [CouncilRAG.retrieve]. *)
Lemma rag_retrieve_inv X c self query conv :
  (CouncilRAG.retrieve X c self query conv).1 = "" ∨
  ∃ hr results included rest parts,
    CouncilRAG.enabled self = true ∧
    CouncilRAG.hybrid_retriever self = Some hr ∧
    (HybridRetriever.retrieve X c hr query conv 10 (1 # 2) (1 # 2)).1 = Ok results ∧
    CouncilRAG.filtered_chunks results = included ++ rest ∧
    formats X included parts ∧
    (tokens_of included ≤ CouncilRAG.RAG_MAX_TOKENS)%Z ∧
    match rest with
    | [] => True
    | ch :: _ =>
        (CouncilRAG.RAG_MAX_TOKENS
         < tokens_of included + CouncilRAG.est_tokens (CouncilRAG.c_text ch))%Z
    end ∧
    (CouncilRAG.retrieve X c self query conv).1 = Py.join separator parts.
Proof.
  unfold CouncilRAG.retrieve, CouncilRAG.retrieve_try.
  destruct (CouncilRAG.enabled self) eqn:Hen; simpl; [|by left].
  destruct (CouncilRAG.hybrid_retriever self) as [hr|] eqn:Hhr; simpl; [|by left].
  destruct (HybridRetriever.retrieve X c hr query conv 10 (1 # 2) (1 # 2)).1
    as [results|] eqn:Hres; simpl; [|by left].
  unfold CouncilRAG.build_context.
  destruct (CouncilRAG.pack X 0 _) as [parts|] eqn:Hpack; simpl; [|by left].
  destruct (pack_inv _ _ _ _ Hpack) as (included & rest & Hsplit & Hf & Hsum & Hrest).
  right. exists hr, results, included, rest, parts. split_and!; try done.
  unfold CouncilRAG.RAG_MAX_TOKENS in *. lia.
Qed.


(** ** Reciprocal rank fusion *)

Lemma rrf_fused wl wd bm dn doc_id :
  (HybridRetriever.rrf wl wd bm dn doc_id
   == fused wl wd (rank_in bm doc_id) (rank_in dn doc_id))%Q.
Proof.
  unfold HybridRetriever.rrf, fused, rank_in, rrf_term, HybridRetriever.k_const.
  destruct (bm !! doc_id) as [[r1 s1]|]; destruct (dn !! doc_id) as [[r2 s2]|]; simpl; ring.
Qed.

Lemma rank_pos (r : nat) : (0 < 60 + inject_Z (Z.of_nat r))%Q.
Proof.
  assert (0 <= inject_Z (Z.of_nat r))%Q by (rewrite <-(Zle_Qle 0); lia). lra.
Qed.

(** One source alone, at its best rank, stays under the threshold. *)
Lemma rrf_term_half_bound (rank : option nat) :
  (∀ r, rank = Some r → (1 ≤ r)%nat) →
  (0 <= rrf_term (1 # 2) rank)%Q ∧ (rrf_term (1 # 2) rank <= (1 # 2) / (60 + 1))%Q.
Proof.
  intros Hr. destruct rank as [r|]; simpl; [|split; [lra|]; by vm_compute].
  specialize (Hr r eq_refl).
  assert (1 <= inject_Z (Z.of_nat r))%Q by (rewrite <-(Zle_Qle 1); lia).
  split.
  - apply Qle_shift_div_l; [apply rank_pos|]. lra.
  - apply Qle_shift_div_r; [apply rank_pos|].
    assert ((1 # 2) / (60 + 1) == 1 # 122)%Q as -> by reflexivity. lra.
Qed.

Lemma fused_single_source (rankLex rankDense : option nat) :
  (∀ r, rankLex = Some r → (1 ≤ r)%nat) →
  (∀ r, rankDense = Some r → (1 ≤ r)%nat) →
  rankLex = None ∨ rankDense = None →
  (fused (1 # 2) (1 # 2) rankLex rankDense <= (1 # 2) / (60 + 1))%Q ∧
  (fused (1 # 2) (1 # 2) rankLex rankDense < CouncilRAG.threshold)%Q.
Proof.
  intros H1 H2 Hnone.
  assert (fused (1 # 2) (1 # 2) rankLex rankDense <= (1 # 2) / (60 + 1))%Q as Hle.
  { unfold fused. destruct Hnone as [-> | ->]; simpl.
    - destruct (rrf_term_half_bound rankDense H2). lra.
    - destruct (rrf_term_half_bound rankLex H1). lra. }
  split; [done|]. eapply Qle_lt_trans; [exact Hle|]. by vm_compute.
Qed.

Lemma hit_score X c self corpus query conv top_k wl wd bm dn results h :
  HybridRetriever.bm25_index self = Some corpus →
  HybridRetriever.lexical X self corpus query conv top_k = Ok bm →
  HybridRetriever.dense X c query conv top_k = Ok dn →
  HybridRetriever.retrieve_indexed X c self query conv top_k wl wd = Ok results →
  h ∈ results →
  HybridRetriever.h_score h = HybridRetriever.rrf wl wd bm dn (HybridRetriever.h_id h) ∧
  HybridRetriever.h_id h ∈ set_iter X (Py.keys bm ++ Py.keys dn).
Proof.
  intros Hidx Hbm Hdn Hres Hh.
  apply retrieve_indexed_inv in Hres
    as [->|(corpus' & bm' & dn' & full & Hidx' & Hbm' & Hdn' & Hfull & ->)].
  { by apply elem_of_nil in Hh. }
  rewrite Hidx in Hidx'. injection Hidx' as <-.
  rewrite Hbm in Hbm'. injection Hbm' as <-.
  rewrite Hdn in Hdn'. injection Hdn' as <-.
  destruct (build_results_inv _ _ _ _ _ Hfull Hh) as [Hin _].
  apply elem_of_sorted_ids, elem_of_combined_scores in Hin as [??]. done.
Qed.

Lemma lexical_rank_ge_1 X self corpus query conv top_k bm doc_id r :
  HybridRetriever.lexical X self corpus query conv top_k = Ok bm →
  rank_in bm doc_id = Some r → (1 ≤ r)%nat.
Proof.
  unfold rank_in. intros Hbm Hr. destruct (bm !! doc_id) as [[r' s]|] eqn:Hl; simplify_eq/=.
  by destruct (lexical_inv _ _ _ _ _ _ _ _ _ _ Hbm Hl) as [[? _] _].
Qed.

Lemma dense_rank_ge_1 X c query conv top_k dn doc_id r :
  HybridRetriever.dense X c query conv top_k = Ok dn →
  rank_in dn doc_id = Some r → (1 ≤ r)%nat.
Proof.
  unfold rank_in. intros Hdn Hr. destruct (dn !! doc_id) as [[r' s]|] eqn:Hl; simplify_eq/=.
  by destruct (dense_inv _ _ _ _ _ _ _ _ _ Hdn Hl) as [[? _] _].
Qed.

Lemma rank_in_None (d : gmap string (nat * Q)) doc_id :
  rank_in d doc_id = None ↔ d !! doc_id = None.
Proof. unfold rank_in. by rewrite fmap_None. Qed.



(** C3. With the weights 0.5 and 0.5 and the threshold 0.01 a candidate
    listed by one source only scores at most [0.5 / (60 + 1)], which is
    below the threshold: it is skipped by the filter, and every block of
    the returned context comes from a document ranked by both sources. *)
Theorem single_source_dropped X c hr hr' corpus query conv bm dn results :
  HybridRetriever._ensure_index c hr = Ok hr' →
  HybridRetriever.bm25_index hr' = Some corpus →
  HybridRetriever.lexical X hr' corpus query conv 10 = Ok bm →
  HybridRetriever.dense X c query conv 10 = Ok dn →
  (HybridRetriever.retrieve X c hr query conv 10 (1 # 2) (1 # 2)).1 = Ok results →
  (∀ h, h ∈ results →
     bm !! HybridRetriever.h_id h = None ∨ dn !! HybridRetriever.h_id h = None →
     (HybridRetriever.h_score h <= (1 # 2) / (60 + 1))%Q ∧
     (HybridRetriever.h_score h < CouncilRAG.threshold)%Q ∧
     CouncilRAG.to_chunk h ∉ CouncilRAG.filtered_chunks results) ∧
  (∀ ch, ch ∈ CouncilRAG.filtered_chunks results →
     is_Some (bm !! CouncilRAG.c_id ch) ∧ is_Some (dn !! CouncilRAG.c_id ch)) ∧
  (∀ self, CouncilRAG.hybrid_retriever self = Some hr →
     ∃ included parts,
       (CouncilRAG.retrieve X c self query conv).1 = Py.join separator parts ∧
       formats X included parts ∧
       included `prefix_of` CouncilRAG.filtered_chunks results ∧
       ∀ ch, ch ∈ included →
         is_Some (bm !! CouncilRAG.c_id ch) ∧ is_Some (dn !! CouncilRAG.c_id ch)).
Proof.
  intros Hens Hidx Hbm Hdn Hres.
  unfold HybridRetriever.retrieve in Hres. rewrite Hens in Hres. simpl in Hres.
  assert (∀ h, h ∈ results →
     bm !! HybridRetriever.h_id h = None ∨ dn !! HybridRetriever.h_id h = None →
     (HybridRetriever.h_score h <= (1 # 2) / (60 + 1))%Q ∧
     (HybridRetriever.h_score h < CouncilRAG.threshold)%Q) as Hsingle.
  { intros h Hh Hnone.
    destruct (hit_score _ _ _ _ _ _ _ _ _ _ _ _ _ Hidx Hbm Hdn Hres Hh) as [Hs _].
    rewrite Hs, rrf_fused. apply fused_single_source.
    - intros r. by eapply lexical_rank_ge_1.
    - intros r. by eapply dense_rank_ge_1.
    - by rewrite !rank_in_None. }
  assert (∀ ch, ch ∈ CouncilRAG.filtered_chunks results →
     is_Some (bm !! CouncilRAG.c_id ch) ∧ is_Some (dn !! CouncilRAG.c_id ch)) as Hboth.
  { intros ch (h & -> & [Hpass Hh]%list_elem_of_filter)%list_elem_of_fmap. simpl.
    unfold Py.Qltb in Hpass. apply negb_false_iff, Qle_bool_iff in Hpass.
    destruct (bm !! HybridRetriever.h_id h) eqn:Hb, (dn !! HybridRetriever.h_id h) eqn:Hd;
      [by eauto|exfalso..].
    all: destruct (Hsingle h Hh) as [_ Hlt]; [rewrite ?Hb, ?Hd; by eauto|].
    all: by apply Qlt_not_le in Hlt. }
  split_and!; [|done|].
  - intros h Hh Hnone. destruct (Hsingle h Hh Hnone) as [Hle Hlt]. split_and!; [done..|].
    intros Hin. destruct (Hboth _ Hin) as [[? Hb] [? Hd]]. simpl in *.
    destruct Hnone; congruence.
  - intros self Hself.
    destruct (rag_retrieve_inv X c self query conv)
      as [Hempty|(hr0 & results0 & included & rest & parts & _ & Hhr & Hres0 & Hsplit & Hf & _ & _ & Hout)].
    { exists [], []. split_and!; [done|constructor|apply prefix_nil|]. by intros ? ?%elem_of_nil. }
    rewrite Hself in Hhr. injection Hhr as <-.
    unfold HybridRetriever.retrieve in Hres0. rewrite Hens in Hres0. simpl in Hres0.
    rewrite Hres in Hres0. injection Hres0 as <-.
    exists included, parts. split_and!; [done..|by exists rest|].
    intros ch Hch. apply Hboth. rewrite Hsplit. apply elem_of_app. by left.
Qed.

(** A result that passes the threshold of [CouncilRAG.retrieve] is one the
    collection returned for the requested conversation. *)
Lemma passing_hit_in_dense X c self query conv results h :
  HybridRetriever.retrieve_indexed X c self query conv 10 (1 # 2) (1 # 2) = Ok results →
  h ∈ results →
  (CouncilRAG.threshold <= HybridRetriever.h_score h)%Q →
  ∃ e, Chroma.docs c !! HybridRetriever.h_id h = Some e ∧
       in_conversation (Chroma.e_meta e) conv = true.
Proof.
  intros Hres Hh Hpass.
  destruct (retrieve_indexed_inv _ _ _ _ _ _ _ _ _ Hres)
    as [->|(corpus & bm & dn & full & Hidx & Hbm & Hdn & _ & _)].
  { by apply elem_of_nil in Hh. }
  destruct (hit_score _ _ _ _ _ _ _ _ _ _ _ _ _ Hidx Hbm Hdn Hres Hh) as [Hs _].
  destruct (dn !! HybridRetriever.h_id h) as [[r s]|] eqn:Hd.
  - destruct (dense_inv _ _ _ _ _ _ _ _ _ Hdn Hd) as (_ & found & d & e & _ & _ & ? & ?).
    by exists e.
  - exfalso. eapply Qlt_not_le; [|exact Hpass]. rewrite Hs, rrf_fused.
    apply fused_single_source.
    + intros r. by eapply lexical_rank_ge_1.
    + intros r. by eapply dense_rank_ge_1.
    + right. by apply rank_in_None.
Qed.

(** What holds of conversation isolation. A document of another
    conversation is never in the list [HybridRetriever.retrieve] returns
    when the snapshot of the lexical index records, for each identifier,
    the conversation the collection records for it (as it does once
    rebuilt), and never in the context [CouncilRAG.retrieve] returns. *)
Theorem conversation_isolation X c hr query A B :
  ExternalsOk X →
  A ≠ B →
  snapshot_current hr c →
  (∀ top_k wl wd results h,
     (HybridRetriever.retrieve X c hr query B top_k wl wd).1 = Ok results →
     h ∈ results →
     HybridRetriever.h_metadata h !! "conversation_id" ≠ Some (VStr A)) ∧
  (∀ self self_query,
     ∃ included parts,
       (CouncilRAG.retrieve X c self self_query B).1 = Py.join separator parts ∧
       formats X included parts ∧
       ∀ ch, ch ∈ included →
         CouncilRAG.c_metadata ch !! "conversation_id" ≠ Some (VStr A) ∧
         ∃ hr' results h,
           CouncilRAG.hybrid_retriever self = Some hr' ∧
           (HybridRetriever.retrieve X c hr' self_query B 10 (1 # 2) (1 # 2)).1 = Ok results ∧
           h ∈ results ∧ ch = CouncilRAG.to_chunk h).
Proof.
  intros HX HAB Hcur. split.
  - intros top_k wl wd results h Hres Hh.
    destruct (retrieve_scoped _ _ _ _ _ _ _ _ _ _ HX Hcur Hres Hh) as [-> | ->].
    + by rewrite lookup_empty.
    + congruence.
  - intros self q.
    destruct (rag_retrieve_inv X c self q B)
      as [Hempty|(hr0 & results & included & rest & parts & _ & Hhr0 & Hres & Hsplit & Hf & _ & _ & Hout)].
    { exists [], []. split_and!; [done|constructor|]. by intros ? ?%elem_of_nil. }
    exists included, parts. split_and!; [done..|].
    intros ch Hch.
    assert (ch ∈ CouncilRAG.filtered_chunks results) as Hin.
    { rewrite Hsplit. apply elem_of_app. by left. }
    apply list_elem_of_fmap in Hin as (h & -> & [Hpass Hh]%list_elem_of_filter).
    split; [|by exists hr0, results, h]. simpl.
    unfold Py.Qltb in Hpass. apply negb_false_iff, Qle_bool_iff in Hpass.
    unfold HybridRetriever.retrieve in Hres.
    destruct (HybridRetriever._ensure_index c hr0) as [hr'|]; [|done]. simpl in Hres.
    destruct (passing_hit_in_dense _ _ _ _ _ _ _ Hres Hh Hpass) as (e & He & Hc).
    apply in_conversation_spec in Hc.
    destruct (retrieve_indexed_inv _ _ _ _ _ _ _ _ _ Hres)
      as [->|(corpus & bm & dn & full & _ & _ & _ & Hfull & ->)].
    { by apply elem_of_nil in Hh. }
    destruct (build_results_inv _ _ _ _ _ Hfull Hh) as [_ [[-> _]|(e' & He' & -> & _)]].
    + by rewrite lookup_empty.
    + congruence.
Qed.

(** C4. The cost of a chunk is thirteen tenths of its word count, rounded
    down. When the context is assembled, the blocks are those of a prefix
    of the candidates whose costs sum to at most 3000; the candidate after
    that prefix, if any, would exceed the budget, and neither it nor any
    later one contributes a block. *)
Theorem token_budget X c self hr query conv results parts :
  CouncilRAG.enabled self = true →
  CouncilRAG.hybrid_retriever self = Some hr →
  (HybridRetriever.retrieve X c hr query conv 10 (1 # 2) (1 # 2)).1 = Ok results →
  CouncilRAG.pack X 0 (CouncilRAG.filtered_chunks results) = Ok parts →
  (∀ text, (10 * CouncilRAG.est_tokens text ≤ 13 * Z.of_nat (length (Py.split text))
            < 10 * CouncilRAG.est_tokens text + 10)%Z) ∧
  (CouncilRAG.retrieve X c self query conv).1 = Py.join separator parts ∧
  ∃ included rest,
    CouncilRAG.filtered_chunks results = included ++ rest ∧
    formats X included parts ∧
    (tokens_of included ≤ 3000)%Z ∧
    match rest with
    | [] => True
    | ch :: _ =>
        (3000 < tokens_of included + CouncilRAG.est_tokens (CouncilRAG.c_text ch))%Z
    end.
Proof.
  intros Hen Hhr Hres Hpack. split_and!.
  - intros text. unfold CouncilRAG.est_tokens.
    pose proof (Z.div_mod (Z.of_nat (length (Py.split text)) * 13) 10 ltac:(lia)).
    pose proof (Z.mod_pos_bound (Z.of_nat (length (Py.split text)) * 13) 10 ltac:(lia)).
    lia.
  - unfold CouncilRAG.retrieve, CouncilRAG.retrieve_try, CouncilRAG.build_context.
    rewrite Hen, Hhr. simpl. rewrite Hres. simpl. by rewrite Hpack.
  - destruct (pack_inv _ _ _ _ Hpack) as (included & rest & Hsplit & Hf & Hsum & Hrest).
    exists included, rest. unfold CouncilRAG.RAG_MAX_TOKENS in *. split_and!; [done..|lia|].
    destruct rest; [done|]. lia.
Qed.

Lemma retrieve_indexed_sorted X c self query conv top_k wl wd results :
  HybridRetriever.retrieve_indexed X c self query conv top_k wl wd = Ok results →
  StronglySorted (λ a b, (HybridRetriever.h_score b <= HybridRetriever.h_score a)%Q) results.
Proof.
  intros [->|(corpus & bm & dn & full & _ & _ & _ & _ & ->)]%retrieve_indexed_inv;
    [constructor|].
  unfold HybridRetriever.build_results.
  apply (StronglySorted_fmap _ (λ a b : string * Q, (b.2 <= a.2)%Q)).
  { by intros [] []. }
  apply StronglySorted_take.
  eapply (StronglySorted_impl (λ a b : string * Q, Qle_bool b.2 a.2 = true)).
  { intros ??. apply Qle_bool_iff. }
  apply sort_by_sorted.
  - intros x y Hxy. apply Qle_bool_iff.
    apply Qlt_le_weak, Qnot_le_lt. intros Hle%Qle_bool_iff. congruence.
  - intros x y z Hxy%Qle_bool_iff Hyz%Qle_bool_iff. apply Qle_bool_iff.
    by eapply Qle_trans.
Qed.

(** C5. The blocks of the context follow the fused ranking: the results
    of the hybrid retriever are in descending order of fused score, and the
    blocks are those of a subsequence of the results, in the same order. *)
Theorem order_preserved X c self hr query conv results parts :
  CouncilRAG.enabled self = true →
  CouncilRAG.hybrid_retriever self = Some hr →
  (HybridRetriever.retrieve X c hr query conv 10 (1 # 2) (1 # 2)).1 = Ok results →
  CouncilRAG.pack X 0 (CouncilRAG.filtered_chunks results) = Ok parts →
  StronglySorted (λ a b, (HybridRetriever.h_score b <= HybridRetriever.h_score a)%Q) results ∧
  (CouncilRAG.retrieve X c self query conv).1 = Py.join separator parts ∧
  ∃ kept,
    kept `sublist_of` results ∧
    StronglySorted (λ a b, (HybridRetriever.h_score b <= HybridRetriever.h_score a)%Q) kept ∧
    formats X (CouncilRAG.to_chunk <$> kept) parts.
Proof.
  intros Hen Hhr Hres Hpack.
  assert (StronglySorted
            (λ a b, (HybridRetriever.h_score b <= HybridRetriever.h_score a)%Q) results)
    as Hsorted.
  { unfold HybridRetriever.retrieve in Hres.
    destruct (HybridRetriever._ensure_index c hr); [|done].
    by eapply retrieve_indexed_sorted. }
  split_and!; [done| |].
  - unfold CouncilRAG.retrieve, CouncilRAG.retrieve_try, CouncilRAG.build_context.
    rewrite Hen, Hhr. simpl. rewrite Hres. simpl. by rewrite Hpack.
  - destruct (pack_inv _ _ _ _ Hpack) as (included & rest & Hsplit & Hf & _ & _).
    unfold CouncilRAG.filtered_chunks in Hsplit.
    apply fmap_app_inv in Hsplit as (kept & dropped & -> & -> & Hfilter).
    assert (kept `sublist_of` results) as Hsub.
    { trans (filter (λ res, Py.Qltb (HybridRetriever.h_score res) CouncilRAG.threshold = false)
               results); [|apply sublist_filter].
      rewrite Hfilter. by apply sublist_inserts_r. }
    exists kept. split_and!; [done| |done].
    by eapply StronglySorted_sublist.
Qed.

(** C6. [CouncilRAG.retrieve] returns a string on every input: the empty
    string at once when the engine is disabled, and the empty string when
    the [try] block raises, whichever step raised (a failing call of the
    collection, a missing metadata field, or anything else). *)
Theorem retrieve_never_raises X c self query conv :
  (CouncilRAG.enabled self = false →
   CouncilRAG.retrieve X c self query conv = ("", self)) ∧
  (∀ e,
     (CouncilRAG.retrieve_try X c (CouncilRAG.hybrid_retriever self) query conv).1 = Raise e →
     (CouncilRAG.retrieve X c self query conv).1 = "") ∧
  (∀ hr e,
     CouncilRAG.hybrid_retriever self = Some hr →
     (HybridRetriever.retrieve X c hr query conv 10 (1 # 2) (1 # 2)).1 = Raise e →
     (CouncilRAG.retrieve X c self query conv).1 = "") ∧
  (∀ hr results e,
     CouncilRAG.hybrid_retriever self = Some hr →
     (HybridRetriever.retrieve X c hr query conv 10 (1 # 2) (1 # 2)).1 = Ok results →
     CouncilRAG.build_context X results = Raise e →
     (CouncilRAG.retrieve X c self query conv).1 = "") ∧
  (∀ hr,
     HybridRetriever.bm25_index hr = None → Chroma.fails c Chroma.OpScan = true →
     (HybridRetriever.retrieve X c hr query conv 10 (1 # 2) (1 # 2)).1 = Raise StoreError) ∧
  (∀ hr corpus,
     HybridRetriever.bm25_index hr = Some corpus → HybridRetriever.doc_ids hr ≠ [] →
     Chroma.fails c Chroma.OpQuery = true →
     ∃ e, (HybridRetriever.retrieve X c hr query conv 10 (1 # 2) (1 # 2)).1 = Raise e) ∧
  (∀ context,
     CouncilRAG.enabled self = true →
     (CouncilRAG.retrieve_try X c (CouncilRAG.hybrid_retriever self) query conv).1 = Ok context →
     (CouncilRAG.retrieve X c self query conv).1 = context).
Proof.
  assert (∀ e,
     (CouncilRAG.retrieve_try X c (CouncilRAG.hybrid_retriever self) query conv).1 = Raise e →
     (CouncilRAG.retrieve X c self query conv).1 = "") as Hcatch.
  { intros e He. unfold CouncilRAG.retrieve.
    destruct (CouncilRAG.enabled self); simpl; [|done]. by rewrite He. }
  split_and!.
  - intros Hen. unfold CouncilRAG.retrieve. by rewrite Hen.
  - done.
  - intros hr e Hhr He. apply (Hcatch e). unfold CouncilRAG.retrieve_try.
    rewrite Hhr. simpl. by rewrite He.
  - intros hr results e Hhr Hres He. apply (Hcatch e). unfold CouncilRAG.retrieve_try.
    rewrite Hhr. simpl. by rewrite Hres.
  - intros hr Hidx Hfail. unfold HybridRetriever.retrieve, HybridRetriever._ensure_index,
      HybridRetriever._rebuild_bm25_index, Chroma.get_all.
    by rewrite Hidx, Hfail.
  - intros hr corpus Hidx Hids Hfail.
    unfold HybridRetriever.retrieve, HybridRetriever._ensure_index. rewrite Hidx. simpl.
    unfold HybridRetriever.retrieve_indexed. rewrite Hidx.
    destruct (HybridRetriever.doc_ids hr) eqn:Hd; [done|]. simpl.
    destruct (HybridRetriever.lexical _ _ _ _ _ _) as [bm|e]; simpl; [|by exists e].
    unfold HybridRetriever.dense, Chroma.query. rewrite Hfail. simpl. by exists StoreError.
  - intros context Hen Hctx. unfold CouncilRAG.retrieve. rewrite Hen. simpl. by rewrite Hctx.
Qed.

(** C10. When the scan of the collection returns no document, rebuilding
    the index succeeds and leaves it in the empty state, and a retrieval in
    that state, the collection still being empty, returns the empty list
    and the empty context. *)
Theorem empty_collection_safe X c :
  Chroma.get_all c = Ok [] →
  HybridRetriever._rebuild_bm25_index c = Ok HybridRetriever.init ∧
  HybridRetriever.refresh_index c HybridRetriever.init = Ok HybridRetriever.init ∧
  HybridRetriever.bm25_index HybridRetriever.init = None ∧
  HybridRetriever.doc_ids HybridRetriever.init = [] ∧
  ∀ c' query conv,
    Chroma.get_all c' = Ok [] →
    (∀ top_k wl wd,
       HybridRetriever.retrieve X c' HybridRetriever.init query conv top_k wl wd
       = (Ok [], HybridRetriever.init)) ∧
    (∀ self, CouncilRAG.hybrid_retriever self = Some HybridRetriever.init →
       CouncilRAG.retrieve X c' self query conv = ("", self)).
Proof.
  intros Hscan.
  assert (∀ c', Chroma.get_all c' = Ok [] →
            HybridRetriever._rebuild_bm25_index c' = Ok HybridRetriever.init) as Hreb.
  { intros c' Hc'. unfold HybridRetriever._rebuild_bm25_index. by rewrite Hc'. }
  split_and!; [by apply Hreb|by apply Hreb|done..|].
  intros c' query conv Hc'.
  assert (∀ top_k wl wd,
       HybridRetriever.retrieve X c' HybridRetriever.init query conv top_k wl wd
       = (Ok [], HybridRetriever.init)) as Hret.
  { intros. unfold HybridRetriever.retrieve, HybridRetriever._ensure_index. simpl.
    by rewrite (Hreb c' Hc'). }
  split; [done|].
  intros [en hr] Hself. simpl in Hself. subst hr.
  unfold CouncilRAG.retrieve, CouncilRAG.retrieve_try. simpl.
  destruct en; simpl; [|done]. by rewrite Hret.
Qed.


(** ** Missing metadata *)

Lemma format_chunk_raises X ch e :
  CouncilRAG._format_chunk X ch = Raise e → ∃ key, e = KeyError key.
Proof.
  unfold CouncilRAG._format_chunk.
  destruct (CouncilRAG.c_metadata ch !! "turn_index"); simpl; [|intros [= <-]; eauto].
  destruct (CouncilRAG.c_metadata ch !! "stage"); simpl; [|intros [= <-]; eauto].
  destruct (CouncilRAG.c_metadata ch !! "model"); simpl; [done|intros [= <-]; eauto].
Qed.

Lemma format_chunk_lacks X ch :
  lacks_field ch ↔ ∃ key, CouncilRAG._format_chunk X ch = Raise (KeyError key).
Proof.
  unfold lacks_field, CouncilRAG._format_chunk.
  destruct (CouncilRAG.c_metadata ch !! "turn_index"); simpl;
    [|split; [by eexists|by auto]].
  destruct (CouncilRAG.c_metadata ch !! "stage"); simpl;
    [|split; [by eexists|by auto]].
  destruct (CouncilRAG.c_metadata ch !! "model"); simpl;
    [|split; [by eexists|by auto]].
  split; [intros [?|[?|?]]; congruence|intros [? ?]; discriminate].
Qed.

Lemma pack_lacks X used included ch rest :
  (used + tokens_of (included ++ [ch]) ≤ CouncilRAG.RAG_MAX_TOKENS)%Z →
  lacks_field ch →
  ∃ key, CouncilRAG.pack X used (included ++ ch :: rest) = Raise (KeyError key).
Proof.
  revert used. induction included as [|x included IH]; intros used Hsum Hlack; simpl in *.
  - destruct (_ <? _)%Z eqn:Hover; [apply Z.ltb_lt in Hover; lia|].
    apply (format_chunk_lacks X) in Hlack as [key ->]. by exists key.
  - pose proof (tokens_of_nonneg (included ++ [ch])).
    destruct (_ <? _)%Z eqn:Hover; [apply Z.ltb_lt in Hover; lia|].
    destruct (CouncilRAG._format_chunk X x) as [part|e] eqn:Hfmt.
    + destruct (IH (used + CouncilRAG.est_tokens (CouncilRAG.c_text x))%Z) as [key ->];
        [lia|done|]. by exists key.
    + apply format_chunk_raises in Hfmt as [key ->]. by exists key.
Qed.

Lemma make_metadata_lookup conv turn stage model topics quality timestamp :
  let m := CouncilRAG.make_metadata conv turn stage model topics quality timestamp in
  m !! "conversation_id" = Some (VStr conv) ∧
  m !! "turn_index" = Some (VInt turn) ∧
  m !! "stage" = Some (VStr stage) ∧
  m !! "model" = Some (VStr model) ∧
  m !! "avg_rank" = Some (VFloat (default 999%Q (quality !! "avg_rank"))) ∧
  m !! "consensus_score" = Some (VFloat (default 0%Q (quality !! "consensus_score"))) ∧
  m !! "timestamp" = Some (VStr timestamp).
Proof.
  unfold CouncilRAG.make_metadata, Py.dict. simpl. split_and!; by simplify_map_eq.
Qed.

Lemma elem_of_session_docs X timestamp conv turn uq stage1 stage3 topics quality doc_id e :
  (doc_id, e) ∈ CouncilRAG.session_docs X timestamp conv turn uq stage1 stage3 topics quality →
  ∃ stage model text,
    Chroma.e_doc e = CouncilRAG.format_text uq text ∧
    Chroma.e_meta e =
      CouncilRAG.make_metadata conv turn stage model (json_dumps X topics)
        (default ∅ (quality !! model)) timestamp.
Proof.
  unfold CouncilRAG.session_docs. intros [Hin|Hin]%elem_of_app.
  - unfold CouncilRAG.opinion_docs in Hin.
    apply list_elem_of_fmap in Hin as ([idx res] & [= -> ->] & _). simpl. eauto.
  - unfold CouncilRAG.synthesis_docs in Hin.
    destruct (default "" (CouncilRAG.s_response stage3)) eqn:Htext; [by apply elem_of_nil in Hin|].
    apply list_elem_of_singleton in Hin as [= -> ->]. simpl. eauto.
Qed.

(** C9, as the code has it. On the write path a quality metric that is
    missing for a model is stored as the default: 999.0 for [avg_rank],
    0.0 for [consensus_score]. On the read path a chunk within the token
    budget whose metadata lacks [turn_index], [stage] or [model] makes
    [_format_chunk] raise [KeyError]; [retrieve] catches it and returns the
    empty string. *)
Theorem missing_metadata X :
  (∀ timestamp conv turn uq stage1 stage3 topics
     (quality : gmap string (gmap string Q)) doc_id e,
     (doc_id, e) ∈ CouncilRAG.session_docs X timestamp conv turn uq stage1 stage3 topics quality →
     ∃ model,
       Chroma.e_meta e !! "model" = Some (VStr model) ∧
       (quality !! model = None →
        Chroma.e_meta e !! "avg_rank" = Some (VFloat 999) ∧
        Chroma.e_meta e !! "consensus_score" = Some (VFloat 0)) ∧
       (∀ q, quality !! model = Some q →
        Chroma.e_meta e !! "avg_rank" = Some (VFloat (default 999%Q (q !! "avg_rank"))) ∧
        Chroma.e_meta e !! "consensus_score"
          = Some (VFloat (default 0%Q (q !! "consensus_score"))))) ∧
  (∀ ch, lacks_field ch ↔ ∃ key, CouncilRAG._format_chunk X ch = Raise (KeyError key)) ∧
  (∀ c self hr query conv results included ch rest,
     CouncilRAG.hybrid_retriever self = Some hr →
     (HybridRetriever.retrieve X c hr query conv 10 (1 # 2) (1 # 2)).1 = Ok results →
     CouncilRAG.filtered_chunks results = included ++ ch :: rest →
     (tokens_of (included ++ [ch]) ≤ 3000)%Z →
     lacks_field ch →
     (∃ key, CouncilRAG.build_context X results = Raise (KeyError key)) ∧
     (CouncilRAG.retrieve X c self query conv).1 = "").
Proof.
  split_and!.
  - intros timestamp conv turn uq stage1 stage3 topics quality doc_id e Hin.
    apply elem_of_session_docs in Hin as (stage & model & text & _ & ->).
    exists model.
    destruct (make_metadata_lookup conv turn stage model (json_dumps X topics)
                (default ∅ (quality !! model)) timestamp) as (_ & _ & _ & Hm & Ha & Hc & _).
    split_and!; [done| |].
    + intros Hq. rewrite Hq in Ha, Hc |- *. simpl in *.
      rewrite lookup_empty in Ha, Hc. done.
    + intros q Hq. rewrite Hq in Ha, Hc |- *. done.
  - apply format_chunk_lacks.
  - intros c self hr query conv results included ch rest Hhr Hres Hsplit Hsum Hlack.
    assert (∃ key, CouncilRAG.build_context X results = Raise (KeyError key)) as [key Hkey].
    { unfold CouncilRAG.build_context. rewrite Hsplit.
      destruct (pack_lacks X 0 included ch rest) as [key ->]; [|done|by exists key].
      unfold CouncilRAG.RAG_MAX_TOKENS. lia. }
    split; [by exists key|].
    unfold CouncilRAG.retrieve, CouncilRAG.retrieve_try.
    destruct (CouncilRAG.enabled self); simpl; [|done].
    rewrite Hhr. simpl. rewrite Hres. simpl. by rewrite Hkey.
Qed.

(** ** The write path *)

Lemma foldl_insert_union {V} (m : gmap string V) (l : list (string * V)) :
  foldl (λ m kv, <[kv.1 := kv.2]> m) m l = list_to_map (reverse l) ∪ m.
Proof.
  revert m. induction l as [|[k v] l IH]; intros m; simpl.
  - by rewrite (left_id_L ∅ (∪)).
  - rewrite IH, reverse_cons, list_to_map_app. simpl.
    rewrite <-(assoc_L (∪)). f_equal.
    by rewrite insert_union_singleton_l, insert_empty.
Qed.

Lemma session_docs_retime X t1 t2 conv turn uq stage1 stage3 topics quality :
  CouncilRAG.session_docs X t2 conv turn uq stage1 stage3 topics quality
  = prod_map id (retime t2)
      <$> CouncilRAG.session_docs X t1 conv turn uq stage1 stage3 topics quality.
Proof.
  assert (∀ stage model q,
    CouncilRAG.make_metadata conv turn stage model (json_dumps X topics) q t2
    = <["timestamp" := VStr t2]>
        (CouncilRAG.make_metadata conv turn stage model (json_dumps X topics) q t1)) as Hmeta.
  { intros. unfold CouncilRAG.make_metadata, Py.dict. simpl. by rewrite insert_insert_eq. }
  unfold CouncilRAG.session_docs. rewrite fmap_app. f_equal.
  - unfold CouncilRAG.opinion_docs. rewrite <-list_fmap_compose.
    apply list_fmap_ext. intros i [idx res] _. unfold prod_map, retime. simpl.
    by rewrite Hmeta.
  - unfold CouncilRAG.synthesis_docs.
    destruct (default "" (CouncilRAG.s_response stage3)); [done|].
    simpl. unfold prod_map, retime. simpl. by rewrite Hmeta.
Qed.

Lemma retime_lookup t e key :
  key ≠ "timestamp" → Chroma.e_meta (retime t e) !! key = Chroma.e_meta e !! key.
Proof. intros. unfold retime. simpl. by rewrite lookup_insert_ne. Qed.


(** ** Document identifiers *)

Lemma string_app_inv_head (p a b : string) : p +:+ a = p +:+ b → a = b.
Proof. induction p as [|x p IH]; simpl; [done|]. intros [= ?]. auto. Qed.

Lemma pretty_N_go_colon_free x s : colon_free s → colon_free (pretty_N_go x s).
Proof.
  revert s. induction (N.lt_wf_0 x) as [x _ IH]; intros s Hs.
  destruct (decide (x = 0)%N) as [->|Hx]; [by rewrite pretty_N_go_0|].
  rewrite pretty_N_go_step by lia. apply IH.
  { apply N.div_lt; lia. }
  split; [|done]. unfold pretty_N_char. by repeat case_match.
Qed.

Lemma pretty_nat_colon_free (n : nat) : colon_free (pretty n).
Proof.
  unfold pretty, pretty_nat, pretty, pretty_N. case_decide; [by compute|].
  by apply pretty_N_go_colon_free.
Qed.

Lemma colon_free_prefix (s1 s2 r1 r2 : string) :
  colon_free s1 → colon_free s2 →
  s1 +:+ ":" +:+ r1 = s2 +:+ ":" +:+ r2 → s1 = s2.
Proof.
  revert s2. induction s1 as [|a s1 IH]; intros [|b s2]; simpl; try done.
  - intros _ [Hb _] [= <- _]. by destruct Hb.
  - intros [Ha _] _ [= -> _]. by destruct Ha.
  - intros [_ H1] [_ H2] [= -> Heq]. f_equal. by apply IH.
Qed.

Lemma NoDup_enumerate_from {A} (l : list A) start : NoDup (Py.enumerate_from start l).*1.
Proof.
  revert start. induction l as [|x l IH]; intros start; simpl; [constructor|].
  constructor; [|apply IH].
  intros ([i y] & Heq & Hin)%list_elem_of_fmap. simpl in Heq. subst i.
  apply elem_of_enumerate_from in Hin as [? _]. lia.
Qed.

Lemma session_docs_NoDup X timestamp conv turn uq stage1 stage3 topics quality :
  NoDup (CouncilRAG.session_docs X timestamp conv turn uq stage1 stage3 topics quality).*1.
Proof.
  unfold CouncilRAG.session_docs. rewrite fmap_app. apply NoDup_app. split_and!.
  - unfold CouncilRAG.opinion_docs. rewrite <-list_fmap_compose.
    apply NoDup_fmap_2_strong; [|eapply NoDup_fmap_1, NoDup_enumerate_from].
    intros [i a] [j b] Ha Hb Heq. simpl in Heq.
    do 4 apply string_app_inv_head in Heq.
    apply colon_free_prefix in Heq; [|apply pretty_nat_colon_free..].
    apply (inj pretty) in Heq as ->.
    apply elem_of_enumerate_from in Ha as [_ Ha]. apply elem_of_enumerate_from in Hb as [_ Hb].
    congruence.
  - intros doc_id Hop Hsyn.
    unfold CouncilRAG.opinion_docs in Hop. rewrite <-list_fmap_compose in Hop.
    apply list_elem_of_fmap in Hop as ([i a] & -> & _).
    unfold CouncilRAG.synthesis_docs in Hsyn.
    destruct (default "" (CouncilRAG.s_response stage3)); [by apply elem_of_nil in Hsyn|].
    apply list_elem_of_singleton in Hsyn. simpl in Hsyn.
    do 3 apply string_app_inv_head in Hsyn. discriminate.
  - unfold CouncilRAG.synthesis_docs.
    destruct (default "" (CouncilRAG.s_response stage3)); simpl; [constructor|].
    apply NoDup_singleton.
Qed.

Lemma upsert_inv c batch c' :
  Chroma.upsert c batch = Ok c' →
  Chroma.fails c Chroma.OpUpsert = false ∧
  Chroma.fails c' = Chroma.fails c ∧
  Chroma.docs c' = list_to_map (reverse batch) ∪ Chroma.docs c.
Proof.
  unfold Chroma.upsert. destruct (Chroma.fails c Chroma.OpUpsert); [done|].
  intros [= <-]. simpl. by rewrite foldl_insert_union.
Qed.

(** Writing a batch again, each record changed by [f], leaves what writing
    the changed batch once leaves. *)
Lemma upsert_twice c batch f c1 c2 :
  Chroma.upsert c batch = Ok c1 →
  Chroma.upsert c1 (prod_map id f <$> batch) = Ok c2 →
  Chroma.upsert c (prod_map id f <$> batch) = Ok c2 ∧
  dom (Chroma.docs c2) = dom (Chroma.docs c1) ∧
  ∀ doc_id e1, Chroma.docs c1 !! doc_id = Some e1 →
    Chroma.docs c2 !! doc_id = Some e1 ∨ Chroma.docs c2 !! doc_id = Some (f e1).
Proof.
  intros H1 H2.
  destruct (upsert_inv _ _ _ H1) as (Hf1 & Hfs1 & Hd1).
  destruct (upsert_inv _ _ _ H2) as (Hf2 & Hfs2 & Hd2).
  rewrite <-fmap_reverse, list_to_map_fmap in Hd2.
  set (L := list_to_map (reverse batch) : gmap string Chroma.entry) in *.
  assert (Chroma.docs c2 = (f <$> L) ∪ Chroma.docs c) as Hd2'.
  { rewrite Hd2, Hd1. apply map_eq. intros k.
    rewrite !lookup_union, lookup_fmap. by destruct (L !! k), (Chroma.docs c !! k). }
  split_and!.
  - unfold Chroma.upsert. rewrite Hf1. f_equal.
    destruct c2 as [d2 fs2]. simpl in *. subst fs2. rewrite Hfs1. f_equal.
    by rewrite foldl_insert_union, <-fmap_reverse, list_to_map_fmap.
  - rewrite Hd2', Hd1, !dom_union_L, dom_fmap_L. done.
  - intros k e1. rewrite Hd2', Hd1, !lookup_union, lookup_fmap.
    destruct (L !! k) as [e|], (Chroma.docs c !! k); simpl; intros [= <-]; auto.
Qed.

(** C7, as the code has it. Two calls of [index_session] with the same
    arguments build the same identifiers, of the two documented forms and
    pairwise distinct. After the second call the collection holds the same
    identifiers as after the first, each with the same document text and
    the same metadata except for the field [timestamp], which is that of
    the second call: the collection is the one a single call at the later
    time leaves. *)
Theorem index_session_idempotent X c self conv turn uq stage1 stage3 topics quality
    t1 t2 c1 c2 :
  CouncilRAG.index_session X t1 c self conv turn uq stage1 stage3 topics quality = Ok c1 →
  CouncilRAG.index_session X t2 c1 self conv turn uq stage1 stage3 topics quality = Ok c2 →
  let batch1 := CouncilRAG.session_docs X t1 conv turn uq stage1 stage3 topics quality in
  let batch2 := CouncilRAG.session_docs X t2 conv turn uq stage1 stage3 topics quality in
  batch1.*1 = batch2.*1 ∧
  NoDup batch1.*1 ∧
  (∀ doc_id, doc_id ∈ batch1.*1 →
     (∃ (ordinal : nat) model,
        doc_id = conv +:+ ":turn:" +:+ pretty turn +:+ ":opinion:"
                   +:+ pretty ordinal +:+ ":" +:+ model) ∨
     (∃ model, doc_id = conv +:+ ":turn:" +:+ pretty turn +:+ ":synthesis:" +:+ model)) ∧
  dom (Chroma.docs c2) = dom (Chroma.docs c1) ∧
  (∀ doc_id e1, Chroma.docs c1 !! doc_id = Some e1 →
     ∃ e2, Chroma.docs c2 !! doc_id = Some e2 ∧
           Chroma.e_doc e2 = Chroma.e_doc e1 ∧
           ∀ key, key ≠ "timestamp" → Chroma.e_meta e2 !! key = Chroma.e_meta e1 !! key) ∧
  CouncilRAG.index_session X t2 c self conv turn uq stage1 stage3 topics quality = Ok c2 ∧
  (t1 = t2 → c2 = c1).
Proof.
  intros H1 H2 batch1 batch2.
  assert (batch2 = prod_map id (retime t2) <$> batch1) as Hb2 by apply session_docs_retime.
  assert (batch1.*1 = batch2.*1) as Hids.
  { rewrite Hb2, <-list_fmap_compose. by apply list_fmap_ext. }
  assert (Py.is_empty batch2 = Py.is_empty batch1) as Hemp.
  { rewrite Hb2. by destruct batch1. }
  split_and!; [done|apply session_docs_NoDup| |..].
  { intros doc_id Hin. subst batch1. unfold CouncilRAG.session_docs in Hin.
    rewrite fmap_app in Hin. apply elem_of_app in Hin as [Hin|Hin].
    - unfold CouncilRAG.opinion_docs in Hin. rewrite <-list_fmap_compose in Hin.
      apply list_elem_of_fmap in Hin as ([i a] & -> & _). left. simpl. eauto.
    - unfold CouncilRAG.synthesis_docs in Hin.
      destruct (default "" (CouncilRAG.s_response stage3)); [by apply elem_of_nil in Hin|].
      apply list_elem_of_singleton in Hin as ->. right. simpl. eauto. }
  all: unfold CouncilRAG.index_session in *; fold batch1 batch2 in H1, H2 |- *.
  all: rewrite Hemp in *.
  all: destruct (CouncilRAG.enabled self); simpl negb in *; cbv iota in *;
         [|injection H1 as <-; injection H2 as <-; by eauto].
  all: destruct (Py.is_empty batch1);
         [injection H1 as <-; injection H2 as <-; by eauto|].
  all: rewrite Hb2 in H2; rewrite ?Hb2.
  all: destruct (upsert_twice _ _ _ _ _ H1 H2) as (Hone & Hdom & Hlook).
  - done.
  - intros doc_id e1 He1. destruct (Hlook _ _ He1) as [He2|He2].
    + by exists e1.
    + exists (retime t2 e1). split_and!; [done..|]. intros. by apply retime_lookup.
  - done.
  - intros Heq. rewrite <-Hb2 in Hone. subst batch1 batch2. rewrite Heq in H1. congruence.
Qed.


(** ** Ties *)

(** C8, as the code has it. The candidates are sorted by descending fused
    score with a stable sort and no tie-break of their own: candidates
    with equal fused scores come in the order in which the set [all_ids]
    is iterated. Two runs in which that set iterates in the same order
    return the same list. *)
Theorem ties_keep_set_order X c self corpus query conv top_k wl wd bm dn :
  HybridRetriever.bm25_index self = Some corpus →
  HybridRetriever.lexical X self corpus query conv top_k = Ok bm →
  HybridRetriever.dense X c query conv top_k = Ok dn →
  let all_ids := set_iter X (Py.keys bm ++ Py.keys dn) in
  let combined := (λ doc_id, (doc_id, HybridRetriever.rrf wl wd bm dn doc_id)) <$> all_ids in
  let sorted := HybridRetriever.sorted_all combined in
  sorted ≡ₚ combined ∧
  StronglySorted (λ a b : string * Q, (b.2 <= a.2)%Q) sorted ∧
  (∀ s : Q, filter (λ x : string * Q, (x.2 == s)%Q) sorted
            = filter (λ x : string * Q, (x.2 == s)%Q) combined) ∧
  (∀ results,
     HybridRetriever.retrieve_indexed X c self query conv top_k wl wd = Ok results →
     results ≠ [] →
     (λ h, (HybridRetriever.h_id h, HybridRetriever.h_score h)) <$> results
     = take top_k sorted) ∧
  (∀ iter,
     iter (Py.keys bm ++ Py.keys dn) = all_ids →
     HybridRetriever.retrieve_indexed (with_set_iter X iter) c self query conv top_k wl wd
     = HybridRetriever.retrieve_indexed X c self query conv top_k wl wd).
Proof.
  intros Hidx Hbm Hdn all_ids combined sorted. split_and!.
  - apply sort_by_Permutation.
  - eapply (StronglySorted_impl (λ a b : string * Q, Qle_bool b.2 a.2 = true)).
    { intros ??. apply Qle_bool_iff. }
    apply sort_by_sorted.
    + intros x y Hxy. apply Qle_bool_iff.
      apply Qlt_le_weak, Qnot_le_lt. intros Hle%Qle_bool_iff. congruence.
    + intros x y z Hxy%Qle_bool_iff Hyz%Qle_bool_iff. apply Qle_bool_iff.
      by eapply Qle_trans.
  - intros s. apply sort_by_stable. intros x y Hx Hy. apply Qle_bool_iff.
    rewrite Hx, Hy. apply Qle_refl.
  - intros results Hres Hne.
    apply retrieve_indexed_inv in Hres
      as [->|(corpus' & bm' & dn' & full & Hidx' & Hbm' & Hdn' & _ & ->)]; [done|].
    rewrite Hidx in Hidx'. injection Hidx' as <-.
    rewrite Hbm in Hbm'. injection Hbm' as <-.
    rewrite Hdn in Hdn'. injection Hdn' as <-.
    unfold HybridRetriever.build_results. rewrite <-list_fmap_compose.
    unfold HybridRetriever.sorted_ids.
    erewrite list_fmap_ext; [apply list_fmap_id|]. by intros i [] _.
  - intros iter Hiter. unfold HybridRetriever.retrieve_indexed.
    destruct (HybridRetriever.bm25_index self); [|done].
    destruct (Py.is_empty _); [done|].
    change (HybridRetriever.lexical (with_set_iter X iter)) with (HybridRetriever.lexical X).
    change (HybridRetriever.dense (with_set_iter X iter)) with (HybridRetriever.dense X).
    simplify_eq. rewrite Hbm, Hdn. simpl.
    unfold HybridRetriever.combined_scores. simpl. by rewrite Hiter.
Qed.

(** * The properties on concrete data *)

(** ** The built-ins *)

Example split_runs :
  Py.split ("  Paris is" +:+ Py.nl +:+ "the  capital ") = ["Paris"; "is"; "the"; "capital"] ∧
  Py.split "   " = [] ∧ Py.split "" = [].
Proof. split_and!; reflexivity. Qed.

Example lower_ascii : Py.lower "Paris IS [the] Capital-9" = "paris is [the] capital-9".
Proof. reflexivity. Qed.

Example join_parts :
  Py.join ", " ["a"; "b"; "c"] = "a, b, c" ∧ Py.join ", " ["a"] = "a" ∧ Py.join ", " [] = "".
Proof. split_and!; reflexivity. Qed.

(** [int(3 * 1.3)] is 3, [int(10 * 1.3)] is 13. *)
Example est_tokens_small :
  CouncilRAG.est_tokens "a b c" = 3%Z ∧
  CouncilRAG.est_tokens "a b c d e f g h i j" = 13%Z ∧
  CouncilRAG.est_tokens "" = 0%Z.
Proof. split_and!; reflexivity. Qed.

(** [sorted(..., reverse=True)] keeps b before d. *)
Example sort_by_descending :
  Py.sort_by (λ a b : string * Q, Qle_bool b.2 a.2)
    [("a", 1 # 2); ("b", 3 # 4); ("c", 2 # 4); ("d", 3 # 4)]
  = [("b", 3 # 4); ("d", 3 # 4); ("a", 1 # 2); ("c", 2 # 4)].
Proof. reflexivity. Qed.

Example format_chunk_block :
  CouncilRAG._format_chunk Demo.X
    {| CouncilRAG.c_id := "i"; CouncilRAG.c_similarity := 1;
       CouncilRAG.c_metadata :=
         Py.dict [("turn_index", VInt 3); ("stage", VStr "opinion"); ("model", VStr "m1")];
       CouncilRAG.c_text := "Q: q" |}
  = Ok ("[Turn 3 | Stage opinion | Model: m1]" +:+ Py.nl +:+ "Q: q").
Proof. vm_compute. reflexivity. Qed.

(** ** The concrete libraries meet their contract *)

Lemma demo_argsort_sorted l i j a b x y :
  (i ≤ j)%nat → Demo.argsort l !! i = Some a → Demo.argsort l !! j = Some b →
  l !! a = Some x → l !! b = Some y → (x <= y)%Q.
Proof.
  unfold Demo.argsort. intros Hij Ha Hb Hx Hy.
  apply list_lookup_fmap_Some in Ha as ([a' sa] & -> & Ha).
  apply list_lookup_fmap_Some in Hb as ([b' sb] & -> & Hb). simpl in *.
  assert (l !! a' = Some sa) as Hsa.
  { pose proof Ha as Ha'.
    apply list_elem_of_lookup_2, elem_of_sort_by, elem_of_enumerate_from in Ha' as [_ Ha'].
    by rewrite Nat.sub_0_r in Ha'. }
  assert (l !! b' = Some sb) as Hsb.
  { pose proof Hb as Hb'.
    apply list_elem_of_lookup_2, elem_of_sort_by, elem_of_enumerate_from in Hb' as [_ Hb'].
    by rewrite Nat.sub_0_r in Hb'. }
  rewrite Hx in Hsa. injection Hsa as <-. rewrite Hy in Hsb. injection Hsb as <-.
  destruct (decide (i = j)) as [->|Hne].
  { rewrite Ha in Hb. injection Hb as <- <-. apply Qle_refl. }
  apply Qle_bool_iff.
  eapply (StronglySorted_lookup (λ a b : nat * Q, Qle_bool a.2 b.2 = true) _ i j (a', x) (b', y));
    [|lia|done..].
  apply sort_by_sorted.
  - intros u v Huv. apply Qle_bool_iff.
    apply Qlt_le_weak, Qnot_le_lt. intros Hle%Qle_bool_iff. congruence.
  - intros u v w Huv%Qle_bool_iff Hvw%Qle_bool_iff. apply Qle_bool_iff.
    by eapply Qle_trans.
Qed.

Lemma demo_ok : ExternalsOk Demo.X.
Proof.
  split.
  - apply demo_argsort_sorted.
  - intros l. apply NoDup_remove_dups.
  - intros l x. apply elem_of_remove_dups.
Qed.

Lemma demo_ok' : ExternalsOk Demo.X'.
Proof.
  split.
  - apply demo_argsort_sorted.
  - intros l. simpl. rewrite reverse_Permutation. apply NoDup_remove_dups.
  - intros l x. simpl. rewrite elem_of_reverse. apply elem_of_remove_dups.
Qed.

(** ** Conversation isolation *)

(** What [conversation_isolation] gives for the conversations c2 and c1 of
    [Demo.cities], on a retriever whose index is still to be built. *)
Lemma conversation_isolation_witness :
  "c2" ≠ "c1" ∧
  snapshot_current HybridRetriever.init Demo.cities ∧
  Forall (λ h, HybridRetriever.h_metadata h !! "conversation_id" ≠ Some (VStr "c2"))
    Demo.results_cities.
Proof.
  assert ("c2" ≠ "c1") as Hne by done.
  assert (snapshot_current HybridRetriever.init Demo.cities) as Hcur by (by left).
  split_and!; [done..|].
  destruct (conversation_isolation Demo.X Demo.cities HybridRetriever.init "Paris" "c2" "c1"
              demo_ok Hne Hcur) as [Hlist _].
  apply Forall_forall. intros h Hh. eapply (Hlist 10 (1 # 2)%Q (1 # 2)%Q); [|exact Hh].
  vm_compute. reflexivity.
Defined.

(** C1 fails on a stale index. A synthesis of conversation b is indexed
    under [Demo.shared_id] and the index is built; a synthesis of
    conversation b:turn:1:synthesis:x is then indexed under the same
    identifier and the index is not refreshed. A retrieval for b returns
    the record of the other conversation, with its text. With a rebuilt
    index the same call returns nothing. *)
Lemma stale_index_leaks :
  (CouncilRAG.session_docs Demo.X "t3" "b" 1 "plan" []
     (Demo.synthesis "x:turn:2:synthesis:m" "alpha") [] ∅).*1 = [Demo.shared_id] ∧
  (CouncilRAG.session_docs Demo.X "t4" "b:turn:1:synthesis:x" 2 "plan" []
     (Demo.synthesis "m" "alpha secret") [] ∅).*1 = [Demo.shared_id] ∧
  (Chroma.docs Demo.before_reuse !! Demo.shared_id
     ≫= λ e, Chroma.e_meta e !! "conversation_id") = Some (VStr "b") ∧
  (HybridRetriever.id_to_metadata Demo.hr_stale !! Demo.shared_id
     ≫= λ m, m !! "conversation_id") = Some (VStr "b") ∧
  (Chroma.docs Demo.after_reuse !! Demo.shared_id
     ≫= λ e, Chroma.e_meta e !! "conversation_id") = Some (VStr "b:turn:1:synthesis:x") ∧
  Demo.view <$> Demo.from_ok []
    (HybridRetriever.retrieve Demo.X Demo.after_reuse Demo.hr_stale "alpha" "b" 10
       (1 # 2) (1 # 2)).1
  = [(Demo.shared_id, Some (VStr "b:turn:1:synthesis:x"),
      CouncilRAG.format_text "plan" "alpha secret")] ∧
  Demo.view <$> Demo.from_ok []
    (HybridRetriever.retrieve Demo.X Demo.after_reuse HybridRetriever.init "alpha" "b" 10
       (1 # 2) (1 # 2)).1
  = [].
Proof. split_and!; vm_compute; reflexivity. Qed.

(** The context of [CouncilRAG.retrieve] is empty in that state: the
    record, listed by the lexical source only, is under the threshold. *)
Example stale_index_context :
  (CouncilRAG.retrieve Demo.X Demo.after_reuse
     {| CouncilRAG.enabled := true; CouncilRAG.hybrid_retriever := Some Demo.hr_stale |}
     "alpha" "b").1 = "".
Proof. vm_compute. reflexivity. Qed.

(** ** Reciprocal rank fusion *)


(** The ranks and fused scores of that query: the first opinion is first
    for BM25 and second for the collection, the synthesis the reverse, and
    the second opinion is listed by the collection only. *)
Example rrf_cities :
  rank_in Demo.bm_cities <$> [Demo.op1; Demo.syn; Demo.op2] = [Some 1; Some 2; None] ∧
  rank_in Demo.dn_cities <$> [Demo.op1; Demo.syn; Demo.op2] = [Some 2; Some 1; Some 3] ∧
  Forall2 Qeq (HybridRetriever.h_score <$> Demo.results_cities)
    [(1 # 2) / (60 + 1) + (1 # 2) / (60 + 2);
     (1 # 2) / (60 + 2) + (1 # 2) / (60 + 1);
     (1 # 2) / (60 + 3)]%Q.
Proof. split_and!; [vm_compute; reflexivity..|]. repeat constructor. Qed.


(** [single_source_dropped] on the same query. *)
Lemma single_source_dropped_witness :
  HybridRetriever._ensure_index Demo.cities Demo.hr_cities = Ok Demo.hr_cities ∧
  HybridRetriever.bm25_index Demo.hr_cities = Some Demo.corpus_cities ∧
  HybridRetriever.lexical Demo.X Demo.hr_cities Demo.corpus_cities "Paris" "c1" 10
    = Ok Demo.bm_cities ∧
  HybridRetriever.dense Demo.X Demo.cities "Paris" "c1" 10 = Ok Demo.dn_cities ∧
  (HybridRetriever.retrieve Demo.X Demo.cities Demo.hr_cities "Paris" "c1" 10
     (1 # 2) (1 # 2)).1 = Ok Demo.results_cities ∧
  Forall
    (λ ch, is_Some (Demo.bm_cities !! CouncilRAG.c_id ch) ∧
           is_Some (Demo.dn_cities !! CouncilRAG.c_id ch))
    (CouncilRAG.filtered_chunks Demo.results_cities).
Proof.
  assert (HybridRetriever._ensure_index Demo.cities Demo.hr_cities = Ok Demo.hr_cities) as H0
    by (vm_compute; reflexivity).
  assert (HybridRetriever.bm25_index Demo.hr_cities = Some Demo.corpus_cities) as H1
    by (vm_compute; reflexivity).
  assert (HybridRetriever.lexical Demo.X Demo.hr_cities Demo.corpus_cities "Paris" "c1" 10
          = Ok Demo.bm_cities) as H2 by (vm_compute; reflexivity).
  assert (HybridRetriever.dense Demo.X Demo.cities "Paris" "c1" 10 = Ok Demo.dn_cities) as H3
    by (vm_compute; reflexivity).
  assert ((HybridRetriever.retrieve Demo.X Demo.cities Demo.hr_cities "Paris" "c1" 10
             (1 # 2) (1 # 2)).1 = Ok Demo.results_cities) as H4 by (vm_compute; reflexivity).
  split_and!; [done..|].
  apply Forall_forall.
  exact (proj1 (proj2 (single_source_dropped Demo.X Demo.cities Demo.hr_cities Demo.hr_cities
                         Demo.corpus_cities "Paris" "c1" Demo.bm_cities Demo.dn_cities
                         Demo.results_cities H0 H1 H2 H3 H4))).
Defined.

(** The second opinion, listed by the collection only, is returned by the
    hybrid retriever and is not in the context. *)
Example single_source_cities :
  HybridRetriever.h_id <$> Demo.results_cities = [Demo.op1; Demo.syn; Demo.op2] ∧
  CouncilRAG.c_id <$> CouncilRAG.filtered_chunks Demo.results_cities = [Demo.op1; Demo.syn] ∧
  length Demo.parts_cities = 2%nat ∧
  (CouncilRAG.retrieve Demo.X Demo.cities Demo.rag_cities "Paris" "c1").1
  = Py.join separator Demo.parts_cities.
Proof. split_and!; vm_compute; reflexivity. Qed.

(** ** The token budget and the order of the blocks *)

(** [token_budget] on two long answers of [Demo.long]. *)
Lemma token_budget_witness :
  CouncilRAG.enabled Demo.rag_long = true ∧
  CouncilRAG.hybrid_retriever Demo.rag_long = Some Demo.hr_long ∧
  (HybridRetriever.retrieve Demo.X Demo.long Demo.hr_long "w" "c1" 10 (1 # 2) (1 # 2)).1
    = Ok Demo.results_long ∧
  CouncilRAG.pack Demo.X 0 (CouncilRAG.filtered_chunks Demo.results_long)
    = Ok Demo.parts_long ∧
  (CouncilRAG.retrieve Demo.X Demo.long Demo.rag_long "w" "c1").1
    = Py.join separator Demo.parts_long ∧
  ∃ included rest,
    CouncilRAG.filtered_chunks Demo.results_long = included ++ rest ∧
    formats Demo.X included Demo.parts_long ∧
    (tokens_of included ≤ 3000)%Z ∧
    match rest with
    | [] => True
    | ch :: _ =>
        (3000 < tokens_of included + CouncilRAG.est_tokens (CouncilRAG.c_text ch))%Z
    end.
Proof.
  assert (CouncilRAG.enabled Demo.rag_long = true) as H1 by reflexivity.
  assert (CouncilRAG.hybrid_retriever Demo.rag_long = Some Demo.hr_long) as H2 by reflexivity.
  assert ((HybridRetriever.retrieve Demo.X Demo.long Demo.hr_long "w" "c1" 10
             (1 # 2) (1 # 2)).1 = Ok Demo.results_long) as H3 by (vm_compute; reflexivity).
  assert (CouncilRAG.pack Demo.X 0 (CouncilRAG.filtered_chunks Demo.results_long)
          = Ok Demo.parts_long) as H4 by (vm_compute; reflexivity).
  split_and!; [done..| |].
  - exact (proj1 (proj2 (token_budget Demo.X Demo.long Demo.rag_long Demo.hr_long "w" "c1"
                           Demo.results_long Demo.parts_long H1 H2 H3 H4))).
  - exact (proj2 (proj2 (token_budget Demo.X Demo.long Demo.rag_long Demo.hr_long "w" "c1"
                           Demo.results_long Demo.parts_long H1 H2 H3 H4))).
Defined.

(** Both long answers pass the threshold; the first costs 2083 tokens, the
    second 1043, and only the first is in the context. *)
Example budget_long :
  (λ ch, (CouncilRAG.c_id ch, CouncilRAG.est_tokens (CouncilRAG.c_text ch)))
    <$> CouncilRAG.filtered_chunks Demo.results_long
  = [(Demo.op1, 2083%Z); (Demo.syn, 1043%Z)] ∧
  length Demo.parts_long = 1%nat.
Proof. split; vm_compute; reflexivity. Qed.

(** [order_preserved] on the query "Paris" of [Demo.cities]. *)
Lemma order_preserved_witness :
  CouncilRAG.enabled Demo.rag_cities = true ∧
  CouncilRAG.hybrid_retriever Demo.rag_cities = Some Demo.hr_cities ∧
  (HybridRetriever.retrieve Demo.X Demo.cities Demo.hr_cities "Paris" "c1" 10
     (1 # 2) (1 # 2)).1 = Ok Demo.results_cities ∧
  CouncilRAG.pack Demo.X 0 (CouncilRAG.filtered_chunks Demo.results_cities)
    = Ok Demo.parts_cities ∧
  StronglySorted (λ a b, (HybridRetriever.h_score b <= HybridRetriever.h_score a)%Q)
    Demo.results_cities ∧
  ∃ kept,
    kept `sublist_of` Demo.results_cities ∧
    StronglySorted (λ a b, (HybridRetriever.h_score b <= HybridRetriever.h_score a)%Q) kept ∧
    formats Demo.X (CouncilRAG.to_chunk <$> kept) Demo.parts_cities.
Proof.
  assert (CouncilRAG.enabled Demo.rag_cities = true) as H1 by reflexivity.
  assert (CouncilRAG.hybrid_retriever Demo.rag_cities = Some Demo.hr_cities) as H2
    by reflexivity.
  assert ((HybridRetriever.retrieve Demo.X Demo.cities Demo.hr_cities "Paris" "c1" 10
             (1 # 2) (1 # 2)).1 = Ok Demo.results_cities) as H3 by (vm_compute; reflexivity).
  assert (CouncilRAG.pack Demo.X 0 (CouncilRAG.filtered_chunks Demo.results_cities)
          = Ok Demo.parts_cities) as H4 by (vm_compute; reflexivity).
  split_and!; [done..| |].
  - exact (proj1 (order_preserved Demo.X Demo.cities Demo.rag_cities Demo.hr_cities "Paris"
                    "c1" Demo.results_cities Demo.parts_cities H1 H2 H3 H4)).
  - exact (proj2 (proj2 (order_preserved Demo.X Demo.cities Demo.rag_cities Demo.hr_cities
                           "Paris" "c1" Demo.results_cities Demo.parts_cities H1 H2 H3 H4))).
Defined.

(** ** Failures *)

(** [retrieve_never_raises] on an engine that failed to initialise. *)
Lemma retrieve_never_raises_witness :
  CouncilRAG.enabled CouncilRAG.init_failed = false ∧
  CouncilRAG.retrieve Demo.X Demo.cities CouncilRAG.init_failed "Paris" "c1"
  = ("", CouncilRAG.init_failed).
Proof.
  split; [reflexivity|].
  exact (proj1 (retrieve_never_raises Demo.X Demo.cities CouncilRAG.init_failed "Paris" "c1")
           eq_refl).
Defined.

(** A collection whose every call fails: the retriever raises, the engine
    returns the empty string; a disabled engine returns it at once. *)
Example retrieve_store_down :
  (HybridRetriever.retrieve Demo.X (Demo.down (Chroma.docs Demo.cities))
     HybridRetriever.init "Paris" "c1" 10 (1 # 2) (1 # 2)).1 = Raise StoreError ∧
  (HybridRetriever.retrieve Demo.X (Demo.down (Chroma.docs Demo.cities))
     Demo.hr_cities "Paris" "c1" 10 (1 # 2) (1 # 2)).1 = Raise StoreError ∧
  (CouncilRAG.retrieve Demo.X (Demo.down (Chroma.docs Demo.cities)) CouncilRAG.init
     "Paris" "c1").1 = "" ∧
  (CouncilRAG.retrieve Demo.X (Demo.down (Chroma.docs Demo.cities)) Demo.rag_cities
     "Paris" "c1").1 = "" ∧
  CouncilRAG.retrieve Demo.X Demo.cities CouncilRAG.init_failed "Paris" "c1"
  = ("", CouncilRAG.init_failed).
Proof. split_and!; vm_compute; reflexivity. Qed.

(** [missing_metadata] on the record of [Demo.with_broken] that has no
    field [model]. *)
Lemma missing_metadata_witness :
  (HybridRetriever.retrieve Demo.X Demo.with_broken HybridRetriever.init "Paris" "c1"
     10 (1 # 2) (1 # 2)).1 = Ok Demo.results_broken ∧
  CouncilRAG.filtered_chunks Demo.results_broken
  = take 2 (CouncilRAG.filtered_chunks Demo.results_broken) ++ Demo.chunk_broken :: [] ∧
  lacks_field Demo.chunk_broken ∧
  (CouncilRAG.retrieve Demo.X Demo.with_broken CouncilRAG.init "Paris" "c1").1 = "".
Proof.
  assert ((HybridRetriever.retrieve Demo.X Demo.with_broken HybridRetriever.init "Paris" "c1"
             10 (1 # 2) (1 # 2)).1 = Ok Demo.results_broken) as H1 by (vm_compute; reflexivity).
  assert (CouncilRAG.filtered_chunks Demo.results_broken
          = take 2 (CouncilRAG.filtered_chunks Demo.results_broken) ++ Demo.chunk_broken :: [])
    as H2 by (vm_compute; reflexivity).
  assert (lacks_field Demo.chunk_broken) as H3 by (right; right; vm_compute; reflexivity).
  assert (tokens_of (take 2 (CouncilRAG.filtered_chunks Demo.results_broken)
                       ++ [Demo.chunk_broken]) ≤ 3000)%Z as H4 by (by vm_compute).
  split_and!; [done..|].
  exact (proj2 (proj2 (proj2 (missing_metadata Demo.X)) Demo.with_broken CouncilRAG.init
                  HybridRetriever.init "Paris" "c1" Demo.results_broken
                  (take 2 (CouncilRAG.filtered_chunks Demo.results_broken))
                  Demo.chunk_broken [] eq_refl H1 H2 H4 H3)).
Defined.

(** C9 fails on a record without the field [model]. The record
    [Demo.broken_id] is ranked by both sources and passes the threshold,
    after the synthesis and the first opinion; formatting it raises
    [KeyError], and the context is empty, where without that record it
    holds two blocks. *)
Lemma missing_model_loses_context :
  Chroma.e_meta Demo.broken !! "model" = None ∧
  (HybridRetriever.retrieve Demo.X Demo.with_broken HybridRetriever.init "Paris" "c1"
     10 (1 # 2) (1 # 2)).1 = Ok Demo.results_broken ∧
  CouncilRAG.c_id <$> CouncilRAG.filtered_chunks Demo.results_broken
  = [Demo.syn; Demo.op1; Demo.broken_id] ∧
  (CouncilRAG.retrieve Demo.X Demo.with_broken CouncilRAG.init "Paris" "c1").1 = "" ∧
  (CouncilRAG.retrieve Demo.X Demo.cities CouncilRAG.init "Paris" "c1").1
  = Py.join separator Demo.parts_cities ∧
  length Demo.parts_cities = 2%nat.
Proof. split_and!; vm_compute; reflexivity. Qed.

(** [empty_collection_safe] on the empty collection. *)
Lemma empty_collection_safe_witness :
  Chroma.get_all Demo.empty = Ok [] ∧
  HybridRetriever._rebuild_bm25_index Demo.empty = Ok HybridRetriever.init ∧
  HybridRetriever.retrieve Demo.X Demo.empty HybridRetriever.init "Paris" "c1" 10
    (1 # 2) (1 # 2) = (Ok [], HybridRetriever.init) ∧
  CouncilRAG.retrieve Demo.X Demo.empty CouncilRAG.init "Paris" "c1"
  = ("", CouncilRAG.init).
Proof.
  assert (Chroma.get_all Demo.empty = Ok []) as H by reflexivity.
  destruct (empty_collection_safe Demo.X Demo.empty H) as (Hreb & _ & _ & _ & Hret).
  destruct (Hret Demo.empty "Paris" "c1" H) as [Hhr Hrag].
  split_and!; [done..|apply Hhr|by apply Hrag].
Defined.

(** ** The write path *)

(** [index_session_idempotent] on the turn of [Demo.cities], indexed at t0
    and again at t9. *)
Lemma index_session_idempotent_witness :
  CouncilRAG.index_session Demo.X "t0" Demo.others CouncilRAG.init "c1" 0 "capital"
    [Demo.opinion "m1" "Paris Paris France"; Demo.opinion "m2" "Lyon is large too"]
    (Demo.synthesis "chair" "Paris") [] ∅ = Ok Demo.cities ∧
  CouncilRAG.index_session Demo.X "t9" Demo.cities CouncilRAG.init "c1" 0 "capital"
    [Demo.opinion "m1" "Paris Paris France"; Demo.opinion "m2" "Lyon is large too"]
    (Demo.synthesis "chair" "Paris") [] ∅ = Ok Demo.cities_again ∧
  dom (Chroma.docs Demo.cities_again) = dom (Chroma.docs Demo.cities) ∧
  CouncilRAG.index_session Demo.X "t9" Demo.others CouncilRAG.init "c1" 0 "capital"
    [Demo.opinion "m1" "Paris Paris France"; Demo.opinion "m2" "Lyon is large too"]
    (Demo.synthesis "chair" "Paris") [] ∅ = Ok Demo.cities_again.
Proof.
  assert (CouncilRAG.index_session Demo.X "t0" Demo.others CouncilRAG.init "c1" 0 "capital"
            [Demo.opinion "m1" "Paris Paris France"; Demo.opinion "m2" "Lyon is large too"]
            (Demo.synthesis "chair" "Paris") [] ∅ = Ok Demo.cities) as H1
    by (vm_compute; reflexivity).
  assert (CouncilRAG.index_session Demo.X "t9" Demo.cities CouncilRAG.init "c1" 0 "capital"
            [Demo.opinion "m1" "Paris Paris France"; Demo.opinion "m2" "Lyon is large too"]
            (Demo.synthesis "chair" "Paris") [] ∅ = Ok Demo.cities_again) as H2
    by (vm_compute; reflexivity).
  destruct (index_session_idempotent Demo.X Demo.others CouncilRAG.init "c1" 0 "capital"
              [Demo.opinion "m1" "Paris Paris France"; Demo.opinion "m2" "Lyon is large too"]
              (Demo.synthesis "chair" "Paris") [] ∅ "t0" "t9" Demo.cities Demo.cities_again
              H1 H2) as (_ & _ & _ & Hdom & _ & Hone & _).
  split_and!; done.
Defined.

(** C7 fails on the content of the records. After the second call the
    identifiers and the texts are those left by the first, and the field
    [timestamp] of each record of the turn is not. *)
Lemma second_call_changes_timestamp :
  Py.keys (Chroma.docs Demo.cities_again) = Py.keys (Chroma.docs Demo.cities) ∧
  (Chroma.docs Demo.cities !! Demo.op1 ≫= λ e, Chroma.e_meta e !! "timestamp")
  = Some (VStr "t0") ∧
  (Chroma.docs Demo.cities_again !! Demo.op1 ≫= λ e, Chroma.e_meta e !! "timestamp")
  = Some (VStr "t9") ∧
  Chroma.docs Demo.cities_again !! Demo.op1 ≠ Chroma.docs Demo.cities !! Demo.op1.
Proof.
  split_and!; [vm_compute; reflexivity..|].
  intros Heq.
  assert ((Chroma.docs Demo.cities_again !! Demo.op1 ≫= λ e, Chroma.e_meta e !! "timestamp")
          = Some (VStr "t0")) as H by (rewrite Heq; vm_compute; reflexivity).
  vm_compute in H. discriminate.
Qed.

(** ** Ties *)

(** [ties_keep_set_order] on the query "Paris" of [Demo.cities]. *)
Lemma ties_keep_set_order_witness :
  HybridRetriever.bm25_index Demo.hr_cities = Some Demo.corpus_cities ∧
  HybridRetriever.lexical Demo.X Demo.hr_cities Demo.corpus_cities "Paris" "c1" 10
    = Ok Demo.bm_cities ∧
  HybridRetriever.dense Demo.X Demo.cities "Paris" "c1" 10 = Ok Demo.dn_cities ∧
  filter (λ x : string * Q, (x.2 == (1 # 2) / (60 + 1) + (1 # 2) / (60 + 2))%Q)
    (HybridRetriever.sorted_all
       (HybridRetriever.combined_scores Demo.X (1 # 2) (1 # 2) Demo.bm_cities Demo.dn_cities))
  = filter (λ x : string * Q, (x.2 == (1 # 2) / (60 + 1) + (1 # 2) / (60 + 2))%Q)
      (HybridRetriever.combined_scores Demo.X (1 # 2) (1 # 2) Demo.bm_cities Demo.dn_cities).
Proof.
  assert (HybridRetriever.bm25_index Demo.hr_cities = Some Demo.corpus_cities) as H1
    by (vm_compute; reflexivity).
  assert (HybridRetriever.lexical Demo.X Demo.hr_cities Demo.corpus_cities "Paris" "c1" 10
          = Ok Demo.bm_cities) as H2 by (vm_compute; reflexivity).
  assert (HybridRetriever.dense Demo.X Demo.cities "Paris" "c1" 10 = Ok Demo.dn_cities) as H3
    by (vm_compute; reflexivity).
  split_and!; [done..|].
  exact (proj1 (proj2 (proj2
           (ties_keep_set_order Demo.X Demo.cities Demo.hr_cities Demo.corpus_cities "Paris"
              "c1" 10 (1 # 2) (1 # 2) Demo.bm_cities Demo.dn_cities H1 H2 H3)))
           ((1 # 2) / (60 + 1) + (1 # 2) / (60 + 2))%Q).
Defined.

(** C8 fails between two processes. On the same index, collection, query,
    conversation and parameters, the first opinion and the synthesis have
    the same fused score; a process whose sets iterate in insertion order
    returns the opinion first, one whose sets iterate the other way round
    returns the synthesis first. Nothing else differs between the two. *)
Lemma tie_order_differs :
  (HybridRetriever.rrf (1 # 2) (1 # 2) Demo.bm_cities Demo.dn_cities Demo.op1
   == HybridRetriever.rrf (1 # 2) (1 # 2) Demo.bm_cities Demo.dn_cities Demo.syn)%Q ∧
  HybridRetriever.h_id <$> Demo.from_ok []
    (HybridRetriever.retrieve Demo.X Demo.cities Demo.hr_cities "Paris" "c1" 10
       (1 # 2) (1 # 2)).1
  = [Demo.op1; Demo.syn; Demo.op2] ∧
  HybridRetriever.h_id <$> Demo.from_ok []
    (HybridRetriever.retrieve Demo.X' Demo.cities Demo.hr_cities "Paris" "c1" 10
       (1 # 2) (1 # 2)).1
  = [Demo.syn; Demo.op1; Demo.op2] ∧
  Demo.X' = with_set_iter Demo.X (λ l, reverse (remove_dups l)) ∧
  ExternalsOk Demo.X ∧ ExternalsOk Demo.X'.
Proof.
  split_and!; [vm_compute; reflexivity..|apply demo_ok|apply demo_ok'].
Qed.

(** * Further properties of the engine *)

(** ** The size of the result list *)

Lemma retrieve_inv X c self query conv top_k wl wd results :
  (HybridRetriever.retrieve X c self query conv top_k wl wd).1 = Ok results →
  ∃ self', HybridRetriever._ensure_index c self = Ok self' ∧
    (HybridRetriever.retrieve X c self query conv top_k wl wd).2 = self' ∧
    HybridRetriever.retrieve_indexed X c self' query conv top_k wl wd = Ok results.
Proof.
  unfold HybridRetriever.retrieve.
  destruct (HybridRetriever._ensure_index c self) as [self'|]; [|done]. simpl. eauto.
Qed.

Lemma combined_scores_keys X wl wd bm dn :
  (HybridRetriever.combined_scores X wl wd bm dn).*1 = set_iter X (Py.keys bm ++ Py.keys dn).
Proof.
  unfold HybridRetriever.combined_scores. rewrite <-list_fmap_compose.
  erewrite list_fmap_ext; [apply list_fmap_id|]. by intros i doc_id _.
Qed.

Lemma build_results_ids full sorted :
  HybridRetriever.h_id <$> HybridRetriever.build_results full sorted = sorted.*1.
Proof.
  unfold HybridRetriever.build_results. rewrite <-list_fmap_compose.
  by apply list_fmap_ext.
Qed.

(** X1. [HybridRetriever.retrieve] returns at most [top_k] results, and
    no identifier twice. *)
Theorem retrieve_returns_distinct_top_k X c self query conv top_k wl wd results :
  ExternalsOk X →
  (HybridRetriever.retrieve X c self query conv top_k wl wd).1 = Ok results →
  (length results ≤ top_k)%nat ∧ NoDup (HybridRetriever.h_id <$> results).
Proof.
  intros HX (self' & _ & _ & Hres)%retrieve_inv.
  apply retrieve_indexed_inv in Hres as [->|(corpus & bm & dn & full & _ & _ & _ & _ & ->)].
  { split; [simpl; lia|constructor]. }
  split.
  - unfold HybridRetriever.build_results, HybridRetriever.sorted_ids.
    rewrite length_fmap, length_take. lia.
  - rewrite build_results_ids. unfold HybridRetriever.sorted_ids, HybridRetriever.sorted_all.
    eapply sublist_NoDup; [|apply fmap_sublist, sublist_take].
    rewrite sort_by_Permutation, combined_scores_keys. apply (set_iter_NoDup X HX).
Qed.

(** On the query "Paris" of [Demo.cities]. *)
Lemma retrieve_returns_distinct_top_k_witness :
  (length Demo.results_cities ≤ 10)%nat ∧
  NoDup (HybridRetriever.h_id <$> Demo.results_cities).
Proof.
  apply (retrieve_returns_distinct_top_k Demo.X Demo.cities Demo.hr_cities "Paris" "c1" 10
           (1 # 2) (1 # 2) Demo.results_cities demo_ok).
  vm_compute. reflexivity.
Defined.

(** ** The terms of the fused score *)

Lemma Qdiv_le_compat_denominator (w a b : Q) :
  (0 <= w)%Q → (0 < a)%Q → (a <= b)%Q → (w / b <= w / a)%Q.
Proof.
  intros Hw Ha Hab.
  assert (0 < b)%Q by lra.
  apply Qle_shift_div_l; [done|].
  unfold Qdiv. rewrite <-Qmult_assoc, (Qmult_comm (/ b)), Qmult_assoc.
  apply Qle_shift_div_r; [done|]. nra.
Qed.

Lemma rrf_term_bounds (w : Q) (rank : option nat) (n : nat) :
  (0 <= w)%Q →
  (∀ r, rank = Some r → (1 ≤ r ≤ n)%nat) →
  (0 <= rrf_term w rank)%Q ∧ (rrf_term w rank <= w / 61)%Q ∧
  (is_Some rank → (w / (60 + inject_Z (Z.of_nat n)) <= rrf_term w rank)%Q).
Proof.
  intros Hw Hr. destruct rank as [r|]; simpl.
  - destruct (Hr r eq_refl) as [H1 Hn].
    assert (1 <= inject_Z (Z.of_nat r))%Q by (rewrite <-(Zle_Qle 1); lia).
    assert (inject_Z (Z.of_nat r) <= inject_Z (Z.of_nat n))%Q by (rewrite <-Zle_Qle; lia).
    split_and!.
    + apply Qle_shift_div_l; [apply rank_pos|]. lra.
    + apply Qdiv_le_compat_denominator; [done|lra|lra].
    + intros _. apply Qdiv_le_compat_denominator; [done|apply rank_pos|lra].
  - split_and!; [lra| |by intros [? ?]].
    apply Qle_shift_div_l; lra.
Qed.

Lemma lexical_rank_range X self corpus query conv top_k bm doc_id r :
  HybridRetriever.lexical X self corpus query conv top_k = Ok bm →
  rank_in bm doc_id = Some r → (1 ≤ r ≤ top_k * 2)%nat.
Proof.
  unfold rank_in. intros Hbm Hr. destruct (bm !! doc_id) as [[r' s]|] eqn:Hl; simplify_eq/=.
  by destruct (lexical_inv _ _ _ _ _ _ _ _ _ _ Hbm Hl) as [? _].
Qed.

Lemma dense_rank_range X c query conv top_k dn doc_id r :
  HybridRetriever.dense X c query conv top_k = Ok dn →
  rank_in dn doc_id = Some r → (1 ≤ r ≤ top_k * 2)%nat.
Proof.
  unfold rank_in. intros Hdn Hr. destruct (dn !! doc_id) as [[r' s]|] eqn:Hl; simplify_eq/=.
  by destruct (dense_inv _ _ _ _ _ _ _ _ _ Hdn Hl) as [? _].
Qed.

Lemma rank_in_is_Some (d : gmap string (nat * Q)) doc_id :
  is_Some (rank_in d doc_id) ↔ is_Some (d !! doc_id).
Proof. unfold rank_in. by rewrite fmap_is_Some. Qed.

(** ** The threshold of the context *)

(** X3. In [CouncilRAG.retrieve] (ten results, weights 0.5 and 0.5) a
    result that both sources list scores at least 1/80, so it passes the
    threshold 0.01 and its chunk is one of the filtered chunks. *)
Theorem both_sources_pass X c hr hr' corpus query conv bm dn results h :
  HybridRetriever._ensure_index c hr = Ok hr' →
  HybridRetriever.bm25_index hr' = Some corpus →
  HybridRetriever.lexical X hr' corpus query conv 10 = Ok bm →
  HybridRetriever.dense X c query conv 10 = Ok dn →
  (HybridRetriever.retrieve X c hr query conv 10 (1 # 2) (1 # 2)).1 = Ok results →
  h ∈ results →
  is_Some (bm !! HybridRetriever.h_id h) → is_Some (dn !! HybridRetriever.h_id h) →
  (1 # 80 <= HybridRetriever.h_score h)%Q ∧
  (CouncilRAG.threshold <= HybridRetriever.h_score h)%Q ∧
  CouncilRAG.to_chunk h ∈ CouncilRAG.filtered_chunks results.
Proof.
  intros Hens Hidx Hbm Hdn Hres Hh Hb Hd.
  unfold HybridRetriever.retrieve in Hres. rewrite Hens in Hres. simpl in Hres.
  destruct (hit_score _ _ _ _ _ _ _ _ _ _ _ _ _ Hidx Hbm Hdn Hres Hh) as [Hs _].
  set (doc_id := HybridRetriever.h_id h) in *.
  destruct (rrf_term_bounds (1 # 2) (rank_in bm doc_id) (10 * 2)) as (_ & _ & Hl2); [done|..].
  { intros r. by eapply lexical_rank_range. }
  destruct (rrf_term_bounds (1 # 2) (rank_in dn doc_id) (10 * 2)) as (_ & _ & Hd2); [done|..].
  { intros r. by eapply dense_rank_range. }
  apply rank_in_is_Some in Hb, Hd. specialize (Hl2 Hb). specialize (Hd2 Hd).
  assert ((1 # 2) / (60 + inject_Z (Z.of_nat (10 * 2))) == 1 # 160)%Q as Heq by reflexivity.
  rewrite Heq in Hl2, Hd2.
  assert (1 # 80 <= HybridRetriever.h_score h)%Q as Hlow.
  { rewrite Hs, rrf_fused. unfold fused.
    assert (1 # 80 == (1 # 160) + (1 # 160))%Q as -> by reflexivity. lra. }
  assert (CouncilRAG.threshold <= HybridRetriever.h_score h)%Q as Hpass.
  { eapply Qle_trans; [|exact Hlow]. by vm_compute. }
  split_and!; [done..|].
  unfold CouncilRAG.filtered_chunks. apply list_elem_of_fmap. exists h. split; [done|].
  apply list_elem_of_filter. split; [|done].
  unfold Py.Qltb. apply negb_false_iff, Qle_bool_iff. done.
Qed.

(** On the query "Paris" of [Demo.cities]. *)
Lemma both_sources_pass_witness :
  Forall
    (λ h, is_Some (Demo.bm_cities !! HybridRetriever.h_id h) →
          is_Some (Demo.dn_cities !! HybridRetriever.h_id h) →
          (1 # 80 <= HybridRetriever.h_score h)%Q ∧
          (CouncilRAG.threshold <= HybridRetriever.h_score h)%Q ∧
          CouncilRAG.to_chunk h ∈ CouncilRAG.filtered_chunks Demo.results_cities)
    Demo.results_cities.
Proof.
  assert (HybridRetriever._ensure_index Demo.cities Demo.hr_cities = Ok Demo.hr_cities) as H0
    by (vm_compute; reflexivity).
  assert (HybridRetriever.bm25_index Demo.hr_cities = Some Demo.corpus_cities) as H1
    by (vm_compute; reflexivity).
  assert (HybridRetriever.lexical Demo.X Demo.hr_cities Demo.corpus_cities "Paris" "c1" 10
          = Ok Demo.bm_cities) as H2 by (vm_compute; reflexivity).
  assert (HybridRetriever.dense Demo.X Demo.cities "Paris" "c1" 10 = Ok Demo.dn_cities) as H3
    by (vm_compute; reflexivity).
  assert ((HybridRetriever.retrieve Demo.X Demo.cities Demo.hr_cities "Paris" "c1" 10
             (1 # 2) (1 # 2)).1 = Ok Demo.results_cities) as H4 by (vm_compute; reflexivity).
  apply Forall_forall. intros h Hh Hb Hd.
  exact (both_sources_pass Demo.X Demo.cities Demo.hr_cities Demo.hr_cities Demo.corpus_cities
           "Paris" "c1" Demo.bm_cities Demo.dn_cities Demo.results_cities h
           H0 H1 H2 H3 H4 Hh Hb Hd).
Defined.


(** ** What a result carries *)

Section dict_of_function.
Context {V : Type}.
Implicit Types (l : list (string * V)).

Lemma dict_lookup_elem l k v :
  (∀ v', (k, v') ∈ l → v' = v) → (k, v) ∈ l → Py.dict l !! k = Some v.
Proof.
  intros Hfun Hin. unfold Py.dict. rewrite foldl_insert_union, (right_id_L ∅ (∪)).
  destruct (list_to_map (reverse l) !! k) as [v'|] eqn:Hl.
  - apply elem_of_list_to_map_2 in Hl. rewrite elem_of_reverse in Hl. f_equal. by apply Hfun.
  - apply not_elem_of_list_to_map in Hl. destruct Hl.
    rewrite fmap_reverse, elem_of_reverse. apply list_elem_of_fmap. by exists (k, v).
Qed.

Lemma dict_lookup_None l k : k ∉ l.*1 → Py.dict l !! k = None.
Proof.
  intros Hk. destruct (Py.dict l !! k) as [v|] eqn:Hl; [|done].
  apply dict_lookup_Some in Hl. destruct Hk. apply list_elem_of_fmap. by exists (k, v).
Qed.
End dict_of_function.

Lemma get_elem c ids full doc_id :
  Chroma.get c ids = Ok full → doc_id ∈ ids →
  ∀ e, (doc_id, e) ∈ full ↔ Chroma.docs c !! doc_id = Some e.
Proof.
  intros Hget Hid e. split; [by intros [_ ?]%(get_inv _ _ _ _ _ Hget)|].
  unfold Chroma.get in Hget. destruct (Chroma.fails c Chroma.OpFetch); [done|].
  injection Hget as <-. intros He. apply list_elem_of_omap. exists doc_id.
  split; [done|]. by rewrite He.
Qed.

(** X4. The metadata and text of a result are those the collection
    holds for its identifier when the results are fetched, not those of
    the snapshot; a result whose identifier the collection no longer holds
    has empty metadata and the empty text. *)
Theorem hit_carries_stored_record X c self query conv top_k wl wd results h :
  (HybridRetriever.retrieve X c self query conv top_k wl wd).1 = Ok results →
  h ∈ results →
  match Chroma.docs c !! HybridRetriever.h_id h with
  | Some e =>
      HybridRetriever.h_metadata h = Chroma.e_meta e ∧
      HybridRetriever.h_text h = Chroma.e_doc e
  | None => HybridRetriever.h_metadata h = ∅ ∧ HybridRetriever.h_text h = ""
  end.
Proof.
  intros (self' & _ & _ & Hres)%retrieve_inv Hh.
  apply retrieve_indexed_inv in Hres as [->|(corpus & bm & dn & full & _ & _ & _ & Hfull & ->)].
  { by apply elem_of_nil in Hh. }
  unfold HybridRetriever.build_results in Hh.
  apply list_elem_of_fmap in Hh as ([k s] & -> & Hin). simpl.
  assert (k ∈ (HybridRetriever.sorted_ids top_k
                 (HybridRetriever.combined_scores X wl wd bm dn)).*1) as Hk.
  { apply list_elem_of_fmap. by exists (k, s). }
  pose proof (get_elem _ _ _ _ Hfull Hk) as Hfetch.
  destruct (Chroma.docs c !! k) as [e|] eqn:He.
  - rewrite (dict_lookup_elem _ k (Chroma.e_meta e, Chroma.e_doc e)); [done| |].
    + intros [m d] ([k' e'] & [= -> -> ->] & Hin')%list_elem_of_fmap.
      apply Hfetch in Hin'. by simplify_eq.
    + apply list_elem_of_fmap. exists (k, e). split; [done|]. by apply Hfetch.
  - rewrite dict_lookup_None; [done|].
    rewrite <-list_fmap_compose. intros ([k' e'] & Hk' & Hin')%list_elem_of_fmap.
    simpl in Hk'. subst k'. apply Hfetch in Hin'. done.
Qed.

(** On the stale index of [Demo.after_reuse]: the result carries the record
    written after the index was built. *)
Lemma hit_carries_stored_record_witness :
  Forall
    (λ h, match Chroma.docs Demo.after_reuse !! HybridRetriever.h_id h with
          | Some e =>
              HybridRetriever.h_metadata h = Chroma.e_meta e ∧
              HybridRetriever.h_text h = Chroma.e_doc e
          | None => HybridRetriever.h_metadata h = ∅ ∧ HybridRetriever.h_text h = ""
          end)
    Sample.results_stale.
Proof.
  apply Forall_forall. intros h Hh.
  apply (hit_carries_stored_record Demo.X Demo.after_reuse Demo.hr_stale "alpha" "b" 10
           (1 # 2) (1 # 2) Sample.results_stale h); [|exact Hh].
  vm_compute. reflexivity.
Defined.


(** ** The snapshot a rebuild takes *)

(** X5. After [refresh_index] the object is an exact copy of the
    collection as it was scanned: [doc_ids] lists each identifier of the
    collection once, [id_to_doc] and [id_to_metadata] hold its text and
    metadata, there is no index exactly when the collection is empty, and
    the tokenized corpus has, at the position of each identifier, the
    lower-cased words of its text. *)
Theorem refresh_index_copies_collection c self self' :
  HybridRetriever.refresh_index c self = Ok self' →
  NoDup (HybridRetriever.doc_ids self') ∧
  (∀ k, k ∈ HybridRetriever.doc_ids self' ↔ is_Some (Chroma.docs c !! k)) ∧
  (∀ k, HybridRetriever.id_to_doc self' !! k = Chroma.e_doc <$> Chroma.docs c !! k) ∧
  (∀ k, HybridRetriever.id_to_metadata self' !! k = Chroma.e_meta <$> Chroma.docs c !! k) ∧
  (HybridRetriever.bm25_index self' = None ↔ Chroma.docs c = ∅) ∧
  (∀ corpus, HybridRetriever.bm25_index self' = Some corpus →
     length corpus = length (HybridRetriever.doc_ids self') ∧
     ∀ i k, HybridRetriever.doc_ids self' !! i = Some k →
       corpus !! i
       = (λ e, Py.split (Py.lower (Chroma.e_doc e))) <$> Chroma.docs c !! k).
Proof.
  unfold HybridRetriever.refresh_index, HybridRetriever._rebuild_bm25_index, Chroma.get_all.
  destruct (Chroma.fails c Chroma.OpScan); [done|]. simpl.
  destruct (map_to_list (Chroma.docs c)) as [|kv l] eqn:Hl.
  - apply map_to_list_empty_iff in Hl. simpl. intros [= <-]. simpl. rewrite Hl.
    split_and!; try done.
    + constructor.
    + intros k. rewrite lookup_empty. split; [by intros ?%elem_of_nil|by intros [? ?]].
  - rewrite <-Hl. clear kv l Hl.
    destruct (Py.is_empty _ || Py.is_empty _) eqn:Hemp.
    { intros [= <-]. simpl.
      assert (map_to_list (Chroma.docs c) = []) as Hnil.
      { destruct (map_to_list (Chroma.docs c)); [done|]. done. }
      apply map_to_list_empty_iff in Hnil. rewrite Hnil.
      split_and!; try done.
      - constructor.
      - intros k. rewrite lookup_empty. split; [by intros ?%elem_of_nil|by intros [? ?]]. }
    intros [= <-]. simpl.
    assert (∀ {V} (f : Chroma.entry → V) k,
      Py.dict (zip (map_to_list (Chroma.docs c)).*1 (f <$> (map_to_list (Chroma.docs c)).*2)) !! k
      = f <$> Chroma.docs c !! k) as Hdict.
    { intros V f k. rewrite zip_fst_fmap_snd.
      destruct (Chroma.docs c !! k) as [e|] eqn:He; simpl.
      - apply dict_lookup_elem.
        + intros v' ([k' e'] & [= -> ->] & Hin)%list_elem_of_fmap.
          apply elem_of_map_to_list in Hin. by simplify_eq.
        + apply list_elem_of_fmap. exists (k, e). split; [done|].
          by apply elem_of_map_to_list.
      - apply dict_lookup_None. rewrite <-list_fmap_compose.
        intros ([k' e'] & Hk & Hin)%list_elem_of_fmap. simpl in Hk. subst k'.
        apply elem_of_map_to_list in Hin. congruence. }
    split_and!.
    + apply NoDup_fst_map_to_list.
    + intros k. rewrite list_elem_of_fmap. split.
      * intros ([k' e] & -> & Hin). apply elem_of_map_to_list in Hin. by exists e.
      * intros [e He]. exists (k, e). split; [done|]. by apply elem_of_map_to_list.
    + intros k. apply (Hdict _ Chroma.e_doc).
    + intros k. apply (Hdict _ Chroma.e_meta).
    + split; [done|]. intros Hnil. rewrite Hnil, map_to_list_empty in Hemp. done.
    + intros corpus [= <-]. rewrite !length_fmap. split; [done|].
      intros i k Hi. simpl in Hi. rewrite list_lookup_fmap in Hi. rewrite !list_lookup_fmap.
      destruct (map_to_list (Chroma.docs c) !! i) as [[k' e]|] eqn:Hi'; simplify_eq/=.
      apply list_elem_of_lookup_2, elem_of_map_to_list in Hi'. by rewrite Hi'.
Qed.

(** On [Demo.cities]: the six documents of the three conversations. *)
Lemma refresh_index_copies_collection_witness :
  HybridRetriever.refresh_index Demo.cities HybridRetriever.init = Ok Sample.hr_refreshed ∧
  NoDup (HybridRetriever.doc_ids Sample.hr_refreshed) ∧
  (∀ k, k ∈ HybridRetriever.doc_ids Sample.hr_refreshed
        ↔ is_Some (Chroma.docs Demo.cities !! k)) ∧
  (∀ k, HybridRetriever.id_to_doc Sample.hr_refreshed !! k
        = Chroma.e_doc <$> Chroma.docs Demo.cities !! k).
Proof.
  assert (HybridRetriever.refresh_index Demo.cities HybridRetriever.init
          = Ok Sample.hr_refreshed) as H by (vm_compute; reflexivity).
  split; [exact H|].
  destruct (refresh_index_copies_collection Demo.cities HybridRetriever.init
              Sample.hr_refreshed H) as (H1 & H2 & H3 & _).
  split_and!; [exact H1|exact H2|exact H3].
Defined.


(** ** The indices of the lexical step *)

Lemma top_indices_in_range X (scores : list Q) top_k idx :
  ScoresInRange X →
  idx ∈ HybridRetriever.bm25_top_indices X scores top_k → (idx < length scores)%nat.
Proof.
  intros HX Hin. unfold HybridRetriever.bm25_top_indices in Hin.
  eapply elem_of_sublist in Hin; [|apply sublist_take]. rewrite elem_of_reverse in Hin.
  by apply (argsort_in_range X HX) in Hin.
Qed.

Lemma bm25_loop_no_index_error self scores conv todo acc :
  (∀ rank idx, (rank, idx) ∈ todo →
     (idx < length (HybridRetriever.doc_ids self))%nat ∧ (idx < length scores)%nat) →
  HybridRetriever.bm25_loop self scores conv todo acc ≠ Raise IndexError.
Proof.
  revert acc. induction todo as [|[rank idx] todo IH]; intros acc Hin; simpl; [done|].
  destruct (Hin rank idx) as [Hd Hs]; [by left|].
  apply lookup_lt_is_Some_2 in Hd as [d ->]. apply lookup_lt_is_Some_2 in Hs as [s ->].
  assert (∀ rank idx, (rank, idx) ∈ todo →
     (idx < length (HybridRetriever.doc_ids self))%nat ∧ (idx < length scores)%nat) as Hin'.
  { intros r i ?. apply (Hin r i). by right. }
  destruct (Qle_bool s 0); [by apply IH|].
  destruct (negb _); by apply IH.
Qed.

Lemma rebuild_aligned c self : HybridRetriever._rebuild_bm25_index c = Ok self → index_aligned self.
Proof.
  unfold HybridRetriever._rebuild_bm25_index, Chroma.get_all.
  destruct (Chroma.fails c Chroma.OpScan); [done|]. simpl.
  destruct (_ || _); intros [= <-] corpus; simpl; [done|].
  intros [= <-]. by rewrite !length_fmap.
Qed.

(** X6. The lexical step never indexes out of range. Let BM25 score
    one number per document of its corpus and [argsort] return positions
    of its argument. Where [_ensure_index] succeeds on an object whose
    corpus has one entry per identifier of [doc_ids] (as [__init__] leaves
    it), the object it leaves is such an object again, and every index of
    [bm25_top_indices] is a position of [doc_ids] and of the scores:
    neither [self.doc_ids[idx]] nor [bm25_scores[idx]] raises IndexError.
    Nothing is said here of a rebuild that raises. *)
Theorem lexical_indices_in_range X c self self' corpus query top_k :
  ScoresInRange X →
  index_aligned self →
  HybridRetriever._ensure_index c self = Ok self' →
  HybridRetriever.bm25_index self' = Some corpus →
  let bm25_scores := bm25_get_scores X corpus (Py.split (Py.lower query)) in
  index_aligned self' ∧
  length bm25_scores = length (HybridRetriever.doc_ids self') ∧
  (∀ idx, idx ∈ HybridRetriever.bm25_top_indices X bm25_scores top_k →
     is_Some (HybridRetriever.doc_ids self' !! idx) ∧ is_Some (bm25_scores !! idx)) ∧
  ∀ conv, HybridRetriever.lexical X self' corpus query conv top_k ≠ Raise IndexError.
Proof.
  intros HX Hal Hens Hidx bm25_scores.
  assert (index_aligned self') as Hal'.
  { unfold HybridRetriever._ensure_index in Hens.
    destruct (HybridRetriever.bm25_index self); [by injection Hens as <-|].
    by eapply rebuild_aligned. }
  assert (length bm25_scores = length (HybridRetriever.doc_ids self')) as Hlen.
  { unfold bm25_scores. rewrite (get_scores_length X HX). by apply Hal'. }
  assert (∀ idx, idx ∈ HybridRetriever.bm25_top_indices X bm25_scores top_k →
            (idx < length (HybridRetriever.doc_ids self'))%nat ∧ (idx < length bm25_scores)%nat)
    as Hrange.
  { intros idx Hin%(top_indices_in_range X _ _ _ HX). by rewrite <-Hlen. }
  split_and!; [done..| |].
  - intros idx [? ?]%Hrange. split; by apply lookup_lt_is_Some_2.
  - intros conv. unfold HybridRetriever.lexical. apply bm25_loop_no_index_error.
    intros rank idx [_ Hin]%elem_of_enumerate_from. apply Hrange.
    by eapply list_elem_of_lookup_2.
Qed.

Lemma demo_scores_in_range : ScoresInRange Demo.X.
Proof.
  split.
  - intros corpus q. simpl. unfold Demo.get_scores. by rewrite length_fmap.
  - intros l i. simpl. unfold Demo.argsort.
    intros ([i' x] & -> & Hin)%list_elem_of_fmap. simpl.
    apply elem_of_sort_by, elem_of_enumerate_from in Hin as [_ Hin].
    rewrite Nat.sub_0_r in Hin. by eapply lookup_lt_Some.
Qed.

(** On the first retrieval of [Demo.cities], which builds the index. *)
Lemma lexical_indices_in_range_witness :
  index_aligned Demo.hr_cities ∧
  Forall
    (λ idx, is_Some (HybridRetriever.doc_ids Demo.hr_cities !! idx))
    (HybridRetriever.bm25_top_indices Demo.X
       (bm25_get_scores Demo.X Demo.corpus_cities (Py.split (Py.lower "Paris"))) 10) ∧
  HybridRetriever.lexical Demo.X Demo.hr_cities Demo.corpus_cities "Paris" "c1" 10
  ≠ Raise IndexError.
Proof.
  assert (index_aligned HybridRetriever.init) as Hinit by (by intros corpus).
  assert (HybridRetriever._ensure_index Demo.cities HybridRetriever.init = Ok Demo.hr_cities)
    as Hens by (vm_compute; reflexivity).
  assert (HybridRetriever.bm25_index Demo.hr_cities = Some Demo.corpus_cities) as Hidx
    by (vm_compute; reflexivity).
  destruct (lexical_indices_in_range Demo.X Demo.cities HybridRetriever.init Demo.hr_cities
              Demo.corpus_cities "Paris" 10 demo_scores_in_range Hinit Hens Hidx)
    as (Hal & _ & Hrange & Hloop).
  split; [exact Hal|]. split; [|exact (Hloop "c1")].
  apply Forall_forall. intros idx Hin. exact (proj1 (Hrange idx Hin)).
Defined.


(** ** What [index_session] writes *)

Lemma elem_of_opinion_docs conv turn uq stage1 topics_str quality timestamp doc_id e :
  (doc_id, e) ∈ CouncilRAG.opinion_docs conv turn uq stage1 topics_str quality timestamp ↔
  ∃ idx o, stage1 !! idx = Some o ∧
    doc_id = conv +:+ ":turn:" +:+ pretty turn +:+ ":opinion:" +:+ pretty idx +:+ ":"
               +:+ CouncilRAG.o_model o ∧
    e = {| Chroma.e_doc := CouncilRAG.format_text uq (CouncilRAG.o_response o);
           Chroma.e_meta :=
             CouncilRAG.make_metadata conv turn "opinion" (CouncilRAG.o_model o) topics_str
               (default ∅ (quality !! CouncilRAG.o_model o)) timestamp |}.
Proof.
  unfold CouncilRAG.opinion_docs. rewrite list_elem_of_fmap. split.
  - intros ([idx o] & [= -> ->] & [_ Hin]%elem_of_enumerate_from).
    rewrite Nat.sub_0_r in Hin. by exists idx, o.
  - intros (idx & o & Hin & -> & ->). exists (idx, o). split; [done|].
    apply elem_of_enumerate_from. rewrite Nat.sub_0_r. split; [lia|done].
Qed.

Lemma elem_of_synthesis_docs conv turn uq stage3 topics_str quality timestamp doc_id e :
  (doc_id, e) ∈ CouncilRAG.synthesis_docs conv turn uq stage3 topics_str quality timestamp ↔
  let model := default "unknown" (CouncilRAG.s_model stage3) in
  let text := default "" (CouncilRAG.s_response stage3) in
  text ≠ "" ∧
  doc_id = conv +:+ ":turn:" +:+ pretty turn +:+ ":synthesis:" +:+ model ∧
  e = {| Chroma.e_doc := CouncilRAG.format_text uq text;
         Chroma.e_meta :=
           CouncilRAG.make_metadata conv turn "synthesis" model topics_str
             (default ∅ (quality !! model)) timestamp |}.
Proof.
  unfold CouncilRAG.synthesis_docs.
  destruct (default "" (CouncilRAG.s_response stage3)) as [|a text] eqn:Htext; simpl.
  - split; [by intros ?%elem_of_nil|by intros [? _]].
  - rewrite list_elem_of_singleton. split; [by intros [= -> ->]|by intros (_ & -> & ->)].
Qed.

Lemma index_session_inv X timestamp c self conv turn uq stage1 stage3 topics quality c' :
  CouncilRAG.index_session X timestamp c self conv turn uq stage1 stage3 topics quality = Ok c' →
  let batch := CouncilRAG.session_docs X timestamp conv turn uq stage1 stage3 topics quality in
  Chroma.fails c' = Chroma.fails c ∧
  (CouncilRAG.enabled self = false ∧ c' = c ∨
   CouncilRAG.enabled self = true ∧
   Chroma.docs c' = list_to_map (reverse batch) ∪ Chroma.docs c).
Proof.
  unfold CouncilRAG.index_session. destruct (CouncilRAG.enabled self); simpl.
  - destruct (CouncilRAG.session_docs _ _ _ _ _ _ _ _ _) as [|kv batch] eqn:Hb; simpl.
    + intros [= <-]. split; [done|]. right. split; [done|]. simpl.
      by rewrite (left_id_L ∅ (∪)).
    + intros (_ & ? & ?)%upsert_inv. split; [done|]. by right.
  - intros [= <-]. split; [done|]. by left.
Qed.

Lemma batch_lookup X timestamp conv turn uq stage1 stage3 topics quality doc_id :
  let batch := CouncilRAG.session_docs X timestamp conv turn uq stage1 stage3 topics quality in
  (∀ e, (doc_id, e) ∈ batch →
     (list_to_map (reverse batch) : gmap string Chroma.entry) !! doc_id = Some e) ∧
  (doc_id ∉ batch.*1 →
     (list_to_map (reverse batch) : gmap string Chroma.entry) !! doc_id = None).
Proof.
  intros batch. split.
  - intros e Hin. apply elem_of_list_to_map_1.
    + rewrite fmap_reverse, reverse_Permutation. apply session_docs_NoDup.
    + by rewrite elem_of_reverse.
  - intros Hout. apply not_elem_of_list_to_map_1. by rewrite fmap_reverse, elem_of_reverse.
Qed.

Lemma index_session_other_ids X timestamp c self conv turn uq stage1 stage3 topics quality c'
    doc_id :
  CouncilRAG.index_session X timestamp c self conv turn uq stage1 stage3 topics quality = Ok c' →
  doc_id ∉ (CouncilRAG.session_docs X timestamp conv turn uq stage1 stage3 topics quality).*1 →
  Chroma.docs c' !! doc_id = Chroma.docs c !! doc_id.
Proof.
  intros Hidx Hout.
  destruct (index_session_inv _ _ _ _ _ _ _ _ _ _ _ _ Hidx) as [_ [[_ ->]|[_ Hdocs]]]; [done|].
  rewrite Hdocs, lookup_union.
  destruct (batch_lookup X timestamp conv turn uq stage1 stage3 topics quality doc_id) as [_ Hb].
  rewrite (Hb Hout). by destruct (Chroma.docs c !! doc_id).
Qed.

(** X7. What an enabled engine indexed can be read back: after
    [index_session] the collection holds, under the identifier
    [<conversation>:turn:<turn>:opinion:<position>:<model>] of each answer
    and, for a non-empty final text, under
    [<conversation>:turn:<turn>:synthesis:<model>], the text
    [Q: <question>\n\nA: <answer>] with the metadata of the session, and
    [get] returns that record unless the fetch itself fails. *)
Theorem index_session_read_back X timestamp c self conv turn uq stage1 stage3 topics quality c' :
  CouncilRAG.enabled self = true →
  CouncilRAG.index_session X timestamp c self conv turn uq stage1 stage3 topics quality = Ok c' →
  (∀ idx o, stage1 !! idx = Some o →
     Chroma.docs c' !! (conv +:+ ":turn:" +:+ pretty turn +:+ ":opinion:" +:+ pretty idx
                          +:+ ":" +:+ CouncilRAG.o_model o)
     = Some {| Chroma.e_doc := CouncilRAG.format_text uq (CouncilRAG.o_response o);
               Chroma.e_meta :=
                 CouncilRAG.make_metadata conv turn "opinion" (CouncilRAG.o_model o)
                   (json_dumps X topics) (default ∅ (quality !! CouncilRAG.o_model o))
                   timestamp |}) ∧
  (∀ text, CouncilRAG.s_response stage3 = Some text → text ≠ "" →
     let model := default "unknown" (CouncilRAG.s_model stage3) in
     Chroma.docs c' !! (conv +:+ ":turn:" +:+ pretty turn +:+ ":synthesis:" +:+ model)
     = Some {| Chroma.e_doc := CouncilRAG.format_text uq text;
               Chroma.e_meta :=
                 CouncilRAG.make_metadata conv turn "synthesis" model (json_dumps X topics)
                   (default ∅ (quality !! model)) timestamp |}) ∧
  (∀ doc_id e,
     (doc_id, e) ∈ CouncilRAG.session_docs X timestamp conv turn uq stage1 stage3 topics quality →
     Chroma.docs c' !! doc_id = Some e ∧
     (Chroma.fails c Chroma.OpFetch = false → Chroma.get c' [doc_id] = Ok [(doc_id, e)])).
Proof.
  intros Hen Hidx.
  destruct (index_session_inv _ _ _ _ _ _ _ _ _ _ _ _ Hidx) as [Hf [[? _]|[_ Hdocs]]]; [congruence|].
  assert (∀ doc_id e,
     (doc_id, e) ∈ CouncilRAG.session_docs X timestamp conv turn uq stage1 stage3 topics quality →
     Chroma.docs c' !! doc_id = Some e) as Hread.
  { intros doc_id e Hin. rewrite Hdocs, lookup_union.
    destruct (batch_lookup X timestamp conv turn uq stage1 stage3 topics quality doc_id) as [Hb _].
    rewrite (Hb e Hin). by destruct (Chroma.docs c !! doc_id). }
  split_and!.
  - intros idx o Hin. apply Hread. unfold CouncilRAG.session_docs.
    apply elem_of_app. left. apply elem_of_opinion_docs. by exists idx, o.
  - intros text Htext Hne model. apply Hread. unfold CouncilRAG.session_docs.
    apply elem_of_app. right. apply elem_of_synthesis_docs. rewrite Htext. done.
  - intros doc_id e Hin. split; [by apply Hread|].
    intros Hfetch. unfold Chroma.get. rewrite Hf, Hfetch. simpl.
    by rewrite (Hread _ _ Hin).
Qed.

(** On the turn of [Demo.cities]. *)
Lemma index_session_read_back_witness :
  Chroma.docs Demo.cities !! Demo.op2
  = Some {| Chroma.e_doc := CouncilRAG.format_text "capital" "Lyon is large too";
            Chroma.e_meta :=
              CouncilRAG.make_metadata "c1" 0 "opinion" "m2" (json_dumps Demo.X [])
                (default ∅ ((∅ : gmap string (gmap string Q)) !! "m2")) "t0" |} ∧
  Forall
    (λ kv, Chroma.docs Demo.cities !! kv.1 = Some kv.2 ∧
           Chroma.get Demo.cities [kv.1] = Ok [kv])
    Sample.batch_cities.
Proof.
  assert (CouncilRAG.index_session Demo.X "t0" Demo.others CouncilRAG.init "c1" 0 "capital"
            Sample.stage1_cities Sample.stage3_cities [] ∅ = Ok Demo.cities) as Hidx
    by (vm_compute; reflexivity).
  destruct (index_session_read_back Demo.X "t0" Demo.others CouncilRAG.init "c1" 0 "capital"
              Sample.stage1_cities Sample.stage3_cities [] ∅ Demo.cities eq_refl Hidx)
    as (Hop & _ & Hall).
  split; [exact (Hop 1%nat (Demo.opinion "m2" "Lyon is large too") eq_refl)|].
  apply Forall_forall. intros [doc_id e] Hin. destruct (Hall doc_id e Hin) as [Hdoc Hget].
  split; [exact Hdoc|exact (Hget eq_refl)].
Defined.


(** X8. [index_session] only adds and overwrites: a record under an
    identifier that is not one of the session keeps its text and metadata,
    no identifier disappears from the collection, every new identifier is
    one of the session, and the failure behaviour of the collection is
    unchanged. *)
Theorem index_session_frame X timestamp c self conv turn uq stage1 stage3 topics quality c' :
  CouncilRAG.index_session X timestamp c self conv turn uq stage1 stage3 topics quality = Ok c' →
  let ids := (CouncilRAG.session_docs X timestamp conv turn uq stage1 stage3 topics quality).*1 in
  Chroma.fails c' = Chroma.fails c ∧
  (∀ doc_id, doc_id ∉ ids → Chroma.docs c' !! doc_id = Chroma.docs c !! doc_id) ∧
  (∀ doc_id, is_Some (Chroma.docs c !! doc_id) → is_Some (Chroma.docs c' !! doc_id)) ∧
  (∀ doc_id, is_Some (Chroma.docs c' !! doc_id) →
     is_Some (Chroma.docs c !! doc_id) ∨ doc_id ∈ ids).
Proof.
  intros Hidx ids.
  pose proof (λ doc_id, index_session_other_ids _ _ _ _ _ _ _ _ _ _ _ _ doc_id Hidx) as Hother.
  destruct (index_session_inv _ _ _ _ _ _ _ _ _ _ _ _ Hidx) as [Hf [[_ ->]|[_ Hdocs]]].
  { split_and!; auto. }
  split_and!; [done|exact Hother|..].
  - intros doc_id [e He]. rewrite Hdocs, lookup_union, He.
    destruct (list_to_map _ !! doc_id); by eexists.
  - intros doc_id Hsome. destruct (decide (doc_id ∈ ids)) as [?|Hout]; [by right|left].
    by rewrite <-(Hother doc_id Hout).
Qed.

(** On the turn of [Demo.cities], indexed on top of [Demo.others]. *)
Lemma index_session_frame_witness :
  Chroma.fails Demo.cities = Chroma.fails Demo.others ∧
  (∀ doc_id, doc_id ∉ Sample.batch_cities.*1 →
     Chroma.docs Demo.cities !! doc_id = Chroma.docs Demo.others !! doc_id) ∧
  (∀ doc_id, is_Some (Chroma.docs Demo.others !! doc_id) →
     is_Some (Chroma.docs Demo.cities !! doc_id)) ∧
  (∀ doc_id, is_Some (Chroma.docs Demo.cities !! doc_id) →
     is_Some (Chroma.docs Demo.others !! doc_id) ∨ doc_id ∈ Sample.batch_cities.*1).
Proof.
  assert (CouncilRAG.index_session Demo.X "t0" Demo.others CouncilRAG.init "c1" 0 "capital"
            Sample.stage1_cities Sample.stage3_cities [] ∅ = Ok Demo.cities) as Hidx
    by (vm_compute; reflexivity).
  exact (index_session_frame Demo.X "t0" Demo.others CouncilRAG.init "c1" 0 "capital"
           Sample.stage1_cities Sample.stage3_cities [] ∅ Demo.cities Hidx).
Defined.


Lemma session_docs_empty X timestamp conv turn uq stage1 stage3 topics quality :
  Py.is_empty (CouncilRAG.session_docs X timestamp conv turn uq stage1 stage3 topics quality)
  = true ↔
  stage1 = [] ∧ default "" (CouncilRAG.s_response stage3) = "".
Proof.
  unfold CouncilRAG.session_docs, CouncilRAG.opinion_docs, CouncilRAG.synthesis_docs.
  destruct stage1 as [|o stage1]; simpl.
  - destruct (default "" (CouncilRAG.s_response stage3)); simpl.
    + by split.
    + split; [done|by intros [_ ?]].
  - split; [done|by intros [? _]].
Qed.

(** X9. When [index_session] leaves the collection alone, and that
    it does not hide a failed write. On a disabled engine, and with
    nothing to write (no answer and an empty final text), it returns
    without a call of the collection, even one whose every call fails. On
    an enabled engine with something to write it raises when the upsert
    of the collection fails. *)
Theorem index_session_outcomes X timestamp c self conv turn uq stage1 stage3 topics quality :
  let outcome :=
    CouncilRAG.index_session X timestamp c self conv turn uq stage1 stage3 topics quality in
  (CouncilRAG.enabled self = false → outcome = Ok c) ∧
  (stage1 = [] → default "" (CouncilRAG.s_response stage3) = "" → outcome = Ok c) ∧
  (CouncilRAG.enabled self = true →
   stage1 ≠ [] ∨ default "" (CouncilRAG.s_response stage3) ≠ "" →
   Chroma.fails c Chroma.OpUpsert = true →
   ∃ e, outcome = Raise e).
Proof.
  intros outcome. unfold outcome.
  pose proof (session_docs_empty X timestamp conv turn uq stage1 stage3 topics quality) as Hemp.
  unfold CouncilRAG.index_session. split_and!.
  - by intros ->.
  - intros H1 H2. destruct Hemp as [_ Hemp]. rewrite (Hemp (conj H1 H2)).
    by destruct (CouncilRAG.enabled self).
  - intros -> Hne Hfail. simpl.
    destruct (Py.is_empty _) eqn:Hb.
    + destruct (proj1 Hemp eq_refl) as [H1 H2]. by destruct Hne.
    + unfold Chroma.upsert. rewrite Hfail. by eexists.
Qed.

(** ** Identifiers of different sessions *)

Lemma pretty_N_colon_free (n : N) : colon_free (pretty n).
Proof.
  unfold pretty, pretty_N. case_decide; [by compute|].
  by apply pretty_N_go_colon_free.
Qed.

Lemma pretty_Z_colon_free (z : Z) : colon_free (pretty z).
Proof.
  destruct z as [|p|p]; unfold pretty, pretty_Z.
  - by compute.
  - apply pretty_N_colon_free.
  - split; [done|]. apply pretty_N_colon_free.
Qed.

Lemma session_id_shape X timestamp conv turn uq stage1 stage3 topics quality doc_id :
  doc_id ∈ (CouncilRAG.session_docs X timestamp conv turn uq stage1 stage3 topics quality).*1 →
  ∃ rest, doc_id = conv +:+ ":turn:" +:+ pretty turn +:+ ":" +:+ rest.
Proof.
  intros ([k e] & -> & Hin)%list_elem_of_fmap. simpl.
  unfold CouncilRAG.session_docs in Hin. apply elem_of_app in Hin as [Hin|Hin].
  - apply elem_of_opinion_docs in Hin as (idx & o & _ & -> & _). by eexists.
  - apply elem_of_synthesis_docs in Hin as (_ & -> & _). by eexists.
Qed.

(** X10. Two sessions never write under the same identifier when
    they are turns of two conversations whose identifiers contain no colon
    (as the UUIDs the server issues), or two different turns of one
    conversation: the identifiers of the two batches are disjoint, so
    indexing one session leaves every record of the other as it was. *)
Theorem sessions_never_collide X tA tB c self A B turnA turnB uqA uqB
    stage1A stage1B stage3A stage3B topicsA topicsB qualityA qualityB c' :
  (A ≠ B ∧ colon_free A ∧ colon_free B) ∨ (A = B ∧ turnA ≠ turnB) →
  CouncilRAG.index_session X tB c self B turnB uqB stage1B stage3B topicsB qualityB = Ok c' →
  ∀ doc_id,
    doc_id ∈ (CouncilRAG.session_docs X tA A turnA uqA stage1A stage3A topicsA qualityA).*1 →
    (doc_id ∉ (CouncilRAG.session_docs X tB B turnB uqB stage1B stage3B topicsB qualityB).*1) ∧
    Chroma.docs c' !! doc_id = Chroma.docs c !! doc_id.
Proof.
  intros Hdiff Hidx doc_id HinA.
  assert (doc_id ∉ (CouncilRAG.session_docs X tB B turnB uqB stage1B stage3B topicsB qualityB).*1)
    as Hout.
  { intros HinB. apply session_id_shape in HinA as [restA ->].
    apply session_id_shape in HinB as [restB Heq].
    destruct Hdiff as [(HAB & HA & HB)|[-> Hturn]].
    - apply HAB.
      exact (colon_free_prefix A B ("turn:" +:+ pretty turnA +:+ ":" +:+ restA)
               ("turn:" +:+ pretty turnB +:+ ":" +:+ restB) HA HB Heq).
    - do 2 apply string_app_inv_head in Heq.
      apply colon_free_prefix in Heq; [|apply pretty_Z_colon_free..].
      apply Hturn. by apply (inj pretty). }
  split; [done|]. by eapply index_session_other_ids.
Qed.

(** The turn of c1 against that of c3, and against a second turn of c3. *)
Lemma sessions_never_collide_witness :
  Forall
    (λ doc_id,
       Chroma.docs Demo.others !! doc_id
       = Chroma.docs (Demo.index Demo.empty "t1" "c2" 0 "harbour"
                        [Demo.opinion "m1" "Lisbon Portugal"]
                        (Demo.synthesis "chair" "Lisbon")) !! doc_id)
    Sample.batch_cities.*1 ∧
  Forall
    (λ doc_id,
       doc_id ∉ (CouncilRAG.session_docs Demo.X "t2" "c3" 1 "tea"
                   [Demo.opinion "m1" "green leaves"] Demo.no_synthesis [] ∅).*1)
    (CouncilRAG.session_docs Demo.X "t2" "c3" 0 "tea"
       [Demo.opinion "m1" "green leaves"] Demo.no_synthesis [] ∅).*1.
Proof.
  assert (colon_free "c1") as Hc1 by (vm_compute; intuition discriminate).
  assert (colon_free "c3") as Hc3 by (vm_compute; intuition discriminate).
  assert (CouncilRAG.index_session Demo.X "t2"
            (Demo.index Demo.empty "t1" "c2" 0 "harbour"
               [Demo.opinion "m1" "Lisbon Portugal"] (Demo.synthesis "chair" "Lisbon"))
            CouncilRAG.init "c3" 0 "tea" [Demo.opinion "m1" "green leaves"]
            Demo.no_synthesis [] ∅ = Ok Demo.others) as Hidx by (vm_compute; reflexivity).
  assert (CouncilRAG.index_session Demo.X "t2" Demo.others CouncilRAG.init "c3" 1 "tea"
            [Demo.opinion "m1" "green leaves"] Demo.no_synthesis [] ∅
          = Ok (Demo.index Demo.others "t2" "c3" 1 "tea" [Demo.opinion "m1" "green leaves"]
                  Demo.no_synthesis)) as Hidx' by (vm_compute; reflexivity).
  split; apply Forall_forall; intros doc_id Hin.
  - refine (proj2 (sessions_never_collide Demo.X "t0" "t2" _ CouncilRAG.init "c1" "c3" 0 0
                     "capital" "tea" Sample.stage1_cities [Demo.opinion "m1" "green leaves"]
                     Sample.stage3_cities Demo.no_synthesis [] [] ∅ ∅ Demo.others
                     (or_introl (conj _ (conj Hc1 Hc3))) Hidx doc_id Hin)).
    discriminate.
  - refine (proj1 (sessions_never_collide Demo.X "t2" "t2" Demo.others CouncilRAG.init "c3" "c3"
                     0 1 "tea" "tea" [Demo.opinion "m1" "green leaves"]
                     [Demo.opinion "m1" "green leaves"] Demo.no_synthesis Demo.no_synthesis
                     [] [] ∅ ∅ _ (or_intror (conj eq_refl _)) Hidx' doc_id Hin)).
    discriminate.
Defined.

(** ** Refreshing the index *)


(** X11. After [refresh_hybrid_index] on an enabled engine the
    snapshot agrees with the collection, and a retrieval for one
    conversation returns no record whose metadata names another
    conversation, whatever the index held before the refresh. *)
Theorem refresh_restores_isolation X c self self' hr' query A B top_k wl wd results h :
  ExternalsOk X →
  A ≠ B →
  CouncilRAG.enabled self = true →
  CouncilRAG.refresh_hybrid_index c self = Ok self' →
  CouncilRAG.hybrid_retriever self' = Some hr' →
  (HybridRetriever.retrieve X c hr' query B top_k wl wd).1 = Ok results →
  h ∈ results →
  snapshot_current hr' c ∧
  HybridRetriever.h_metadata h !! "conversation_id" ≠ Some (VStr A).
Proof.
  intros HX HAB Hen Href Hhr' Hres Hh.
  assert (snapshot_current hr' c) as Hcur.
  { unfold CouncilRAG.refresh_hybrid_index in Href.
    destruct (CouncilRAG.hybrid_retriever self) as [hr|] eqn:Hhr;
      [|injection Href as <-; congruence].
    rewrite Hen in Href.
    destruct (HybridRetriever.refresh_index c hr) as [hr1|] eqn:Hhr1; [|done].
    simpl in Href. injection Href as <-. simpl in Hhr'. injection Hhr' as <-.
    by eapply refresh_index_current. }
  split; [done|].
  destruct (retrieve_scoped _ _ _ _ _ _ _ _ _ _ HX Hcur Hres Hh) as [-> | ->].
  - by rewrite lookup_empty.
  - congruence.
Qed.

(** On the stale engine of [Demo.after_reuse]: once refreshed, the record
    that conversation b used to see is returned to its owner only. *)
Lemma refresh_restores_isolation_witness :
  Sample.results_restored ≠ [] ∧
  Forall (λ h, HybridRetriever.h_metadata h !! "conversation_id" ≠ Some (VStr "b"))
    Sample.results_restored.
Proof.
  assert (CouncilRAG.refresh_hybrid_index Demo.after_reuse Sample.rag_stale
          = Ok Sample.rag_restored) as Href by (vm_compute; reflexivity).
  assert (CouncilRAG.hybrid_retriever Sample.rag_restored = Some Sample.hr_restored) as Hhr
    by (vm_compute; reflexivity).
  assert ((HybridRetriever.retrieve Demo.X Demo.after_reuse Sample.hr_restored "alpha"
             "b:turn:1:synthesis:x" 10 (1 # 2) (1 # 2)).1 = Ok Sample.results_restored) as Hres
    by (vm_compute; reflexivity).
  assert ("b" ≠ "b:turn:1:synthesis:x") as Hne by discriminate.
  assert (Sample.results_restored ≠ []) as Hsome by (vm_compute; discriminate).
  assert (CouncilRAG.enabled Sample.rag_stale = true) as Hen by reflexivity.
  split; [exact Hsome|].
  apply Forall_forall. intros h Hh.
  exact (proj2 (refresh_restores_isolation Demo.X Demo.after_reuse Sample.rag_stale
                     Sample.rag_restored Sample.hr_restored "alpha" "b" "b:turn:1:synthesis:x"
                     10 (1 # 2) (1 # 2) Sample.results_restored h demo_ok Hne Hen Href Hhr
                     Hres Hh)).
Defined.


(** ** A stale index and the context *)

(** X12. With the default weights a record reaches the context
    only under an identifier that both sources list, so only under one
    that the snapshot has: when the index already exists, [retrieve]
    leaves the object as it is, and every chunk that passes the threshold
    has an identifier of [doc_ids] whose snapshot metadata and stored
    metadata both name the conversation. An identifier that the snapshot
    does not have is therefore never part of the context until the index
    is refreshed. (The text under an identifier the snapshot has is the
    one the collection holds now, see [stale_index_reads_new_text].) *)
Theorem context_needs_indexed_document X c hr corpus query conv results ch :
  HybridRetriever.bm25_index hr = Some corpus →
  (HybridRetriever.retrieve X c hr query conv 10 (1 # 2) (1 # 2)).1 = Ok results →
  ch ∈ CouncilRAG.filtered_chunks results →
  (HybridRetriever.retrieve X c hr query conv 10 (1 # 2) (1 # 2)).2 = hr ∧
  CouncilRAG.c_id ch ∈ HybridRetriever.doc_ids hr ∧
  in_conversation (default ∅ (HybridRetriever.id_to_metadata hr !! CouncilRAG.c_id ch)) conv
    = true ∧
  ∃ e, Chroma.docs c !! CouncilRAG.c_id ch = Some e ∧
       in_conversation (Chroma.e_meta e) conv = true.
Proof.
  intros Hidx Hres Hch.
  unfold HybridRetriever.retrieve, HybridRetriever._ensure_index in *.
  rewrite Hidx in *. simpl in *. split; [done|].
  apply list_elem_of_fmap in Hch as (h & -> & [Hpass Hh]%list_elem_of_filter). simpl.
  unfold Py.Qltb in Hpass. apply negb_false_iff, Qle_bool_iff in Hpass.
  split_and!; [..|by eapply passing_hit_in_dense].
  all: destruct (retrieve_indexed_inv _ _ _ _ _ _ _ _ _ Hres)
         as [->|(corpus' & bm & dn & full & Hidx' & Hbm & Hdn & _ & _)];
         [by apply elem_of_nil in Hh|].
  all: destruct (hit_score _ _ _ _ _ _ _ _ _ _ _ _ _ Hidx' Hbm Hdn Hres Hh) as [Hs _].
  all: destruct (bm !! HybridRetriever.h_id h) as [[r s]|] eqn:Hb.
  1,3: destruct (lexical_inv _ _ _ _ _ _ _ _ _ _ Hbm Hb) as (_ & idx & _ & Hd & _ & _ & Hc).
  - by eapply list_elem_of_lookup_2.
  - done.
  - exfalso. eapply Qlt_not_le; [|exact Hpass]. rewrite Hs, rrf_fused.
    apply fused_single_source.
    + intros r. by eapply lexical_rank_ge_1.
    + intros r. by eapply dense_rank_ge_1.
    + left. by apply rank_in_None.
  - exfalso. eapply Qlt_not_le; [|exact Hpass]. rewrite Hs, rrf_fused.
    apply fused_single_source.
    + intros r. by eapply lexical_rank_ge_1.
    + intros r. by eapply dense_rank_ge_1.
    + left. by apply rank_in_None.
Qed.

(** On [Demo.cities] and the query "Paris". *)
Lemma context_needs_indexed_document_witness :
  CouncilRAG.filtered_chunks Demo.results_cities ≠ [] ∧
  Forall
    (λ ch, CouncilRAG.c_id ch ∈ HybridRetriever.doc_ids Demo.hr_cities ∧
           ∃ e, Chroma.docs Demo.cities !! CouncilRAG.c_id ch = Some e ∧
                in_conversation (Chroma.e_meta e) "c1" = true)
    (CouncilRAG.filtered_chunks Demo.results_cities).
Proof.
  assert (HybridRetriever.bm25_index Demo.hr_cities = Some Demo.corpus_cities) as Hidx
    by (vm_compute; reflexivity).
  assert ((HybridRetriever.retrieve Demo.X Demo.cities Demo.hr_cities "Paris" "c1" 10
             (1 # 2) (1 # 2)).1 = Ok Demo.results_cities) as Hres by (vm_compute; reflexivity).
  split; [vm_compute; discriminate|].
  apply Forall_forall. intros ch Hch.
  destruct (context_needs_indexed_document Demo.X Demo.cities Demo.hr_cities Demo.corpus_cities
              "Paris" "c1" Demo.results_cities ch Hidx Hres Hch) as (_ & Hin & _ & He).
  split; [exact Hin|exact He].
Defined.

(** The statement is about identifiers, not about texts: the turn of
    [Demo.cities] indexed again with another first answer, and no refresh,
    shows the new answer in the context. *)
Example stale_index_reads_new_text :
  Str.contains "Berlin"
    (CouncilRAG.retrieve Demo.X
       (Demo.index Demo.cities "t9" "c1" 0 "capital"
          [Demo.opinion "m1" "Paris Paris Berlin"; Demo.opinion "m2" "Lyon is large too"]
          (Demo.synthesis "chair" "Paris"))
       Demo.rag_cities "Paris" "c1").1 = true ∧
  Str.contains "Berlin"
    (CouncilRAG.retrieve Demo.X Demo.cities Demo.rag_cities "Paris" "c1").1 = false.
Proof. split; vm_compute; reflexivity. Qed.


(** ** The blocks of records [index_session] wrote *)

(** X13. [_format_chunk] never fails on a record [index_session]
    wrote: the block is the header
    [[Turn <turn> | Stage <stage> | Model: <model>]] with the stage
    [opinion] or [synthesis], a line break, and the stored text
    [Q: <question>\n\nA: <answer>]. *)
Theorem indexed_records_format X timestamp conv turn uq stage1 stage3 topics quality
    doc_id e similarity :
  (doc_id, e) ∈ CouncilRAG.session_docs X timestamp conv turn uq stage1 stage3 topics quality →
  ∃ stage model text,
    (stage = "opinion" ∨ stage = "synthesis") ∧
    CouncilRAG._format_chunk X
      {| CouncilRAG.c_id := doc_id; CouncilRAG.c_similarity := similarity;
         CouncilRAG.c_metadata := Chroma.e_meta e; CouncilRAG.c_text := Chroma.e_doc e |}
    = Ok ("[Turn " +:+ pretty turn +:+ " | Stage " +:+ stage +:+ " | Model: " +:+ model
            +:+ "]" +:+ Py.nl +:+ "Q: " +:+ uq +:+ Py.nl +:+ Py.nl +:+ "A: " +:+ text).
Proof.
  intros Hin.
  assert (∃ stage model text topics_str q,
    (stage = "opinion" ∨ stage = "synthesis") ∧
    Chroma.e_doc e = CouncilRAG.format_text uq text ∧
    Chroma.e_meta e = CouncilRAG.make_metadata conv turn stage model topics_str q timestamp)
    as (stage & model & text & ts & q & Hstage & Hdoc & Hmeta).
  { unfold CouncilRAG.session_docs in Hin. apply elem_of_app in Hin as [Hin|Hin].
    - apply elem_of_opinion_docs in Hin as (idx & o & _ & _ & ->). simpl.
      eexists _, _, _, _, _. split_and!; [by left|done..].
    - apply elem_of_synthesis_docs in Hin as (_ & _ & ->). simpl.
      eexists _, _, _, _, _. split_and!; [by right|done..]. }
  exists stage, model, text. split; [done|].
  unfold CouncilRAG._format_chunk. simpl. rewrite Hmeta, Hdoc.
  destruct (make_metadata_lookup conv turn stage model ts q timestamp)
    as (_ & -> & -> & -> & _).
  done.
Qed.

(** On the three records of the turn of [Demo.cities]. *)
Lemma indexed_records_format_witness :
  Forall
    (λ kv, ∃ stage model text,
       (stage = "opinion" ∨ stage = "synthesis") ∧
       CouncilRAG._format_chunk Demo.X
         {| CouncilRAG.c_id := kv.1; CouncilRAG.c_similarity := 0;
            CouncilRAG.c_metadata := Chroma.e_meta kv.2;
            CouncilRAG.c_text := Chroma.e_doc kv.2 |}
       = Ok ("[Turn " +:+ pretty 0%Z +:+ " | Stage " +:+ stage +:+ " | Model: " +:+ model
               +:+ "]" +:+ Py.nl +:+ "Q: " +:+ "capital" +:+ Py.nl +:+ Py.nl +:+ "A: " +:+ text))
    Sample.batch_cities.
Proof.
  apply Forall_forall. intros [doc_id e] Hin.
  exact (indexed_records_format Demo.X "t0" "c1" 0 "capital" Sample.stage1_cities
           Sample.stage3_cities [] ∅ doc_id e 0 Hin).
Defined.


(** ** A chunk larger than the budget *)

(** X14. The budget loop stops at the first chunk that does not
    fit and skips nothing: when the best chunk that passes the threshold
    has 2309 words or more, its estimate exceeds [RAG_MAX_TOKENS] and the
    context is the empty string, however small the chunks after it. *)
Theorem oversize_chunk_blanks_context X c self hr query conv results ch rest :
  CouncilRAG.hybrid_retriever self = Some hr →
  (HybridRetriever.retrieve X c hr query conv 10 (1 # 2) (1 # 2)).1 = Ok results →
  CouncilRAG.filtered_chunks results = ch :: rest →
  (2309 ≤ length (Py.split (CouncilRAG.c_text ch)))%nat →
  (CouncilRAG.RAG_MAX_TOKENS < CouncilRAG.est_tokens (CouncilRAG.c_text ch))%Z ∧
  CouncilRAG.build_context X results = Ok "" ∧
  (CouncilRAG.retrieve X c self query conv).1 = "".
Proof.
  intros Hhr Hres Hsplit Hwords.
  assert (CouncilRAG.RAG_MAX_TOKENS < CouncilRAG.est_tokens (CouncilRAG.c_text ch))%Z as Hover.
  { unfold CouncilRAG.RAG_MAX_TOKENS, CouncilRAG.est_tokens.
    assert (3001 ≤ (Z.of_nat (length (Py.split (CouncilRAG.c_text ch))) * 13) `div` 10)%Z; [|lia].
    apply Z.div_le_lower_bound; lia. }
  assert (CouncilRAG.build_context X results = Ok "") as Hctx.
  { unfold CouncilRAG.build_context. rewrite Hsplit. simpl.
    assert ((CouncilRAG.RAG_MAX_TOKENS <? 0 + CouncilRAG.est_tokens (CouncilRAG.c_text ch))%Z
            = true) as -> by (apply Z.ltb_lt; lia).
    done. }
  split_and!; [done..|].
  unfold CouncilRAG.retrieve, CouncilRAG.retrieve_try.
  destruct (CouncilRAG.enabled self); simpl; [|done].
  rewrite Hhr. simpl. rewrite Hres. simpl. by rewrite Hctx.
Qed.

(** On [Sample.wordy], whose only answer has 2400 words. *)
Lemma oversize_chunk_blanks_context_witness :
  (CouncilRAG.RAG_MAX_TOKENS < CouncilRAG.est_tokens (CouncilRAG.c_text Sample.chunk_wordy))%Z ∧
  CouncilRAG.build_context Demo.X Sample.results_wordy = Ok "" ∧
  (CouncilRAG.retrieve Demo.X Sample.wordy Sample.rag_wordy "w" "c1").1 = "".
Proof.
  assert ((HybridRetriever.retrieve Demo.X Sample.wordy Sample.hr_wordy "w" "c1" 10
             (1 # 2) (1 # 2)).1 = Ok Sample.results_wordy) as Hres by (vm_compute; reflexivity).
  assert (CouncilRAG.filtered_chunks Sample.results_wordy = Sample.chunk_wordy :: []) as Hsplit
    by (vm_compute; reflexivity).
  assert (2309 ≤ length (Py.split (CouncilRAG.c_text Sample.chunk_wordy)))%nat as Hwords
    by (apply Nat.leb_le; vm_compute; reflexivity).
  exact (oversize_chunk_blanks_context Demo.X Sample.wordy Sample.rag_wordy Sample.hr_wordy "w"
           "c1" Sample.results_wordy Sample.chunk_wordy [] eq_refl Hres Hsplit Hwords).
Defined.

(** * Properties of the backend around the engine *)

(** ** Strings *)

#[local] Arguments Ascii.eqb : simpl never.

Ltac case_ascii_eqb a :=
  match goal with
  | |- context [Ascii.eqb ?x a] => destruct (Ascii.eqb x a) eqn:?
  | H : context [Ascii.eqb ?x a] |- _ => destruct (Ascii.eqb x a) eqn:?
  end.


Lemma string_length_app (a b : string) :
  String.length (a +:+ b) = (String.length a + String.length b)%nat.
Proof. induction a as [|x a IH]; simpl; [done|]. by rewrite IH. Qed.

Lemma string_app_assoc (a b c : string) : (a +:+ b) +:+ c = a +:+ b +:+ c.
Proof.
  induction a as [|x a IH]; [done|].
  change (String x ((a +:+ b) +:+ c) = String x (a +:+ b +:+ c)). by f_equal.
Qed.

Lemma string_length_take n s : String.length (Str.take n s) = (n `min` String.length s)%nat.
Proof.
  revert s. induction n as [|n IH]; intros [|a s]; simpl; try done. by rewrite IH.
Qed.

Lemma string_take_app_length (a b : string) : Str.take (String.length a) (a +:+ b) = a.
Proof. induction a as [|x a IH]; simpl; [by destruct b|]. by rewrite IH. Qed.

Lemma string_length_rev_app (a b : string) :
  String.length (String.rev_app a b) = (String.length a + String.length b)%nat.
Proof.
  revert b. induction a as [|x a IH]; intros b; simpl; [done|]. rewrite IH. simpl. lia.
Qed.

Lemma string_length_rev (s : string) : String.length (String.rev s) = String.length s.
Proof. unfold String.rev. rewrite string_length_rev_app. simpl. lia. Qed.

Lemma length_lstrip (s : string) : (String.length (Str.lstrip s) ≤ String.length s)%nat.
Proof. induction s as [|a s IH]; simpl; [done|]. destruct (Py.isspace a); simpl; lia. Qed.

Lemma length_strip (s : string) : (String.length (Str.strip s) ≤ String.length s)%nat.
Proof.
  unfold Str.strip, Str.rstrip. rewrite string_length_rev.
  etrans; [apply length_lstrip|]. rewrite string_length_rev. apply length_lstrip.
Qed.

(** ['<' not in s], character by character. *)
Lemma lacks_open_cons a s :
  Str.contains "<" (String a s) = false ↔
  Str.startswith (String a s) "<" = false ∧ Str.contains "<" s = false.
Proof.
  unfold Str.contains. simpl. unfold Str.startswith. simpl.
  case_ascii_eqb a; simpl.
  - split; [done|by intros [? _]].
  - destruct (Str.find "<" s); simpl; [split; [done|by intros [_ ?]]|done].
Qed.

Lemma lacks_open_app a b :
  Str.contains "<" (a +:+ b) = false ↔
  Str.contains "<" a = false ∧ Str.contains "<" b = false.
Proof.
  induction a as [|x a IH].
  - simpl. split; [by intros ?|by intros [_ ?]].
  - change (String x a +:+ b) with (String x (a +:+ b)).
    rewrite !lacks_open_cons, IH. unfold Str.startswith. simpl.
    case_ascii_eqb x; tauto.
Qed.

(** ** The pattern *)

Lemma match_here_not_open a s :
  Str.startswith (String a s) "<" = false → OpenRouter.match_here (String a s) = None.
Proof.
  unfold Str.startswith, OpenRouter.match_here, OpenRouter.match_tag. simpl.
  by case_ascii_eqb a.
Qed.

Lemma findall_go_skip x rest :
  OpenRouter.findall_go (String.length x) (x +:+ rest) = OpenRouter.findall_go 0 rest.
Proof. induction x as [|a x IH]; simpl; [by destruct rest|done]. Qed.

Lemma sub_go_skip x rest :
  OpenRouter.sub_go (String.length x) (x +:+ rest) = OpenRouter.sub_go 0 rest.
Proof. induction x as [|a x IH]; simpl; [by destruct rest|done]. Qed.

Lemma findall_lacks_open s : Str.contains "<" s = false → OpenRouter.findall s = [].
Proof.
  unfold OpenRouter.findall. induction s as [|a s IH]; [done|].
  intros [Ha Hs]%lacks_open_cons. simpl OpenRouter.findall_go.
  rewrite match_here_not_open by done. by apply IH.
Qed.

Lemma sub_lacks_open s : Str.contains "<" s = false → OpenRouter.sub s = s.
Proof.
  unfold OpenRouter.sub. induction s as [|a s IH]; [done|].
  intros [Ha Hs]%lacks_open_cons. simpl OpenRouter.sub_go.
  rewrite match_here_not_open by done. f_equal. by apply IH.
Qed.

Lemma length_sub_go skip s : (String.length (OpenRouter.sub_go skip s) ≤ String.length s)%nat.
Proof.
  revert skip. induction s as [|a s IH]; intros skip; simpl; [done|].
  destruct skip as [|k].
  - destruct (OpenRouter.match_here _) as [[[tag body] n]|]; simpl.
    + specialize (IH (n - 1)%nat). lia.
    + specialize (IH 0%nat). lia.
  - specialize (IH k). lia.
Qed.

Lemma strip_prefix_app p s : Str.strip_prefix p (p +:+ s) = Some s.
Proof. induction p as [|x p IH]; simpl; [done|]. by rewrite Ascii.eqb_refl. Qed.

Lemma find_at_start needle s : Str.find needle (needle +:+ s) = Some 0%nat.
Proof.
  assert (Str.startswith (needle +:+ s) needle = true) as Hstart.
  { unfold Str.startswith. by rewrite strip_prefix_app. }
  destruct (needle +:+ s); simpl; by rewrite Hstart.
Qed.

Lemma find_close_after_body tag body post :
  Str.contains "<" body = false →
  Str.find (OpenRouter.close_tag tag) (body +:+ OpenRouter.close_tag tag +:+ post)
  = Some (String.length body).
Proof.
  intros Hbody. induction body as [|a body IH].
  - apply (find_at_start (OpenRouter.close_tag tag) post).
  - apply lacks_open_cons in Hbody as [Ha Hbody].
    change (String a body +:+ OpenRouter.close_tag tag +:+ post)
      with (String a (body +:+ OpenRouter.close_tag tag +:+ post)).
    cbn [Str.find]. rewrite (IH Hbody).
    unfold Str.startswith in *. simpl in *. by case_ascii_eqb a.
Qed.

(** ** [extract_reasoning] *)

Lemma length_truncate r : (String.length (OpenRouter.truncate r) ≤ 2025)%nat.
Proof.
  unfold OpenRouter.truncate. destruct (2000 <? String.length r)%nat eqn:Hlen.
  - rewrite !string_length_app, string_length_take.
    change (String.length Py.nl) with 1%nat.
    change (String.length "...(reasoning truncated)") with 24%nat. lia.
  - apply Nat.ltb_ge in Hlen. lia.
Qed.

(** X15. The reasoning [extract_reasoning] returns never exceeds
    2025 characters, whatever the model sent: a text of up to 2000
    characters is returned whole, a longer one is cut to its first 2000
    characters followed by a line break and [...(reasoning truncated)]. *)
Theorem reasoning_is_bounded dict_str content msg model :
  (String.length (OpenRouter.extract_reasoning dict_str content msg model).2 ≤ 2025)%nat ∧
  ∀ r, (String.length r ≤ 2000)%nat → OpenRouter.truncate r = r.
Proof.
  split.
  - unfold OpenRouter.extract_reasoning.
    destruct (Config.REASONING_MODELS !! model); simpl; [apply length_truncate|lia].
  - intros r Hr. unfold OpenRouter.truncate.
    destruct (2000 <? String.length r)%nat eqn:Hlen; [|done].
    apply Nat.ltb_lt in Hlen. lia.
Qed.

(** X16. [extract_reasoning] never adds to the answer: the content
    it returns is the content it was given, or, for a model of
    [REASONING_MODELS] with [parse_tags], the content without its think
    blocks and stripped. A model that is not in [REASONING_MODELS] gets
    its content back with the empty reasoning, and so does every content
    without the character [<]. *)
Theorem content_only_loses_think_blocks dict_str content msg model :
  let r := OpenRouter.extract_reasoning dict_str content msg model in
  (String.length r.1 ≤ String.length content)%nat ∧
  (r.1 = content ∨
   ∃ capabilities,
     Config.REASONING_MODELS !! model = Some capabilities ∧
     OpenRouter.capability capabilities "parse_tags" = true ∧
     OpenRouter.findall content ≠ [] ∧
     r.1 = Str.strip (OpenRouter.sub content)) ∧
  (Config.REASONING_MODELS !! model = None → r = (content, "")) ∧
  (Str.contains "<" content = false → r.1 = content).
Proof.
  intros r. subst r. unfold OpenRouter.extract_reasoning.
  destruct (Config.REASONING_MODELS !! model) as [caps|] eqn:Hcaps; simpl;
    [|split_and!; auto].
  destruct (bool_decide _ && OpenRouter.capability caps "parse_tags") eqn:Hparse; simpl;
    [|split_and!; auto; done].
  apply andb_prop in Hparse as [_ Hparse].
  destruct (OpenRouter.findall content) as [|m ms] eqn:Hfind; simpl;
    [split_and!; auto; done|].
  split_and!.
  - etrans; [apply length_strip|]. apply length_sub_go.
  - right. exists caps. split_and!; done.
  - done.
  - intros Hfree. apply findall_lacks_open in Hfree. congruence.
Qed.

Lemma registry_capabilities model capabilities :
  Config.REASONING_MODELS !! model = Some capabilities →
  OpenRouter.capability capabilities "use_field"
  = negb (OpenRouter.capability capabilities "parse_tags").
Proof.
  intros Hm. apply elem_of_map_to_list in Hm.
  assert (forallb (λ kv : string * gmap string bool,
            bool_decide (OpenRouter.capability kv.2 "use_field"
                         = negb (OpenRouter.capability kv.2 "parse_tags")))
            (map_to_list Config.REASONING_MODELS) = true) as Hall
    by (vm_compute; reflexivity).
  rewrite forallb_forall in Hall. apply list_elem_of_In, Hall in Hm.
  by apply bool_decide_eq_true in Hm.
Qed.

(** X17. Every model of [REASONING_MODELS] has exactly one of the
    two capabilities: for one with [use_field] the content is returned as
    it is and the reasoning is the truncated field of the message, tags in
    the content being left in place; for one with [parse_tags] the message
    is not looked at. *)
Theorem reasoning_source dict_str content msg model capabilities :
  Config.REASONING_MODELS !! model = Some capabilities →
  (OpenRouter.capability capabilities "use_field" = true ∧
   OpenRouter.extract_reasoning dict_str content msg model
   = (content, OpenRouter.truncate (OpenRouter.field_reasoning dict_str msg))) ∨
  (OpenRouter.capability capabilities "parse_tags" = true ∧
   ∀ dict_str' msg',
     OpenRouter.extract_reasoning dict_str' content msg' model
     = OpenRouter.extract_reasoning dict_str content msg model).
Proof.
  intros Hm. pose proof (registry_capabilities _ _ Hm) as Hcaps.
  unfold OpenRouter.extract_reasoning. rewrite Hm.
  destruct (OpenRouter.capability capabilities "parse_tags") eqn:Hparse; simpl in Hcaps;
    rewrite Hcaps.
  - right. split; [done|]. intros. done.
  - left. split; [done|]. by rewrite andb_false_r.
Qed.

(** A model with [use_field]: the tags stay in the content. *)
Lemma reasoning_source_witness :
  OpenRouter.extract_reasoning Sample.dict_str "<think>plan</think>Paris" Sample.thought
    "google/gemini-2.5-pro"
  = ("<think>plan</think>Paris", "step by step").
Proof.
  assert (Config.REASONING_MODELS !! "google/gemini-2.5-pro" = Some (Py.dict [("use_field", true)]))
    as Hmodel by (vm_compute; reflexivity).
  destruct (reasoning_source Sample.dict_str "<think>plan</think>Paris" Sample.thought
              "google/gemini-2.5-pro" (Py.dict [("use_field", true)]) Hmodel)
    as [[_ ->]|[Htags _]].
  - vm_compute. reflexivity.
  - vm_compute in Htags. discriminate.
Defined.


(** X18. One think block is moved from the content to the reasoning:
    for [pre<think>body</think>post] (or the same with [thinking]), the
    three parts without [<], the pattern has one match, whose groups are
    the tag and the body, the content becomes [pre] followed by [post],
    stripped, and the reasoning is the stripped body, truncated. *)
Theorem single_think_block pre body post tag :
  tag = "think" ∨ tag = "thinking" →
  Str.contains "<" pre = false →
  Str.contains "<" body = false →
  Str.contains "<" post = false →
  let content := pre +:+ OpenRouter.open_tag tag +:+ body +:+ OpenRouter.close_tag tag +:+ post in
  OpenRouter.findall content = [(tag, body)] ∧
  OpenRouter.sub content = pre +:+ post ∧
  ∀ dict_str msg model capabilities,
    Config.REASONING_MODELS !! model = Some capabilities →
    OpenRouter.capability capabilities "parse_tags" = true →
    OpenRouter.extract_reasoning dict_str content msg model
    = (Str.strip (pre +:+ post), OpenRouter.truncate (Str.strip body)).
Proof.
  intros Htag Hpre Hbody Hpost content.
  set (block := OpenRouter.open_tag tag +:+ body +:+ OpenRouter.close_tag tag) in *.
  assert (content = pre +:+ block +:+ post) as Hcontent.
  { subst content block. by rewrite !string_app_assoc. }
  assert (OpenRouter.match_here (block +:+ post) = Some (tag, body, String.length block)) as Hhere.
  { assert (OpenRouter.match_tag tag (block +:+ post) = Some (body, String.length block)) as Htry.
    { unfold OpenRouter.match_tag. subst block.
      rewrite !string_app_assoc, strip_prefix_app. simpl.
      rewrite (find_close_after_body tag body post Hbody). simpl.
      rewrite string_take_app_length. do 2 f_equal.
      unfold OpenRouter.open_tag, OpenRouter.close_tag. rewrite !string_length_app. simpl. lia. }
    unfold OpenRouter.match_here. destruct Htag as [-> | ->].
    - by rewrite Htry.
    - rewrite Htry.
      assert (OpenRouter.match_tag "think" (block +:+ post) = None) as -> by done.
      done. }
  assert (∃ a rest, block = String a rest) as (a & rest & Hblock).
  { subst block. destruct Htag as [-> | ->]; by eexists _, _. }
  assert (OpenRouter.findall content = [(tag, body)]) as Hfind.
  { rewrite Hcontent. unfold OpenRouter.findall. clear Hcontent.
    induction pre as [|x pre IH].
    - change ("" +:+ block +:+ post) with (block +:+ post).
      rewrite Hblock in Hhere |- *.
      change (String a rest +:+ post) with (String a (rest +:+ post)) in *.
      cbn [OpenRouter.findall_go]. rewrite Hhere. f_equal.
      replace (String.length (String a rest) - 1)%nat with (String.length rest)
        by (simpl; lia).
      rewrite findall_go_skip. by apply findall_lacks_open.
    - apply lacks_open_cons in Hpre as [Hx Hpre].
      change (String x pre +:+ block +:+ post) with (String x (pre +:+ block +:+ post)).
      cbn [OpenRouter.findall_go]. rewrite match_here_not_open; [by apply IH|].
      unfold Str.startswith in *. simpl in *. by case_ascii_eqb x. }
  assert (OpenRouter.sub content = pre +:+ post) as Hsub.
  { rewrite Hcontent. unfold OpenRouter.sub. clear Hcontent Hfind.
    induction pre as [|x pre IH].
    - change ("" +:+ block +:+ post) with (block +:+ post).
      rewrite Hblock in Hhere |- *.
      change (String a rest +:+ post) with (String a (rest +:+ post)) in *.
      cbn [OpenRouter.sub_go]. rewrite Hhere.
      replace (String.length (String a rest) - 1)%nat with (String.length rest)
        by (simpl; lia).
      rewrite sub_go_skip. by apply sub_lacks_open.
    - apply lacks_open_cons in Hpre as [Hx Hpre].
      change (String x pre +:+ block +:+ post) with (String x (pre +:+ block +:+ post)).
      cbn [OpenRouter.sub_go]. rewrite match_here_not_open.
      + change (String x pre +:+ post) with (String x (pre +:+ post)). f_equal. by apply IH.
      + unfold Str.startswith in *. simpl in *. by case_ascii_eqb x. }
  split_and!; [done..|].
  intros dict_str msg model caps Hm Hparse.
  pose proof (registry_capabilities _ _ Hm) as Hcaps. rewrite Hparse in Hcaps.
  unfold OpenRouter.extract_reasoning. rewrite Hm, Hcaps, Hparse. simpl.
  by rewrite Hfind, Hsub.
Qed.

(** On an answer of a model with [parse_tags]. *)
Lemma single_think_block_witness :
  OpenRouter.findall "Hello <think> plan </think> world" = [("think", " plan ")] ∧
  OpenRouter.sub "Hello <think> plan </think> world" = "Hello  world" ∧
  OpenRouter.extract_reasoning Sample.dict_str "Hello <think> plan </think> world"
    Sample.no_thought "deepseek/deepseek-chat-v3.1"
  = ("Hello  world", "plan").
Proof.
  assert (Config.REASONING_MODELS !! "deepseek/deepseek-chat-v3.1"
          = Some (Py.dict [("parse_tags", true)])) as Hmodel by (vm_compute; reflexivity).
  assert (OpenRouter.capability (Py.dict [("parse_tags", true)]) "parse_tags" = true) as Hcap
    by (vm_compute; reflexivity).
  destruct (single_think_block "Hello " " plan " " world" "think" (or_introl eq_refl)
              eq_refl eq_refl eq_refl) as (Hall & Hsub & Hex).
  split; [exact Hall|]. split; [exact Hsub|].
  exact (Hex Sample.dict_str Sample.no_thought "deepseek/deepseek-chat-v3.1"
           (Py.dict [("parse_tags", true)]) Hmodel Hcap).
Defined.

(** ** [extract_text_from_file] *)

Lemma process_inv L file r :
  FileProcessing.process L file = FileProcessing.Done r →
  (∃ t, r = FileProcessing.finish t) ∨
  (∃ a message, r = FileProcessing.failure (String a message)).
Proof.
  unfold FileProcessing.process.
  destruct (FileProcessing.normalise _ _) as [[ct|]|]; simpl; [|done..].
  case_bool_decide.
  { unfold FileProcessing._extract_from_pdf.
    destruct (FileProcessing.pdf_pages L _); simpl; [|done]. intros [= <-]. eauto. }
  case_bool_decide.
  { unfold FileProcessing._extract_from_docx.
    destruct (FileProcessing.docx_paragraphs L _); simpl; [|done]. intros [= <-]. eauto. }
  destruct (FileProcessing.is_text _ _) as [[]|]; simpl; [| |done].
  { intros [= <-]. eauto. }
  destruct (Str.startswith ct "image/").
  - destruct (FileProcessing._describe_image L _ _); intros [= <-]; [eauto|].
    right. by eexists _, _.
  - intros [= <-]. right. by eexists _, _.
Qed.

Lemma extract_inv L file :
  (∃ t, FileProcessing.extract_text_from_file L file = FileProcessing.finish t) ∨
  (∃ a message,
     FileProcessing.extract_text_from_file L file
     = FileProcessing.failure (String a message)).
Proof.
  unfold FileProcessing.extract_text_from_file.
  destruct (_ <? _)%Z; [right; by eexists _, _|].
  destruct (FileProcessing.process L file) as [r|message] eqn:Hp.
  - by apply process_inv in Hp.
  - right. by eexists _, _.
Qed.

Lemma string_take_all n s : (String.length s ≤ n)%nat → Str.take n s = s.
Proof.
  revert n. induction s as [|a s IH]; intros [|n]; simpl; try done; [lia|].
  intros ?. f_equal. apply IH. lia.
Qed.

Lemma finish_shape t :
  let r := FileProcessing.finish t in
  (Z.of_nat (String.length (FileProcessing.text r)) ≤ FileProcessing.MAX_TEXT_LENGTH)%Z ∧
  FileProcessing.error r = None ∧
  FileProcessing.text r = Str.take (Z.to_nat FileProcessing.MAX_TEXT_LENGTH) t ∧
  (FileProcessing.truncated r = true ↔
   (FileProcessing.MAX_TEXT_LENGTH < Z.of_nat (String.length t))%Z).
Proof.
  unfold FileProcessing.finish, FileProcessing.MAX_TEXT_LENGTH.
  destruct (_ <? _)%Z eqn:Hlen;
    cbn [FileProcessing.text FileProcessing.error FileProcessing.truncated].
  - apply Z.ltb_lt in Hlen. rewrite string_length_take. split_and!; [lia|done..|by split].
  - apply Z.ltb_ge in Hlen. split_and!; [done|done| |split; [done|lia]].
    symmetry. apply string_take_all. lia.
Qed.

(** X19. Whatever the file and whatever the libraries do,
    [extract_text_from_file] returns (it raises nothing once the file was
    read): the text has at most [MAX_TEXT_LENGTH] characters; with an
    error the text is empty and not flagged as truncated; a truncated text
    has exactly [MAX_TEXT_LENGTH] characters and no error; and an error
    message is never the empty string. *)
Theorem extraction_shape L file :
  let r := FileProcessing.extract_text_from_file L file in
  (Z.of_nat (String.length (FileProcessing.text r)) ≤ FileProcessing.MAX_TEXT_LENGTH)%Z ∧
  (FileProcessing.error r ≠ None →
   FileProcessing.text r = "" ∧ FileProcessing.truncated r = false) ∧
  (FileProcessing.truncated r = true →
   Z.of_nat (String.length (FileProcessing.text r)) = FileProcessing.MAX_TEXT_LENGTH ∧
   FileProcessing.error r = None) ∧
  FileProcessing.error r ≠ Some "".
Proof.
  intros r. subst r. destruct (extract_inv L file) as [[t ->]|(a & message & ->)].
  - destruct (finish_shape t) as (Hlen & Herr & Htext & Htrunc). split_and!.
    + done.
    + by rewrite Herr.
    + intros Ht. split; [|done]. apply Htrunc in Ht. rewrite Htext, string_length_take.
      unfold FileProcessing.MAX_TEXT_LENGTH in *. lia.
    + by rewrite Herr.
  - cbn [FileProcessing.failure FileProcessing.text FileProcessing.error
         FileProcessing.truncated String.length].
    unfold FileProcessing.MAX_TEXT_LENGTH. split_and!; [lia|done..].
Qed.

(** X20. A file of more than 25 MB is rejected on its size alone: the
    result is the error [File too large (<size>MB). Max size is 25MB.],
    whatever its name and type, and no library that reads its content is
    called. *)
Theorem oversize_file_rejected L file :
  (FileProcessing.MAX_FILE_SIZE < Z.of_nat (length (FileProcessing.content file)))%Z →
  FileProcessing.extract_text_from_file L file
  = FileProcessing.failure
      ("File too large ("
         +:+ FileProcessing.format_megabytes L
               (Z.of_nat (length (FileProcessing.content file)))
         +:+ "MB). Max size is 25MB.") ∧
  ∀ L', FileProcessing.format_megabytes L' = FileProcessing.format_megabytes L →
    FileProcessing.extract_text_from_file L' file
    = FileProcessing.extract_text_from_file L file.
Proof.
  intros Hsize. apply Z.ltb_lt in Hsize.
  unfold FileProcessing.extract_text_from_file. rewrite Hsize. split; [done|].
  intros L' ->. done.
Qed.

(** On a text file of 25 MB and one byte. *)
Lemma oversize_file_rejected_witness :
  FileProcessing.extract_text_from_file Sample.libs Sample.huge
  = FileProcessing.failure
      ("File too large ("
         +:+ FileProcessing.format_megabytes Sample.libs
               (Z.of_nat (length (FileProcessing.content Sample.huge)))
         +:+ "MB). Max size is 25MB.").
Proof.
  assert (FileProcessing.MAX_FILE_SIZE
          < Z.of_nat (length (FileProcessing.content Sample.huge)))%Z as Hsize.
  { unfold Sample.huge, FileProcessing.MAX_FILE_SIZE. cbn [FileProcessing.content].
    rewrite length_replicate, Z2Nat.id; lia. }
  exact (proj1 (oversize_file_rejected Sample.libs Sample.huge Hsize)).
Defined.


(** X21. For an upload whose content type is missing, empty or
    [application/octet-stream], the extension of the lower-cased name
    decides: the result is that of the same upload declared as PDF for
    [.pdf], as DOCX for [.docx], as [text/plain] for [.txt] and [.md], as
    [image/jpeg] for [.jpg] and [.jpeg], as [image/png] for [.png], in
    that order of precedence. *)
Theorem extension_decides_generic_upload L name content_type bytes :
  FileProcessing.is_generic content_type = true →
  let lowered := Py.lower name in
  let upload ct :=
    FileProcessing.extract_text_from_file L
      {| FileProcessing.filename := Some name; FileProcessing.content_type := ct;
         FileProcessing.content := bytes |} in
  (Str.endswith lowered ".pdf" = true → upload content_type = upload (Some FileProcessing.PDF)) ∧
  (Str.endswith lowered ".pdf" = false → Str.endswith lowered ".docx" = true →
   upload content_type = upload (Some FileProcessing.DOCX)) ∧
  (Str.endswith lowered ".pdf" = false → Str.endswith lowered ".docx" = false →
   Str.endswith lowered ".txt" || Str.endswith lowered ".md" = true →
   upload content_type = upload (Some "text/plain")) ∧
  (Str.endswith lowered ".pdf" = false → Str.endswith lowered ".docx" = false →
   Str.endswith lowered ".txt" || Str.endswith lowered ".md" = false →
   Str.endswith lowered ".jpg" || Str.endswith lowered ".jpeg" = true →
   upload content_type = upload (Some "image/jpeg")) ∧
  (Str.endswith lowered ".pdf" = false → Str.endswith lowered ".docx" = false →
   Str.endswith lowered ".txt" || Str.endswith lowered ".md" = false →
   Str.endswith lowered ".jpg" || Str.endswith lowered ".jpeg" = false →
   Str.endswith lowered ".png" = true →
   upload content_type = upload (Some "image/png")).
Proof.
  intros Hgen lowered upload. subst upload.
  unfold FileProcessing.extract_text_from_file, FileProcessing.process,
    FileProcessing.normalise. simpl. rewrite Hgen. fold lowered.
  split_and!; intros; repeat match goal with H : _ = _ |- _ => rewrite H end; done.
Qed.

(** On [Report.PDF], sent as [application/octet-stream]. *)
Lemma extension_decides_generic_upload_witness :
  FileProcessing.extract_text_from_file Sample.libs Sample.report
  = FileProcessing.extract_text_from_file Sample.libs
      {| FileProcessing.filename := Some "Report.PDF";
         FileProcessing.content_type := Some FileProcessing.PDF;
         FileProcessing.content := [] |}.
Proof.
  assert (FileProcessing.is_generic (Some "application/octet-stream") = true) as Hgeneric
    by (vm_compute; reflexivity).
  assert (Str.endswith (Py.lower "Report.PDF") ".pdf" = true) as Hpdf
    by (vm_compute; reflexivity).
  exact (proj1 (extension_decides_generic_upload Sample.libs "Report.PDF"
                  (Some "application/octet-stream") [] Hgeneric) Hpdf).
Defined.


(** X22. The upload endpoint answers 400 exactly when the extraction
    reports an error, with that error as the detail; otherwise it returns
    the extracted text, of at most 50000 characters, the flag [truncated]
    and the name of the file as the client sent it. *)
Theorem upload_file_outcome L file :
  let result := FileProcessing.extract_text_from_file L file in
  match Main.upload_file L file with
  | Main.Return u =>
      FileProcessing.error result = None ∧
      Main.u_text u = FileProcessing.text result ∧
      Main.u_truncated u = FileProcessing.truncated result ∧
      Main.u_filename u = FileProcessing.filename file ∧
      (Z.of_nat (String.length (Main.u_text u)) ≤ 50000)%Z
  | Main.HTTPException status_code detail =>
      status_code = 400%Z ∧ FileProcessing.error result = Some detail
  end.
Proof.
  intros result. subst result. unfold Main.upload_file.
  destruct (extract_inv L file) as [[t ->]|(a & message & ->)].
  - destruct (finish_shape t) as (Hlen & -> & _ & _). done.
  - done.
Qed.

(** ** [get_turn_index] *)

Lemma is_council_turn_dict msg :
  is_Some (Main.is_council_turn msg) ↔ ∃ d, msg = Dyn.JDict d.
Proof.
  unfold Main.is_council_turn. destruct msg; simpl; split;
    try (by intros [? ?]); try (by intros [? [=]]).
  - intros _. by eexists.
  - intros _. destruct (Dyn.is_str _ _); by eexists.
Qed.

Lemma count_turns_app ms1 ms2 n :
  Main.count_turns (ms1 ++ ms2) n = Main.count_turns ms1 n ≫= Main.count_turns ms2.
Proof.
  revert n. induction ms1 as [|m ms1 IH]; intros n; simpl; [done|].
  destruct (Main.is_council_turn m); simpl; [apply IH|done].
Qed.

Lemma count_turns_range ms n r :
  Main.count_turns ms n = Some r → (n ≤ r ≤ n + Z.of_nat (length ms))%Z.
Proof.
  revert n. induction ms as [|m ms IH]; intros n; simpl.
  - intros [= <-]. lia.
  - destruct (Main.is_council_turn m) as [[]|]; simpl; [| |done].
    + intros ?%IH. lia.
    + intros ?%IH. lia.
Qed.

Lemma count_turns_None ms n :
  Main.count_turns ms n = None ↔ ∃ m, m ∈ ms ∧ ∀ d, m ≠ Dyn.JDict d.
Proof.
  revert n. induction ms as [|m ms IH]; intros n; simpl.
  - split; [done|]. by intros (m & ?%elem_of_nil & _).
  - destruct (Main.is_council_turn m) as [b|] eqn:Hm; simpl.
    + rewrite IH. assert (∃ d, m = Dyn.JDict d) as [d ->] by (apply is_council_turn_dict; eauto).
      split.
      * intros (m' & ? & ?). exists m'. split; [by right|done].
      * intros (m' & [->|?]%elem_of_cons & Hnd); [by destruct (Hnd d)|]. by exists m'.
    + split; [|done]. intros _. exists m. split; [by left|].
      intros d ->. assert (is_Some (Main.is_council_turn (Dyn.JDict d))) as [? ?].
      { apply is_council_turn_dict. by eexists. }
      congruence.
Qed.

(** X23. [get_turn_index] is 0 for a conversation without
    [messages]; for a list of messages it raises exactly when one of them
    is not a dict; and it raises for a conversation that is not a dict. *)
Theorem get_turn_index_raises :
  (∀ d, Dyn.item d "messages" = None → Main.get_turn_index (Dyn.JDict d) = Some 0%Z) ∧
  (∀ d messages, Dyn.item d "messages" = Some (Dyn.JList messages) →
     (Main.get_turn_index (Dyn.JDict d) = None ↔
      ∃ msg, msg ∈ messages ∧ ∀ fields, msg ≠ Dyn.JDict fields)) ∧
  (∀ conversation, (∀ d, conversation ≠ Dyn.JDict d) →
     Main.get_turn_index conversation = None).
Proof.
  unfold Main.get_turn_index. split_and!.
  - intros d Hd. simpl. by rewrite Hd.
  - intros d messages Hd. simpl. rewrite Hd. simpl. apply count_turns_None.
  - intros [] Hnd; try done. by destruct (Hnd d).
Qed.

(** X24. The turn index counts the completed council turns: it lies
    between 0 and the number of messages, and appending one message
    raises it by one when the message is an assistant message with
    [stage3], leaves it as it is for any other dict, and makes the call
    raise for a message that is not a dict. *)
Theorem turn_index_advances d d' before msg n :
  Dyn.item d "messages" = Some (Dyn.JList before) →
  Dyn.item d' "messages" = Some (Dyn.JList (before ++ [msg])) →
  Main.get_turn_index (Dyn.JDict d) = Some n →
  (0 ≤ n ≤ Z.of_nat (length before))%Z ∧
  Main.get_turn_index (Dyn.JDict d')
  = (λ completed : bool, if completed then n + 1 else n)%Z <$> Main.is_council_turn msg.
Proof.
  unfold Main.get_turn_index. simpl. intros -> ->. simpl. intros Hn.
  split; [apply count_turns_range in Hn; lia|].
  rewrite count_turns_app, Hn. simpl. by destruct (Main.is_council_turn msg) as [[]|].
Qed.

(** On [Sample.history], with one council turn, and a second one added. *)
Lemma turn_index_advances_witness :
  (0 ≤ 1 ≤ Z.of_nat (length Sample.history))%Z ∧
  Main.get_turn_index (Sample.conversation (Sample.history ++ [Sample.second_turn])) = Some 2%Z.
Proof.
  assert (Main.get_turn_index (Sample.conversation Sample.history) = Some 1%Z) as Hturn
    by (vm_compute; reflexivity).
  exact (turn_index_advances
           [("id", Dyn.JStr "c1"); ("messages", Dyn.JList Sample.history)]
           [("id", Dyn.JStr "c1");
            ("messages", Dyn.JList (Sample.history ++ [Sample.second_turn]))]
           Sample.history Sample.second_turn 1 eq_refl eq_refl Hturn).
Defined.


(** ** [calculate_cost] *)

Lemma prices_not_negative :
  Forall (λ m, (0 <= Config.p_input (Config.m_pricing m))%Q ∧
               (0 <= Config.p_output (Config.m_pricing m))%Q)
         Config.AVAILABLE_MODELS.
Proof. repeat constructor; by vm_compute. Qed.

(** X25. The cases of [calculate_cost]. It is 0 for an empty [usage]
    and for a model that is not in [AVAILABLE_MODELS]; it reads the two
    counters of [usage] only, a missing one counting as 0; and with
    counters that are not negative and below [2 ^ 63] it is not negative.
    (The sum itself is computed in doubles by the code and exactly here:
    nothing is said of its value.) *)
Theorem calculate_cost_cases usage model_id :
  (usage = ∅ → Main.calculate_cost usage model_id = 0%Q) ∧
  (model_id ∉ Main.valid_models → Main.calculate_cost usage model_id = 0%Q) ∧
  (∀ usage',
     usage ≠ ∅ → usage' ≠ ∅ →
     default 0%Z (usage' !! "prompt_tokens") = default 0%Z (usage !! "prompt_tokens") →
     default 0%Z (usage' !! "completion_tokens") = default 0%Z (usage !! "completion_tokens") →
     Main.calculate_cost usage' model_id = Main.calculate_cost usage model_id) ∧
  ((0 ≤ default 0 (usage !! "prompt_tokens") < 2 ^ 63)%Z →
   (0 ≤ default 0 (usage !! "completion_tokens") < 2 ^ 63)%Z →
   (0 <= Main.calculate_cost usage model_id)%Q).
Proof.
  split_and!.
  - intros ->. done.
  - intros Hout. unfold Main.calculate_cost. case_bool_decide; [done|].
    destruct (List.find _ _) as [m|] eqn:Hfind; [|done].
    apply List.find_some in Hfind as [Hin Hid]. apply bool_decide_eq_true in Hid.
    apply list_elem_of_In in Hin. destruct Hout. unfold Main.valid_models.
    apply list_elem_of_fmap. by exists m.
  - intros usage' Hu Hu' Hp Hc. unfold Main.calculate_cost.
    rewrite !bool_decide_eq_false_2 by done. by rewrite Hp, Hc.
  - intros [Hp _] [Hc _]. unfold Main.calculate_cost. case_bool_decide; [done|].
    destruct (List.find _ _) as [m|] eqn:Hfind; [|done].
    apply List.find_some in Hfind as [Hin _]. apply list_elem_of_In in Hin.
    pose proof prices_not_negative as Hall. eapply Forall_forall in Hall; [|exact Hin].
    destruct Hall as [Hi Ho].
    set (p := default 0%Z (usage !! "prompt_tokens")) in *.
    set (c := default 0%Z (usage !! "completion_tokens")) in *.
    assert (0 <= inject_Z p)%Q as Hp' by (rewrite <-(Zle_Qle 0); lia).
    assert (0 <= inject_Z c)%Q as Hc' by (rewrite <-(Zle_Qle 0); lia).
    assert (0 <= inject_Z p / 1000000)%Q by (apply Qle_shift_div_l; lra).
    assert (0 <= inject_Z c / 1000000)%Q by (apply Qle_shift_div_l; lra).
    simpl. nra.
Qed.


(** ** [create_conversation] *)

(** X26. [create_conversation] stores a conversation only with
    models of [AVAILABLE_MODELS]: it answers 400 exactly when a council
    member, or else the chairman, is not one of them, naming the invalid
    members or the chairman, and stores nothing then; otherwise it stores
    the members and the chairman that were given, an empty list and an
    empty name counting as not given. *)
Theorem create_conversation_validates {C : Type}
    (storage_create : string → Main.conversation_metadata → C)
    (list_str : list string → string) (conversation_id : string)
    (request : Main.CreateConversationRequest) :
  let members := default [] (Main.council_members request) in
  let chair := default "" (Main.chairman_model request) in
  let valid :=
    (∀ m, m ∈ members → m ∈ Main.valid_models) ∧ (chair = "" ∨ chair ∈ Main.valid_models) in
  match Main.create_conversation storage_create list_str conversation_id request with
  | Main.Return c =>
      valid ∧
      c = storage_create conversation_id
            {| Main.council_models := if Py.is_empty members then None else Some members;
               Main.chairman := if bool_decide (chair = "") then None else Some chair |}
  | Main.HTTPException status_code detail =>
      status_code = 400%Z ∧ ¬ valid ∧
      (detail = "Invalid council models: "
                  +:+ list_str (filter (λ m, m ∉ Main.valid_models) members) ∨
       detail = "Invalid chairman model: " +:+ chair)
  end.
Proof.
  intros members chair valid. unfold Main.create_conversation. fold members chair.
  destruct (filter (λ m, m ∉ Main.valid_models) members) as [|bad invalid] eqn:Hinv.
  - assert (∀ m, m ∈ members → m ∈ Main.valid_models) as Hall.
    { intros m Hm. destruct (decide (m ∈ Main.valid_models)) as [|Hout]; [done|].
      assert (m ∈ filter (λ m, m ∉ Main.valid_models) members) as Hin
        by (by apply list_elem_of_filter).
      rewrite Hinv in Hin. by apply elem_of_nil in Hin. }
    rewrite andb_false_r.
    case_bool_decide as Hchair; simpl.
    + split; [|done]. split; [done|by left].
    + case_bool_decide as Hvalid; simpl.
      * split; [|done]. split; [done|by right].
      * split_and!; [done| |by right]. intros [_ [?|?]]; done.
  - assert ((bad ∉ Main.valid_models) ∧ bad ∈ members) as [Hout Hbad].
    { apply (list_elem_of_filter (λ m, m ∉ Main.valid_models)). rewrite Hinv. by left. }
    destruct members as [|m members']; [by apply elem_of_nil in Hbad|]. simpl.
    split_and!; [done| |by left]. intros [Hall _]. by apply Hout, Hall.
Qed.

(** ** Rounding *)

Lemma round_half_even_floor q :
  (Qfloor q ≤ Analytics.round_half_even q ≤ Qfloor q + 1)%Z.
Proof.
  unfold Analytics.round_half_even.
  destruct (Py.Qltb _ _); [lia|]. destruct (Py.Qltb _ _); [lia|].
  destruct (Z.even _); lia.
Qed.

Lemma round_half_even_ge (k : Z) q :
  (inject_Z k <= q)%Q → (k ≤ Analytics.round_half_even q)%Z.
Proof.
  intros Hk%Qfloor_resp_le. rewrite Qfloor_Z in Hk.
  pose proof (round_half_even_floor q). lia.
Qed.

Lemma round_half_even_le (k : Z) q :
  (q <= inject_Z k)%Q → (Analytics.round_half_even q ≤ k)%Z.
Proof.
  intros Hk. pose proof (Qfloor_resp_le _ _ Hk) as Hf. rewrite Qfloor_Z in Hf.
  pose proof (round_half_even_floor q) as [_ Hup].
  destruct (decide (Qfloor q = k)) as [Heq|Hne]; [|lia].
  unfold Analytics.round_half_even.
  assert (Py.Qltb (q - inject_Z (Qfloor q)) (1 # 2) = true) as ->; [|lia].
  unfold Py.Qltb. apply negb_true_iff. destruct (Qle_bool _ _) eqn:Hle; [|done].
  apply Qle_bool_iff in Hle. pose proof (Qfloor_le q). rewrite Heq in *. lra.
Qed.

Lemma Qdiv_mult_cancel (a b : Q) : (0 < b)%Q → (a / b * b == a)%Q.
Proof. intros Hb. field. intros Hz. rewrite Hz in Hb. by apply Qlt_irrefl in Hb. Qed.

Lemma power_of_ten_pos (n : nat) : (0 < inject_Z (10 ^ Z.of_nat n))%Q.
Proof. rewrite <-(Zlt_Qlt 0). apply Z.pow_pos_nonneg; lia. Qed.

Lemma round_ge (k : Z) q (n : nat) :
  (inject_Z k / inject_Z (10 ^ Z.of_nat n) <= q)%Q →
  (inject_Z k / inject_Z (10 ^ Z.of_nat n) <= Analytics.round q n)%Q.
Proof.
  intros Hk. pose proof (power_of_ten_pos n) as Hp. unfold Analytics.round.
  set (P := inject_Z (10 ^ Z.of_nat n)) in *.
  unfold Qdiv. apply Qmult_le_compat_r; [|by apply Qlt_le_weak, Qinv_lt_0_compat].
  rewrite <-Zle_Qle. apply round_half_even_ge.
  rewrite <-(Qdiv_mult_cancel (inject_Z k) P Hp).
  apply Qmult_le_compat_r; [done|by apply Qlt_le_weak].
Qed.

Lemma round_le (k : Z) q (n : nat) :
  (q <= inject_Z k / inject_Z (10 ^ Z.of_nat n))%Q →
  (Analytics.round q n <= inject_Z k / inject_Z (10 ^ Z.of_nat n))%Q.
Proof.
  intros Hk. pose proof (power_of_ten_pos n) as Hp. unfold Analytics.round.
  set (P := inject_Z (10 ^ Z.of_nat n)) in *.
  unfold Qdiv. apply Qmult_le_compat_r; [|by apply Qlt_le_weak, Qinv_lt_0_compat].
  rewrite <-Zle_Qle. apply round_half_even_le.
  rewrite <-(Qdiv_mult_cancel (inject_Z k) P Hp).
  apply Qmult_le_compat_r; [done|by apply Qlt_le_weak].
Qed.

(** ** The statistics *)

Lemma same_key_key_of a b :
  Dyn.truthy a = true → Dyn.hashable a = true →
  Dyn.truthy b = true → Dyn.hashable b = true →
  Dyn.same_key a b = true ↔ key_of a = key_of b.
Proof.
  assert (∀ p q : Q, Qeq_bool p q = true ↔ Qred p = Qred q) as Hq.
  { intros p q. rewrite Qeq_bool_iff. split; [apply Qred_complete|].
    intros Heq. by rewrite <-(Qred_correct p), <-(Qred_correct q), Heq. }
  destruct a as [|[]|p|s|l|d], b as [|[]|q|t|l'|d']; simpl; try done;
    intros _ _ _ _.
  - rewrite (Hq 1%Q q). split; [by intros <-|by intros [= <-]].
  - rewrite (Hq p 1%Q). split; [by intros ->|by intros [= ->]].
  - rewrite Hq. split; [by intros ->|by intros [= ->]].
  - rewrite bool_decide_eq_true. split; [by intros ->|by intros [= ->]].
Qed.

Lemma record_rank_keys model_id rank stats :
  (Analytics.record_rank model_id rank stats).*1 = stats.*1 ∨
  ((Analytics.record_rank model_id rank stats).*1 = stats.*1 ++ [model_id] ∧
   ∀ key, key ∈ stats.*1 → Dyn.same_key key model_id = false).
Proof.
  induction stats as [|[key data] stats IH]; cbn [Analytics.record_rank].
  - right. split; [done|]. by intros ? ?%elem_of_nil.
  - destruct (Dyn.same_key key model_id) eqn:Hsame; [by left|].
    rewrite !fmap_cons. cbn [fst].
    destruct IH as [IH|[IH Hnew]]; rewrite IH; [by left|]. right. split; [done|].
    intros k [->|?]%elem_of_cons; auto.
Qed.

Lemma record_rank_tallies model_id rank stats :
  (1 ≤ rank)%Z →
  Dyn.truthy model_id = true → Dyn.hashable model_id = true →
  Forall (λ item : Dyn.json * Analytics.tally,
            tally_ok item.2 ∧ Dyn.truthy item.1 = true ∧ Dyn.hashable item.1 = true) stats →
  Forall (λ item : Dyn.json * Analytics.tally,
            tally_ok item.2 ∧ Dyn.truthy item.1 = true ∧ Dyn.hashable item.1 = true)
    (Analytics.record_rank model_id rank stats).
Proof.
  intros Hrank Ht Hh. induction 1 as [|[key data] stats (Hok & ? & ?) Hall IH]; simpl.
  - constructor; [|constructor]. simpl. split; [|done]. unfold tally_ok. simpl.
    case_match; lia.
  - destruct (Dyn.same_key key model_id); constructor; try done. simpl.
    split; [|done]. unfold tally_ok in *. simpl in *. case_match; lia.
Qed.

Lemma record_rank_ok model_id rank stats :
  (1 ≤ rank)%Z →
  Dyn.truthy model_id = true → Dyn.hashable model_id = true →
  stats_ok stats → stats_ok (Analytics.record_rank model_id rank stats).
Proof.
  intros Hrank Ht Hh [Hall Hnd]. split; [by apply record_rank_tallies|].
  destruct (record_rank_keys model_id rank stats) as [->|[-> Hnew]]; [done|].
  rewrite fmap_app. apply NoDup_app. split_and!; [done| |apply NoDup_singleton].
  intros k Hk ->%list_elem_of_singleton.
  apply list_elem_of_fmap in Hk as (key & Hkey & Hin).
  assert (Dyn.same_key key model_id = true) as Hsame.
  { apply list_elem_of_fmap in Hin as ([key' data] & -> & Hin).
    eapply Forall_forall in Hall as (_ & ? & ?); [|exact Hin].
    by apply same_key_key_of. }
  rewrite (Hnew key Hin) in Hsame. done.
Qed.

Lemma rank_labels_ok label_to_model todo stats :
  Forall (λ rl : nat * Dyn.json, (1 ≤ rl.1)%nat) todo →
  stats_ok stats → stats_ok (Analytics.rank_labels label_to_model todo stats).2.
Proof.
  intros Htodo. revert stats. induction Htodo as [|[rank label] todo Hr _ IH];
    intros stats Hok; simpl; [done|].
  destruct (Analytics.model_of _ _) as [model_id|]; [|done].
  destruct (Dyn.truthy model_id) eqn:Ht; [|by apply IH].
  destruct (Dyn.hashable model_id) eqn:Hh; [|done].
  apply IH, record_rank_ok; try done. simpl in Hr. lia.
Qed.

Lemma enumerate_from_ranks {A} (l : list A) start :
  Forall (λ rl : nat * A, (start ≤ rl.1)%nat) (Py.enumerate_from start l).
Proof.
  apply Forall_forall. intros [r x] [? _]%elem_of_enumerate_from. done.
Qed.

Lemma rank_entries_ok label_to_model entries stats :
  stats_ok stats → stats_ok (Analytics.rank_entries label_to_model entries stats).2.
Proof.
  revert stats. induction entries as [|entry entries IH]; intros stats Hok; simpl; [done|].
  destruct (Dyn.get _ _ _) as [parsed|]; [|done].
  destruct (negb _); [by apply IH|].
  destruct (Dyn.iter parsed) as [labels|]; [|done].
  pose proof (rank_labels_ok label_to_model (Py.enumerate_from 1 labels) stats
                (enumerate_from_ranks labels 1) Hok) as Hok'.
  destruct (Analytics.rank_labels _ _ _).1; [by apply IH|done].
Qed.

Lemma rank_messages_ok messages stats :
  stats_ok stats → stats_ok (Analytics.rank_messages messages stats).2.
Proof.
  revert stats. induction messages as [|msg messages IH]; intros stats Hok; simpl; [done|].
  destruct (Dyn.contains _ _) as [[]|]; [|by apply IH|done].
  destruct (Dyn.getitem _ _) as [stage2|]; [|done].
  destruct (negb _); [by apply IH|].
  destruct (Dyn.get msg _ _) as [metadata|]; [|done].
  destruct (Dyn.get metadata _ _) as [label_to_model|]; [|done].
  destruct (negb _); [by apply IH|].
  destruct (Dyn.iter stage2) as [entries|]; [|done].
  pose proof (rank_entries_ok label_to_model entries stats Hok) as Hok'.
  destruct (Analytics.rank_entries _ _ _).1; [by apply IH|done].
Qed.

Lemma rank_file_ok data stats :
  stats_ok stats → stats_ok (Analytics.rank_file data stats).2.
Proof.
  intros Hok. unfold Analytics.rank_file. destruct data as [data|]; [|done].
  destruct (Dyn.get _ _ _) as [messages|]; [|done].
  destruct (Dyn.iter _) as [msgs|]; [|done]. by apply rank_messages_ok.
Qed.

Lemma rank_files_ok files stats processed :
  stats_ok stats → stats_ok (Analytics.rank_files files stats processed).1.
Proof.
  revert stats processed. induction files as [|[name data] files IH];
    intros stats processed Hok; simpl; [done|].
  destruct (negb _); [by apply IH|]. by apply IH, rank_file_ok.
Qed.

(** ** The rows of [get_analytics] *)

Lemma to_row_sane item :
  tally_ok item.2 →
  (1 ≤ Analytics.evaluations (Analytics.to_row item))%Z ∧
  (1 <= Analytics.average_rank (Analytics.to_row item))%Q ∧
  (0 <= Analytics.win_rate (Analytics.to_row item))%Q ∧
  (Analytics.win_rate (Analytics.to_row item) <= 100)%Q.
Proof.
  destruct item as [key [total count wins]]. intros (Hc & Hw & Ht). simpl in *.
  unfold Analytics.to_row. simpl.
  assert ((0 <? count)%Z = true) as -> by (apply Z.ltb_lt; lia).
  assert (0 < inject_Z count)%Q as Hcq by (rewrite <-(Zlt_Qlt 0); lia).
  assert (inject_Z count <= inject_Z total)%Q as Htq by (rewrite <-Zle_Qle; lia).
  assert (0 <= inject_Z wins)%Q as Hw0 by (rewrite <-(Zle_Qle 0); lia).
  assert (inject_Z wins <= inject_Z count)%Q as Hw1 by (rewrite <-Zle_Qle; lia).
  split_and!.
  - done.
  - assert (1 == inject_Z 100 / inject_Z (10 ^ Z.of_nat 2))%Q as Hone by reflexivity.
    rewrite Hone. apply round_ge. rewrite <-Hone.
    apply Qle_shift_div_l; [done|]. lra.
  - assert (0 == inject_Z 0 / inject_Z (10 ^ Z.of_nat 1))%Q as Hzero by reflexivity.
    rewrite Hzero. apply round_ge. rewrite <-Hzero.
    apply Qmult_le_0_compat; [|lra]. apply Qle_shift_div_l; [done|]. lra.
  - assert (inject_Z wins / inject_Z count <= 1)%Q.
    { apply Qle_shift_div_r; [done|]. lra. }
    apply (Qle_trans _ (inject_Z 1000 / inject_Z (10 ^ Z.of_nat 1))); [|by vm_compute].
    apply round_le.
    apply (Qle_trans _ 100); [lra|by vm_compute].
Qed.

Lemma analytics_stats_ok files : stats_ok (Analytics.rank_files files [] 0).1.
Proof. apply rank_files_ok. split; [constructor|constructor]. Qed.

(** X27. Every row of the analytics is about a model that was ranked:
    it has at least one evaluation, an average rank of at least 1, a win
    rate between 0 and 100, and a model identifier that is neither empty
    nor a list or dict. *)
Theorem analytics_rows_sane data_dir row :
  row ∈ Analytics.get_analytics data_dir →
  (1 ≤ Analytics.evaluations row)%Z ∧
  (1 <= Analytics.average_rank row)%Q ∧
  (0 <= Analytics.win_rate row <= 100)%Q ∧
  Dyn.truthy (Analytics.r_model row) = true ∧
  Dyn.hashable (Analytics.r_model row) = true.
Proof.
  destruct data_dir as [|files]; simpl; [by intros ?%elem_of_nil|].
  intros (item & -> & Hin)%elem_of_sort_by%list_elem_of_fmap.
  destruct (analytics_stats_ok files) as [Hall _].
  eapply Forall_forall in Hall as (Hok & ? & ?); [|exact Hin].
  destruct (to_row_sane item Hok) as (? & ? & ? & ?). done.
Qed.

(** On [Sample.data_dir]. *)
Lemma analytics_rows_sane_witness :
  Analytics.get_analytics Sample.data_dir ≠ [] ∧
  Forall
    (λ row, (1 ≤ Analytics.evaluations row)%Z ∧
            (1 <= Analytics.average_rank row)%Q ∧
            (0 <= Analytics.win_rate row <= 100)%Q)
    (Analytics.get_analytics Sample.data_dir).
Proof.
  split; [vm_compute; discriminate|].
  apply Forall_forall. intros row Hrow.
  destruct (analytics_rows_sane Sample.data_dir row Hrow) as (He & Ha & Hw & _).
  split; [exact He|]. split; [exact Ha|exact Hw].
Defined.


(** X28. The rows are in ascending order of average rank, no model
    has two rows, and a missing data directory gives no row. *)
Theorem analytics_sorted_by_rank data_dir :
  StronglySorted (λ a b, (Analytics.average_rank a <= Analytics.average_rank b)%Q)
    (Analytics.get_analytics data_dir) ∧
  NoDup ((λ row, key_of (Analytics.r_model row)) <$> Analytics.get_analytics data_dir) ∧
  Analytics.get_analytics Analytics.Missing = [].
Proof.
  split_and!; [| |done].
  - destruct data_dir as [|files]; simpl; [constructor|].
    eapply (StronglySorted_impl
              (λ a b, Qle_bool (Analytics.average_rank a) (Analytics.average_rank b) = true)).
    { intros ??. apply Qle_bool_iff. }
    apply sort_by_sorted.
    + intros x y Hxy. apply Qle_bool_iff.
      apply Qlt_le_weak, Qnot_le_lt. intros Hle%Qle_bool_iff. congruence.
    + intros x y z Hxy%Qle_bool_iff Hyz%Qle_bool_iff. apply Qle_bool_iff.
      by eapply Qle_trans.
  - destruct data_dir as [|files]; simpl; [constructor|].
    rewrite sort_by_Permutation, <-list_fmap_compose.
    destruct (analytics_stats_ok files) as [_ Hnd].
    rewrite <-list_fmap_compose in Hnd. done.
Qed.

(** ** Files and messages that cannot be read *)

Lemma rank_files_readable files stats processed :
  Analytics.rank_files files stats processed
  = Analytics.rank_files (filter (λ file, is_readable file = true) files) stats processed.
Proof.
  revert stats processed. induction files as [|[name data] files IH]; intros stats processed;
    [done|].
  cbn [Analytics.rank_files].
  destruct (Str.endswith name ".json") eqn:Hname; simpl.
  - destruct data as [data|].
    + rewrite filter_cons_True by (unfold is_readable; simpl; by rewrite Hname).
      cbn [Analytics.rank_files]. rewrite Hname. simpl. apply IH.
    + rewrite filter_cons_False by (unfold is_readable; simpl; by rewrite Hname).
      apply IH.
  - rewrite filter_cons_False by (unfold is_readable; simpl; by rewrite Hname).
    apply IH.
Qed.

(** X29. Files that do not count change nothing: the analytics of
    a directory are those of its files whose name ends in [.json] and
    that can be opened and parsed, in the same order. *)
Theorem unreadable_files_are_skipped files :
  Analytics.get_analytics (Analytics.Listing files)
  = Analytics.get_analytics
      (Analytics.Listing (filter (λ file, is_readable file = true) files)).
Proof. unfold Analytics.get_analytics. by rewrite rank_files_readable. Qed.

Lemma rank_messages_app before after stats :
  Analytics.rank_messages (before ++ after) stats
  = if (Analytics.rank_messages before stats).1
    then Analytics.rank_messages after (Analytics.rank_messages before stats).2
    else Analytics.rank_messages before stats.
Proof.
  revert stats. induction before as [|msg before IH]; intros stats; [done|].
  rewrite <-app_comm_cons. cbn [Analytics.rank_messages].
  destruct (Dyn.contains _ _) as [[]|]; [|by apply IH|done].
  destruct (Dyn.getitem _ _) as [stage2|]; [|done].
  destruct (negb _); [by apply IH|].
  destruct (Dyn.get msg _ _) as [metadata|]; [|done].
  destruct (Dyn.get metadata _ _) as [label_to_model|]; [|done].
  destruct (negb _); [by apply IH|].
  destruct (Dyn.iter stage2) as [entries|]; [|done].
  cbv zeta. destruct (Analytics.rank_entries _ _ _) as [[] stats']; simpl; [by apply IH|done].
Qed.

(** X30. A file is not all or nothing: when a message of a file
    makes the loop raise (a number or [null] where a message is
    expected), the rankings of the messages before it stay counted and
    those after it are lost, so the analytics of the file are those of
    the messages before the bad one. *)
Theorem malformed_message_keeps_earlier_counts good bad rest stats stats' name :
  Analytics.rank_messages good stats = (true, stats') →
  Dyn.contains "stage2" bad = None →
  Str.endswith name ".json" = true →
  Analytics.rank_messages (good ++ bad :: rest) stats = (false, stats') ∧
  (stats = [] →
   Analytics.get_analytics
     (Analytics.Listing
        [(name, Some (Dyn.JDict [("messages", Dyn.JList (good ++ bad :: rest))]))])
   = Analytics.get_analytics
       (Analytics.Listing [(name, Some (Dyn.JDict [("messages", Dyn.JList good)]))])).
Proof.
  intros Hgood Hbad Hname.
  assert (Analytics.rank_messages (good ++ bad :: rest) stats = (false, stats')) as Hall.
  { rewrite rank_messages_app, Hgood. simpl. by rewrite Hbad. }
  split; [done|]. intros ->.
  unfold Analytics.get_analytics. cbn [Analytics.rank_files]. rewrite Hname. simpl.
  by rewrite Hall, Hgood.
Qed.

(** On [Sample.history] followed by a number and one more council turn. *)
Lemma malformed_message_keeps_earlier_counts_witness :
  Analytics.rank_messages (Sample.history ++ Dyn.JNum 5 :: [Sample.second_turn]) []
  = (false, Sample.stats_history) ∧
  Analytics.get_analytics
    (Analytics.Listing
       [("c1.json",
         Some (Dyn.JDict [("messages",
                           Dyn.JList (Sample.history ++ Dyn.JNum 5 :: [Sample.second_turn]))]))])
  = Analytics.get_analytics
      (Analytics.Listing
         [("c1.json", Some (Dyn.JDict [("messages", Dyn.JList Sample.history)]))]).
Proof.
  assert (Analytics.rank_messages Sample.history [] = (true, Sample.stats_history)) as Hgood
    by (vm_compute; reflexivity).
  destruct (malformed_message_keeps_earlier_counts Sample.history (Dyn.JNum 5)
              [Sample.second_turn] [] Sample.stats_history "c1.json" Hgood eq_refl eq_refl)
    as [Hloop Hsame].
  split; [exact Hloop|exact (Hsame eq_refl)].
Defined.
